(** * gdd: the test-event aggregator, the executor's argument checks and the
      completion handler, embedded from the Go sources.

    - [gostrings]: the functions of Go's [strings] and [fmt] packages that
      [parser.Parse] calls, on byte strings.
    - [parser]: [TestEvent], [TestResult], [PackageResult] and [Parse]
      (package parser).
    - [runner]: [TestRunConfig] and [ExecuteTestsCmd] (package runner).
    - [tui]: [updateOnTestsComplete] (package tui).
    - [finder]: [FindTests] and [isValidTestFunc] (package finder), over
      the tree of files that [filepath.Walk] visits.
    - [report_model]: the counters of [ReportModel.SetContent].
    - [main_model]: [MainModel.Update] with [updateOnRunTests],
      [routeByState] and the [Update] of the two views; commands are data.
    - [ParseProofs]: the loop of [Parse] by cases, what holds of all its
      states, and two runs of [Parse] compared.
    - [gosort]: [sort.Slice] as Go's library has it, for slices of up to
      13 elements.
    - The properties C1 to C10 of the specification.
    - Further properties, X1 to X26, of the parser, the runner, the
      finder, the report and [Update].

    Go maps are [gmap]s; slices are lists; [*PackageResult] and [*TestResult]
    pointers are modelled by writing the updated record back under the key
    that the pointer was read from.  What the Go language and its libraries
    leave open (the order in which [range] visits a map, the order in which
    [sort.Slice] leaves equal elements, a float-to-integer conversion that
    overflows) is a parameter, the class [GoRuntime]. *)

From Stdlib Require Import Floats ZArith String Ascii List Bool Lia.
From Stdlib Require Import Sorting.Sorted Sorting.Permutation Structures.OrderedTypeEx.
From stdpp Require Import gmap strings list fin_maps pretty.

Open Scope string_scope.

(** ** Go's [strings] and [fmt] helpers *)

Module gostrings.

(** [strings.HasPrefix(s, prefix)] *)
Definition HasPrefix (s pre : string) : bool := String.prefix pre s.

(** [strings.Contains(s, substr)] *)
Fixpoint Contains (s substr : string) : bool :=
  String.prefix substr s ||
  match s with
  | EmptyString => false
  | String _ s' => Contains s' substr
  end.

(** [strings.TrimPrefix(s, prefix)] *)
Definition TrimPrefix (s pre : string) : string :=
  if String.prefix pre s then String.substring (String.length pre) (String.length s - String.length pre) s
  else s.

(** [strings.TrimRight(s, "\n")]: every trailing newline is removed. *)
Definition newline : ascii := ascii_of_nat 10.

Fixpoint TrimRightNewlines (s : string) : string :=
  match s with
  | EmptyString => EmptyString
  | String c s' =>
      match TrimRightNewlines s' with
      | EmptyString => if bool_decide (c = newline) then EmptyString else String c EmptyString
      | r => String c r
      end
  end.

(** White space as [unicode.IsSpace] has it, in UTF-8: the six ASCII
    characters, U+0085, U+00A0, U+1680, U+2000..U+200A, U+2028, U+2029,
    U+202F, U+205F and U+3000. *)
Definition bytes (l : list nat) : string :=
  string_of_list_ascii (map ascii_of_nat l).

Definition spaceRunes : list string :=
  map bytes
    ([[9]; [10]; [11]; [12]; [13]; [32];
      [194; 133]; [194; 160]; [225; 154; 128]] ++
     map (fun b => [226; 128; b]) (seq 128 11) ++
     [[226; 128; 168]; [226; 128; 169]; [226; 128; 175];
      [226; 129; 159]; [227; 128; 128]]).

Fixpoint stripOne (runes : list string) (s : string) : option string :=
  match runes with
  | [] => None
  | r :: runes' =>
      if String.prefix r s
      then Some (String.substring (String.length r) (String.length s - String.length r) s)
      else stripOne runes' s
  end.

Fixpoint trimLeftFuel (fuel : nat) (runes : list string) (s : string) : string :=
  match fuel with
  | O => s
  | S fuel' =>
      match stripOne runes s with
      | Some s' => trimLeftFuel fuel' runes s'
      | None => s
      end
  end.

Definition revString (s : string) : string :=
  string_of_list_ascii (rev (list_ascii_of_string s)).

Definition TrimLeftSpace (s : string) : string :=
  trimLeftFuel (String.length s) spaceRunes s.

Definition TrimRightSpace (s : string) : string :=
  revString (trimLeftFuel (String.length s) (map revString spaceRunes) (revString s)).

(** [strings.TrimSpace(s)] *)
Definition TrimSpace (s : string) : string := TrimRightSpace (TrimLeftSpace s).

(** [fmt.Sprintf("%d", n)] for a line number *)
Definition itoa (n : nat) : string := pretty n.

End gostrings.

(** ** package parser *)

Module parser.

Import gostrings.

(** [type TestStatus string].  [StatusZero] is the zero value [""] of a
    field that was never assigned. *)
Inductive TestStatus : Type :=
| StatusRunning
| StatusPass
| StatusFail
| StatusSkip
| StatusUnknown
| StatusZero.

#[global] Instance TestStatus_eq_dec : EqDecision TestStatus.
Proof. solve_decision. Defined.

(** [type TestEvent struct]; [Time] is decoded and never read. *)
Module TestEvent.
Record t : Type := mk {
  Action : string;
  Package : string;
  Test : string;
  Elapsed : float;
  Output : string
}.
Definition with_Package (p : string) (e : t) : t :=
  mk (Action e) p (Test e) (Elapsed e) (Output e).
End TestEvent.

(** [type TestResult struct]; [Duration] is a [time.Duration], an int64
    count of nanoseconds. *)
Module TestResult.
Record t : Type := mk {
  PackageName : string;
  Name : string;
  Status : TestStatus;
  Output : list string;
  Duration : Z
}.
Definition with_Status (s : TestStatus) (r : t) : t :=
  mk (PackageName r) (Name r) s (Output r) (Duration r).
Definition with_Output (o : list string) (r : t) : t :=
  mk (PackageName r) (Name r) (Status r) o (Duration r).
Definition with_Duration (d : Z) (r : t) : t :=
  mk (PackageName r) (Name r) (Status r) (Output r) d.
End TestResult.

(** [type PackageResult struct] *)
Module PackageResult.
Record t : Type := mk {
  PackageName : string;
  Status : TestStatus;
  SummaryOutput : list string;
  Tests : list TestResult.t;
  Duration : Z
}.
Definition with_Status (s : TestStatus) (p : t) : t :=
  mk (PackageName p) s (SummaryOutput p) (Tests p) (Duration p).
Definition with_SummaryOutput (o : list string) (p : t) : t :=
  mk (PackageName p) (Status p) o (Tests p) (Duration p).
Definition with_Tests (ts : list TestResult.t) (p : t) : t :=
  mk (PackageName p) (Status p) (SummaryOutput p) ts (Duration p).
Definition with_Duration (d : Z) (p : t) : t :=
  mk (PackageName p) (Status p) (SummaryOutput p) (Tests p) d.
End PackageResult.

(** The [less] function handed to [sort.Slice]:
    [pkg.Tests[i].Name < pkg.Tests[j].Name], on bytes. *)
Definition less (a b : TestResult.t) : bool :=
  String.ltb (TestResult.Name a) (TestResult.Name b).

(** [byName a b]: [b] may follow [a] in a slice sorted with [less]. *)
Definition byName (a b : TestResult.t) : Prop := less b a = false.

(** What the language and the library leave open.
    - [mapRange n entries]: the order in which the [range] statement
      executed while line [n] is processed ([0]: after the loop) visits
      the entries of a map;
    - [sortSlice]: [sort.Slice] with [less], sorted and a permutation,
      "not guaranteed to be stable";
    - [convOverflow]: the int64 that a float64 outside the int64 range
      converts to. *)
Class GoRuntime : Type := {
  mapRange : nat -> list (string * TestResult.t) -> list (string * TestResult.t);
  mapRange_perm : forall n l, Permutation (mapRange n l) l;
  sortSlice : list TestResult.t -> list TestResult.t;
  sortSlice_perm : forall l, Permutation (sortSlice l) l;
  sortSlice_sorted : forall l, StronglySorted byName (sortSlice l);
  convOverflow : float -> Z
}.

(** One line as [bufio.Scanner] and [json.Unmarshal] present it to the
    loop body: empty, rejected by [json.Unmarshal], or decoded. *)
Inductive Line : Type :=
| EmptyLine
| BadLine (raw : string)
| EventLine (event : TestEvent.t).

(** [time.Duration(f)] for a float64 [f]: truncation toward zero. *)
Definition int64_min : Z := - 2 ^ 63.
Definition int64_max : Z := 2 ^ 63 - 1.

Definition truncate (f : float) : option Z :=
  match Prim2SF f with
  | S754_zero _ => Some 0%Z
  | S754_finite s m e =>
      let mag := match e with
                 | Z0 => Zpos m
                 | Zpos p => Z.shiftl (Zpos m) (Zpos p)
                 | Zneg p => Z.shiftr (Zpos m) (Zpos p)
                 end in
      Some (if s then (- mag)%Z else mag)
  | S754_infinity _ | S754_nan => None
  end.

Definition float64ToInt64 `{GoRuntime} (f : float) : Z :=
  match truncate f with
  | Some z => if bool_decide (int64_min <= z <= int64_max)%Z then z else convOverflow f
  | None => convOverflow f
  end.

(** [float64(time.Second)] *)
Definition Second : float := 1e9%float.

(** [time.Duration(event.Elapsed * float64(time.Second))] *)
Definition durationOf `{GoRuntime} (elapsed : float) : Z :=
  float64ToInt64 (PrimFloat.mul elapsed Second).

(** The aggregator's variables. *)
Record State : Type := mkState {
  packageResults : gmap string PackageResult.t;
  orderedPackageNames : list string;
  currentTestResults : gmap string TestResult.t;
  lineNumber : nat
}.

Definition with_packageResults (m : gmap string PackageResult.t) (st : State) : State :=
  mkState m (orderedPackageNames st) (currentTestResults st) (lineNumber st).
Definition with_orderedPackageNames (l : list string) (st : State) : State :=
  mkState (packageResults st) l (currentTestResults st) (lineNumber st).
Definition with_currentTestResults (m : gmap string TestResult.t) (st : State) : State :=
  mkState (packageResults st) (orderedPackageNames st) m (lineNumber st).
Definition with_lineNumber (n : nat) (st : State) : State :=
  mkState (packageResults st) (orderedPackageNames st) (currentTestResults st) n.

Definition initState : State := mkState ∅ [] ∅ 0.

(** [containsString] *)
Fixpoint containsString (slice : list string) (str : string) : bool :=
  match slice with
  | [] => false
  | item :: rest => if bool_decide (item = str) then true else containsString rest str
  end.

Definition orphanedOutputPackage : string := "_orphaned_output_".

(** [*pkgResult = p] for the pointer read from [packageResults[name]]. *)
Definition storePackage (name : string) (p : PackageResult.t) (st : State) : State :=
  with_packageResults (<[name := p]> (packageResults st)) st.

(** Lines 450-471: the package the event belongs to, created on first
    sight.  [None] is the [continue] of an event without a package. *)
Definition newPackage (name : string) : PackageResult.t :=
  PackageResult.mk name StatusUnknown [] [] 0.

Definition createPackage (st : State) (event : TestEvent.t)
  : State * TestEvent.t * PackageResult.t :=
  let name := TestEvent.Package event in
  let pkgResult := newPackage name in
  let st := storePackage name pkgResult st in
  let st :=
    if containsString (orderedPackageNames st) name then st
    else with_orderedPackageNames (orderedPackageNames st ++ [name]) st in
  (st, event, pkgResult).

Definition ensurePackage (st : State) (event : TestEvent.t)
  : option (State * TestEvent.t * PackageResult.t) :=
  match packageResults st !! TestEvent.Package event with
  | Some pkgResult => Some (st, event, pkgResult)
  | None =>
      if bool_decide (TestEvent.Package event = "")
         && bool_decide (TestEvent.Test event = "")
         && bool_decide (TestEvent.Action event = "output")
      then Some (createPackage st (TestEvent.with_Package orphanedOutputPackage event))
      else if bool_decide (TestEvent.Package event = "") then None
      else Some (createPackage st event)
  end.

(** Lines 473-476 *)
Definition testKeyOf (event : TestEvent.t) : string :=
  if bool_decide (TestEvent.Test event = "") then ""
  else TestEvent.Package event ++ "/" ++ TestEvent.Test event.

(** Lines 479-491: [case "run"] *)
Definition onRun (st : State) (event : TestEvent.t) (pkgResult : PackageResult.t) : State :=
  if bool_decide (TestEvent.Test event = "") then
    storePackage (TestEvent.Package event) (PackageResult.with_Status StatusRunning pkgResult) st
  else
    with_currentTestResults
      (<[testKeyOf event :=
           TestResult.mk (TestEvent.Package event) (TestEvent.Test event) StatusRunning [] 0]>
         (currentTestResults st)) st.

(** Lines 503-509: the output goes to the first completed test of that
    name; [None] when there is none. *)
Fixpoint appendToCompleted (tests : list TestResult.t) (name outputLine : string)
  : option (list TestResult.t) :=
  match tests with
  | [] => None
  | t :: rest =>
      if bool_decide (TestResult.Name t = name)
      then Some (TestResult.with_Output (TestResult.Output t ++ [outputLine]) t :: rest)
      else option_map (cons t) (appendToCompleted rest name outputLine)
  end.

(** Lines 493-517: [case "output"] *)
Definition onOutput (st : State) (event : TestEvent.t) (pkgResult : PackageResult.t) : State :=
  let outputLine := TrimRightNewlines (TestEvent.Output event) in
  let summarize line :=
    storePackage (TestEvent.Package event)
      (PackageResult.with_SummaryOutput (PackageResult.SummaryOutput pkgResult ++ [line]) pkgResult) st in
  if bool_decide (TestEvent.Test event = "") then summarize outputLine
  else
    match currentTestResults st !! testKeyOf event with
    | Some tr =>
        with_currentTestResults
          (<[testKeyOf event := TestResult.with_Output (TestResult.Output tr ++ [outputLine]) tr]>
             (currentTestResults st)) st
    | None =>
        match appendToCompleted (PackageResult.Tests pkgResult) (TestEvent.Test event) outputLine with
        | Some tests =>
            storePackage (TestEvent.Package event) (PackageResult.with_Tests tests pkgResult) st
        | None => summarize ("[" ++ TestEvent.Test event ++ "] " ++ outputLine)
        end
    end.

(** [TestStatus(strings.ToUpper(event.Action))] under
    [case "pass", "fail", "skip"] *)
Definition statusOfAction (action : string) : TestStatus :=
  if bool_decide (action = "pass") then StatusPass
  else if bool_decide (action = "fail") then StatusFail
  else StatusSkip.

(** Lines 535-543: summary lines tagged with the test's name move to the
    test; the pair is ([tr.Output], [newPkgSummary]). *)
Fixpoint moveTagged (tag : string) (summary : list string) : list string * list string :=
  match summary with
  | [] => ([], [])
  | line :: rest =>
      let '(out, kept) := moveTagged tag rest in
      if HasPrefix line tag then (TrimSpace (TrimPrefix line tag) :: out, kept)
      else (out, line :: kept)
  end.

(** Lines 523-550: a test has finished. *)
Definition onTestDone (st : State) (event : TestEvent.t) (pkgResult : PackageResult.t)
    (status : TestStatus) (duration : Z) : State :=
  let '(tr, pkgResult) :=
    match currentTestResults st !! testKeyOf event with
    | Some tr => (tr, pkgResult)
    | None =>
        let '(out, kept) :=
          moveTagged ("[" ++ TestEvent.Test event ++ "]") (PackageResult.SummaryOutput pkgResult) in
        (TestResult.mk (TestEvent.Package event) (TestEvent.Test event) StatusZero out 0,
         PackageResult.with_SummaryOutput kept pkgResult)
    end in
  let tr := TestResult.with_Duration duration (TestResult.with_Status status tr) in
  let pkgResult := PackageResult.with_Tests (PackageResult.Tests pkgResult ++ [tr]) pkgResult in
  with_currentTestResults (delete (testKeyOf event) (currentTestResults st))
    (storePackage (TestEvent.Package event) pkgResult st).

(** Lines 557-569: one iteration over [currentTestResults] when package
    [pkg] finishes. *)
Definition sweepOne (pkg : string)
    (acc : PackageResult.t * gmap string TestResult.t) (entry : string * TestResult.t)
  : PackageResult.t * gmap string TestResult.t :=
  let '(pkgResult, current) := acc in
  let '(key, unfinishedTest) := entry in
  if bool_decide (TestResult.PackageName unfinishedTest = pkg) then
    let unfinishedTest :=
      TestResult.with_Output
        (TestResult.Output unfinishedTest ++ ["Test did not report completion before package finished."])
        (TestResult.with_Status StatusFail unfinishedTest) in
    let pkgResult := PackageResult.with_Tests (PackageResult.Tests pkgResult ++ [unfinishedTest]) pkgResult in
    let current := delete key current in
    let pkgResult :=
      if bool_decide (PackageResult.Status pkgResult = StatusPass)
      then PackageResult.with_Status StatusFail pkgResult else pkgResult in
    (pkgResult, current)
  else acc.

Definition sweepPackage `{GoRuntime} (n : nat) (pkg : string)
    (pkgResult : PackageResult.t) (current : gmap string TestResult.t)
  : PackageResult.t * gmap string TestResult.t :=
  fold_left (sweepOne pkg) (mapRange n (map_to_list current)) (pkgResult, current).

(** Lines 575-583: the pair is ([isNoTestFiles], [isBuildFailed]); the
    loop stops at the first "no test files" line. *)
Definition tab : string := String (ascii_of_nat 9) EmptyString.

Definition isNoTestFilesLine (line : string) : bool :=
  Contains line "[no test files]" || Contains line "no Go files"
  || Contains line "no non-test Go files".

Definition isBuildFailedLine (line : string) : bool :=
  HasPrefix line "# " || Contains line ("FAIL" ++ tab) && Contains line "[build failed]".

Fixpoint classifySummary (summary : list string) (isBuildFailed : bool) : bool * bool :=
  match summary with
  | [] => (false, isBuildFailed)
  | line :: rest =>
      if isNoTestFilesLine line then (true, isBuildFailed)
      else classifySummary rest (if isBuildFailedLine line then true else isBuildFailed)
  end.

(** Lines 571-606: a package without tests whose summary tells why. *)
Definition placeholder (event : TestEvent.t) (status : TestStatus)
    (pkgResult : PackageResult.t) : PackageResult.t :=
  if (bool_decide (status = StatusFail) || bool_decide (status = StatusSkip)
      || bool_decide (status = StatusPass))
     && bool_decide (length (PackageResult.Tests pkgResult) = 0)
     && bool_decide (0 < length (PackageResult.SummaryOutput pkgResult))
  then
    let '(isNoTestFiles, isBuildFailed) :=
      classifySummary (PackageResult.SummaryOutput pkgResult) false in
    let synth name st :=
      PackageResult.with_SummaryOutput []
        (PackageResult.with_Tests
           (PackageResult.Tests pkgResult ++
            [TestResult.mk (TestEvent.Package event) name st
               (PackageResult.SummaryOutput pkgResult) (PackageResult.Duration pkgResult)])
           pkgResult) in
    if isNoTestFiles then synth ("Package " ++ TestEvent.Package event ++ " Status") StatusSkip
    else if isBuildFailed && bool_decide (status = StatusFail)
    then synth ("Package " ++ TestEvent.Package event ++ " Build Failed") StatusFail
    else pkgResult
  else pkgResult.

(** Lines 551-607: a package has finished. *)
Definition onPackageDone `{GoRuntime} (st : State) (event : TestEvent.t)
    (pkgResult : PackageResult.t) (status : TestStatus) (duration : Z) : State :=
  let pkgResult := PackageResult.with_Duration duration (PackageResult.with_Status status pkgResult) in
  let '(pkgResult, current) :=
    sweepPackage (lineNumber st) (TestEvent.Package event) pkgResult (currentTestResults st) in
  let pkgResult := placeholder event status pkgResult in
  with_currentTestResults current (storePackage (TestEvent.Package event) pkgResult st).

(** Lines 478-611: the [switch] on the action. *)
Definition dispatch `{GoRuntime} (st : State) (event : TestEvent.t)
    (pkgResult : PackageResult.t) : State :=
  let action := TestEvent.Action event in
  if bool_decide (action = "run") then onRun st event pkgResult
  else if bool_decide (action = "output") then onOutput st event pkgResult
  else if bool_decide (action = "pass") || bool_decide (action = "fail")
          || bool_decide (action = "skip") then
    let status := statusOfAction action in
    let duration := durationOf (TestEvent.Elapsed event) in
    if bool_decide (TestEvent.Test event = "")
    then onPackageDone st event pkgResult status duration
    else onTestDone st event pkgResult status duration
  else st.

Definition processEvent `{GoRuntime} (st : State) (event : TestEvent.t) : State :=
  match ensurePackage st event with
  | Some (st, event, pkgResult) => dispatch st event pkgResult
  | None => st
  end.

(** Lines 437-447: a line that [json.Unmarshal] rejects. *)
Definition onBadLine (st : State) (raw : string) : State :=
  match last (orderedPackageNames st) with
  | Some lastPkgName =>
      match packageResults st !! lastPkgName with
      | Some pkgResult =>
          storePackage lastPkgName
            (PackageResult.with_SummaryOutput
               (PackageResult.SummaryOutput pkgResult ++
                ["[Malformed JSON line " ++ itoa (lineNumber st) ++ "]: " ++ raw])
               pkgResult) st
      | None => st
      end
  | None => st
  end.

(** Lines 429-612: the body of the scanner loop. *)
Definition processLine `{GoRuntime} (st : State) (line : Line) : State :=
  let st := with_lineNumber (S (lineNumber st)) st in
  match line with
  | EmptyLine => st
  | BadLine raw => onBadLine st raw
  | EventLine event => processEvent st event
  end.

Definition scanLoop `{GoRuntime} (lines : list Line) : State :=
  fold_left processLine lines initState.

(** Lines 620-638: one iteration of the sweep after the loop. *)
Definition finishOne (pkgs : gmap string PackageResult.t) (entry : string * TestResult.t)
  : gmap string PackageResult.t :=
  let tr := entry.2 in
  if bool_decide (TestResult.Status tr = StatusRunning) then
    let tr :=
      TestResult.with_Output
        (TestResult.Output tr ++
         ["Test did not complete (process might have crashed, timed out, or was terminated)."])
        (TestResult.with_Status StatusFail tr) in
    match pkgs !! TestResult.PackageName tr with
    | Some pkgResult =>
        let pkgResult := PackageResult.with_Tests (PackageResult.Tests pkgResult ++ [tr]) pkgResult in
        let pkgResult :=
          if bool_decide (PackageResult.Status pkgResult = StatusFail) then pkgResult
          else PackageResult.with_Status StatusFail pkgResult in
        <[TestResult.PackageName tr := pkgResult]> pkgs
    | None => pkgs
    end
  else pkgs.

Definition sweepAtEnd `{GoRuntime} (st : State) : gmap string PackageResult.t :=
  fold_left finishOne (mapRange 0 (map_to_list (currentTestResults st))) (packageResults st).

(** Lines 640-650: the packages in the order of [orderedPackageNames], the
    tests of each sorted.  Each name occurs once in [orderedPackageNames]
    (lemma [ordered_NoDup]), so each package is sorted once. *)
Definition assemble `{GoRuntime} (names : list string) (pkgs : gmap string PackageResult.t)
  : list PackageResult.t :=
  omap (fun pkgName =>
          match pkgs !! pkgName with
          | Some pkg => Some (PackageResult.with_Tests (sortSlice (PackageResult.Tests pkg)) pkg)
          | None => None
          end) names.

Definition finalResults `{GoRuntime} (lines : list Line) : list PackageResult.t :=
  let st := scanLoop lines in
  assemble (orderedPackageNames st) (sweepAtEnd st).

(** [Parse]: [lines] is what the scanner delivered and [scanErr] what
    [scanner.Err()] returns after the loop.  The result is the pair that
    the Go function returns, [nil] being the empty list. *)
Definition Parse `{GoRuntime} (lines : list Line) (scanErr : option string)
  : list PackageResult.t * option string :=
  match scanErr with
  | Some err => ([], Some ("error reading test output stream: " ++ err))
  | None => (finalResults lines, None)
  end.

End parser.

(** ** package runner *)

Module runner.

(** The messages on the channel that [ExecuteTestsCmd] returns.  [Err] is
    the text of the error, [None] for [nil]. *)
Inductive Msg : Type :=
| TestOutputLineMsg (Line : string)
| TestRunCompleteMsg (Err : option string).

(** [type TestTargetType int] *)
Definition SingleTest : Z := 0.
Definition PackageTests : Z := 1.
Definition AllTests : Z := 2.

Record TestRunConfig : Type := mkConfig {
  Type_ : Z;
  PackagePath : string;
  TestName : string;
  WorkingDir : string
}.

(** What the operating system answers during one run: whether the pipes
    and the process can be made; the lines that the process writes to its
    standard output and to its standard error in this run, each the bytes
    between two line feeds; and what [cmd.Wait()] returns, [None] when it
    does not return: the process runs for ever, or it waits to write to a
    pipe that is no longer read. *)
Record Process : Type := mkProcess {
  stdoutPipeErr : option string;
  stderrPipeErr : option string;
  startErr : option string;
  stdoutLines : list string;
  stderrLines : list string;
  waitErr : option (option string)
}.

(** What the goroutine of [ExecuteTestsCmd] does: the command it started
    (arguments and directory), if any, and the messages it sent before it
    closed the channel, or before it came to wait for ever. *)
Record Run : Type := mkRun {
  started : option (list string * string);
  sent : list Msg
}.

Definition baseArgs : list string := ["test"; "-json"; "-v"; "-count=1"].

(** [strings.Join(args, " ")] *)
Fixpoint join (args : list string) : string :=
  match args with
  | [] => ""
  | [a] => a
  | a :: rest => a ++ " " ++ join rest
  end.

(** [bufio.MaxScanTokenSize] *)
Definition MaxScanTokenSize : Z := 64 * 1024.

(** [dropCR] of package bufio: a final carriage return is dropped. *)
Definition carriageReturn : ascii := ascii_of_nat 13.

Fixpoint dropCR (line : string) : string :=
  match line with
  | EmptyString => EmptyString
  | String c EmptyString => if bool_decide (c = carriageReturn) then EmptyString else line
  | String c rest => String c (dropCR rest)
  end.

(** The tokens of a [bufio.Scanner] with its default split function and
    buffer, as [stdoutScanner] is: every line without its final carriage
    return, up to the first line of [MaxScanTokenSize] bytes or more, at
    which [Scan] returns false with [bufio.ErrTooLong]; lines 262-272 log
    that error and go on. *)
Fixpoint scanLines (lines : list string) : list string :=
  match lines with
  | [] => []
  | line :: rest =>
      if bool_decide (Z.of_nat (String.length line) < MaxScanTokenSize)%Z
      then dropCR line :: scanLines rest
      else []
  end.

(** Lines 212-294: the command is built, started and read.  The
    completion message of line 294 is sent when [cmd.Wait()] has
    returned. *)
Definition launch (config : TestRunConfig) (finalArgs : list string) (proc : Process) : Run :=
  let dir := if bool_decide (WorkingDir config = "") then "." else WorkingDir config in
  match stdoutPipeErr proc with
  | Some err => mkRun None [TestRunCompleteMsg (Some ("stdout pipe: " ++ err))]
  | None =>
      match stderrPipeErr proc with
      | Some err => mkRun None [TestRunCompleteMsg (Some ("stderr pipe: " ++ err))]
      | None =>
          match startErr proc with
          | Some err =>
              mkRun None
                [TestRunCompleteMsg
                   (Some ("start command 'go " ++ join finalArgs ++ "': " ++ err))]
          | None =>
              mkRun (Some (finalArgs, dir))
                (map TestOutputLineMsg (scanLines (stdoutLines proc))
                 ++ match waitErr proc with
                    | Some err => [TestRunCompleteMsg err]
                    | None => []
                    end)
          end
      end
  end.

(** [ExecuteTestsCmd], lines 165-300: the [switch] on the target type. *)
Definition ExecuteTestsCmd (config : TestRunConfig) (proc : Process) : Run :=
  if bool_decide (Type_ config = SingleTest) then
    if bool_decide (PackagePath config = "") || bool_decide (TestName config = "") then
      mkRun None
        [TestRunCompleteMsg
           (Some "ExecuteTestsCmd: SingleTest requires a valid PackagePath and TestName")]
    else
      launch config
        (baseArgs ++ [PackagePath config; "-run"; "^" ++ TestName config ++ "$"]) proc
  else if bool_decide (Type_ config = PackageTests) then
    if bool_decide (PackagePath config = "") then
      mkRun None
        [TestRunCompleteMsg
           (Some "ExecuteTestsCmd: PackageTests requires a valid PackagePath")]
    else launch config (baseArgs ++ [PackagePath config]) proc
  else if bool_decide (Type_ config = AllTests) then
    launch config (baseArgs ++ ["./..."]) proc
  else
    mkRun None
      [TestRunCompleteMsg
         (Some ("ExecuteTestsCmd: unknown test target type: " ++ pretty (Type_ config)))].

Definition isOutputLine (m : Msg) : bool :=
  match m with
  | TestOutputLineMsg _ => true
  | TestRunCompleteMsg _ => false
  end.

End runner.

(** ** package tui: the end of a run *)

Module tui.

Import parser.

(** [limitString] *)
Definition limitString (s : string) (limit : Z) : string :=
  if bool_decide (Z.of_nat (String.length s) <= limit)%Z then s
  else if bool_decide (limit < 3)%Z then
    if bool_decide (limit < 0)%Z then "" else String.substring 0 (Z.to_nat limit) s
  else String.substring 0 (Z.to_nat (limit - 3)) s ++ "...".

(** [case runner.TestOutputLineMsg]:
    [m.accumulatedJSONOutput.WriteString(msg.Line + "\n")] *)
Definition onTestOutputLine (accumulatedJSONOutput : string) (line : string) : string :=
  accumulatedJSONOutput ++ line ++ String gostrings.newline EmptyString.

Section Complete.

Context `{GoRuntime}.

(** [bufio.Scanner] and [json.Unmarshal] on the accumulated bytes: the
    lines as the loop of [Parse] sees them, and [scanner.Err()]. *)
Variable scan : string -> list Line * option string.

(** [updateOnTestsComplete]: the value of [parsedData]. *)
Definition updateOnTestsComplete (accumulatedJSONOutput : string) (err : option string)
  : list PackageResult.t :=
  let parsed :=
    match Parse (scan accumulatedJSONOutput).1 (scan accumulatedJSONOutput).2 with
    | (parsedData, None) => parsedData
    | (_, Some parseErr) =>
        [PackageResult.mk "JSON Parsing Error" StatusFail
           ["Failed to parse `go test -json` output.";
            "Error: " ++ parseErr;
            "Raw output (first 1KB):";
            limitString accumulatedJSONOutput 1024]
           [] 0]
    end in
  match err with
  | Some errText =>
      if bool_decide (String.length accumulatedJSONOutput = 0) then
        [PackageResult.mk "Test Execution Error" StatusFail
           ["Execution failed to produce JSON output.";
            "Error from `go test`: " ++ errText;
            "Check GDD log for `go test stderr` details."]
           [TestResult.mk "Test Execution Error" "Overall Execution" StatusFail
              ["Command `go test` failed: " ++ errText] 0]
           0]
      else parsed
  | None => parsed
  end.

End Complete.

End tui.

(** ** package finder *)

Module finder.

Import gostrings.

(** [type TestInfo struct] *)
Record TestInfo : Type := mkTestInfo {
  Name : string;
  PackageName : string;
  PackageDir : string;
  FilePath : string
}.

(** The syntax trees of [go/ast] as far as [FindTests] and
    [isValidTestFunc] look at them: a type is an identifier, a pointer
    type, a selection [X.Sel], or something else; a field of a parameter
    list has any number of names and one type; a declaration is a
    function or something else.  [Params] is [fn.Type.Params], [None]
    for nil; [File_Name] is [file.Name.Name], the name in the package
    clause. *)
Inductive Expr : Type :=
| Ident (Name : string)
| StarExpr (X : Expr)
| SelectorExpr (X : Expr) (Sel : string)
| OtherExpr.

Record Field : Type := mkField {
  Names : list string;
  Type_ : Expr
}.

Record FuncDecl : Type := mkFuncDecl {
  FuncDecl_Name : string;
  Params : option (list Field)
}.

Inductive Decl : Type :=
| FuncDeclOf (fn : FuncDecl)
| OtherDecl.

Record File : Type := mkFile {
  File_Name : string;
  Decls : list Decl
}.

(** [isValidTestFunc] *)
Definition isValidTestFunc (fn : FuncDecl) : bool :=
  match Params fn with
  | Some [field] =>
      match Type_ field with
      | StarExpr (SelectorExpr (Ident pkgIdent) Sel) =>
          bool_decide (pkgIdent = "testing") && bool_decide (Sel = "T")
      | _ => false
      end
  | _ => false
  end.

(** [FindTests], the loop over [file.Decls] *)
Definition testsOfDecl (path packageDir : string) (file : File) (decl : Decl)
  : list TestInfo :=
  match decl with
  | FuncDeclOf fn =>
      if HasPrefix (FuncDecl_Name fn) "Test" && isValidTestFunc fn
      then [mkTestInfo (FuncDecl_Name fn) (File_Name file) packageDir path]
      else []
  | OtherDecl => []
  end.

Definition testsOfFile (path packageDir : string) (file : File) : list TestInfo :=
  flat_map (testsOfDecl path packageDir file) (Decls file).

(** [strings.HasSuffix] *)
Definition HasSuffix (s suffix : string) : bool :=
  String.prefix (revString suffix) (revString s).

(** What [filepath.Walk] finds at the root and below: a file, a
    directory with its entries in the order in which [Walk] visits them
    (by name), or an entry for which [os.Lstat] fails.  The entries of
    every directory can be read. *)
#[local] Unset Elimination Schemes.
Inductive Node : Type :=
| FileNode (name : string)
| DirNode (name : string) (entries : list Node)
| BrokenNode (name : string) (err : string).
#[local] Set Elimination Schemes.

Definition nodeName (node : Node) : string :=
  match node with
  | FileNode name | DirNode name _ | BrokenNode name _ => name
  end.

Definition isDir (node : Node) : bool :=
  match node with
  | DirNode _ _ => true
  | FileNode _ | BrokenNode _ _ => false
  end.

Definition isBroken (node : Node) : bool :=
  match node with
  | BrokenNode _ _ => true
  | FileNode _ | DirNode _ _ => false
  end.

(** What the function handed to [Walk] returns: nil, [filepath.SkipDir],
    or another error. *)
Inductive Outcome : Type :=
| Done
| SkipDir
| Failed (err : string).

(** [info.Name() == "vendor" || (len(info.Name()) > 1 && info.Name()[0] == '.')] *)
Definition skippedName (name : string) : bool :=
  bool_decide (name = "vendor")
  || (bool_decide (1 < String.length name)
      && match name with
         | String c _ => bool_decide (c = "."%char)
         | EmptyString => false
         end).

(** [strings.Join(names, "/")] *)
Fixpoint joinSlash (names : list string) : string :=
  match names with
  | [] => ""
  | [name] => name
  | name :: rest => name ++ "/" ++ joinSlash rest
  end.

(** [filepath.ToSlash(filepath.Dir(relPath))], [relPath] being the path
    relative to the root of a file below the directories [dirs]: their
    names joined by "/", and "." for a file in the root. *)
Definition packageDirOf (dirs : list string) : string :=
  match dirs with
  | [] => "."
  | _ => joinSlash dirs
  end.

Section Walk.

(** [parser.ParseFile] on the file at a path, [None] when it fails. *)
Variable parseFile : string -> option File.

(** [filepath.Join] of a directory and the name of one of its entries. *)
Variable Join : string -> string -> string.

(** [strconv.Quote], which formats the verb [%q]. *)
Variable quote : string -> string.

(** The function that [FindTests] hands to [Walk], at the entry [path]
    below the directories [dirs] of the root; [tests] is the slice of
    the tests found so far.  [filepath.Rel(absRootDir, path)] does not
    fail for the paths that [Walk] makes, the root joined with names. *)
Definition walkFn (path : string) (dirs : list string) (name : string) (dir : bool)
    (walkErr : option string) (tests : list TestInfo) : list TestInfo * Outcome :=
  match walkErr with
  | Some err => (tests, Failed err)
  | None =>
      if dir && skippedName name then (tests, SkipDir)
      else if negb dir && HasSuffix name "_test.go" then
        match parseFile path with
        | None => (tests, Done)
        | Some file => ((tests ++ testsOfFile path (packageDirOf dirs) file)%list, Done)
        end
      else (tests, Done)
  end.

(** The loop of [filepath.walk] over the entries of a directory, [walk1]
    being the walk of one entry: an error ends the walk, and so does
    [SkipDir] from a file. *)
Fixpoint walkEntries (walk1 : Node -> list TestInfo -> list TestInfo * Outcome)
    (entries : list Node) (tests : list TestInfo) : list TestInfo * Outcome :=
  match entries with
  | [] => (tests, Done)
  | entry :: rest =>
      match walk1 entry tests with
      | (tests, Failed err) => (tests, Failed err)
      | (tests, SkipDir) =>
          if isDir entry || isBroken entry then walkEntries walk1 rest tests
          else (tests, SkipDir)
      | (tests, Done) => walkEntries walk1 rest tests
      end
  end.

(** [filepath.walk]: [inside] holds the directories between the root and
    the entries of [node], the root itself apart. *)
Fixpoint walk (path : string) (dirs inside : list string) (node : Node)
    (tests : list TestInfo) {struct node} : list TestInfo * Outcome :=
  match node with
  | FileNode name => walkFn path dirs name false None tests
  | BrokenNode name err => walkFn path dirs name false (Some err) tests
  | DirNode name entries =>
      match walkFn path dirs name true None tests with
      | (tests, Done) =>
          walkEntries
            (fun entry =>
               walk (Join path (nodeName entry)) inside
                 (inside ++ [nodeName entry])%list entry)
            entries tests
      | (tests, outcome) => (tests, outcome)
      end
  end.

(** [FindTests]: [abs] is what [filepath.Abs(rootDir)] returns, the path
    or an error, and [root] what is found there.  The result is the pair
    that the Go function returns. *)
Definition FindTests (rootDir : string) (abs : string + string) (root : Node)
  : list TestInfo * option string :=
  match abs with
  | inr err =>
      ([], Some ("could not get absolute path for rootDir " ++ rootDir ++ ": " ++ err))
  | inl absRootDir =>
      match walk absRootDir [] [] root [] with
      | (_, Failed err) =>
          ([], Some ("error walking directory " ++ quote rootDir ++ ": " ++ err))
      | (tests, SkipDir) | (tests, Done) => (tests, None)
      end
  end.

End Walk.

End finder.

(** ** package tui: the report's summary *)

Module report_model.

Import parser.

(** What the first loop of [ReportModel.SetContent] computes: the local
    [overallPackageStatus], which becomes [m.overallStatus], and the
    counters of the model.  The counters are Go ints that count elements
    of slices in memory, fewer than 2^63; [totalDuration] is a
    [time.Duration], an int64 that wraps around. *)
Record Tally : Type := mkTally {
  overallPackageStatus : TestStatus;
  totalDuration : Z;
  totalTests : Z;
  passedCount : Z;
  failedCount : Z;
  skippedCount : Z
}.

(** int64 addition *)
Definition wrap64 (z : Z) : Z := ((z + 2 ^ 63) mod 2 ^ 64 - 2 ^ 63)%Z.

(** [SetContent], the body of [for _, test := range pkgResult.Tests] *)
Definition countTest (m : Tally) (test : TestResult.t) : Tally :=
  let total := (totalTests m + 1)%Z in
  match TestResult.Status test with
  | StatusPass =>
      mkTally (overallPackageStatus m) (totalDuration m) total
        (passedCount m + 1) (failedCount m) (skippedCount m)
  | StatusFail =>
      mkTally
        (if bool_decide (overallPackageStatus m ≠ StatusFail) then StatusFail
         else overallPackageStatus m)
        (totalDuration m) total (passedCount m) (failedCount m + 1) (skippedCount m)
  | StatusSkip =>
      mkTally (overallPackageStatus m) (totalDuration m) total
        (passedCount m) (failedCount m) (skippedCount m + 1)
  | StatusRunning | StatusUnknown | StatusZero =>
      mkTally (overallPackageStatus m) (totalDuration m) total
        (passedCount m) (failedCount m) (skippedCount m + 1)
  end.

(** [SetContent], the body of [for _, pkgResult := range results] *)
Definition countPackage (m : Tally) (pkgResult : PackageResult.t) : Tally :=
  let m :=
    mkTally (overallPackageStatus m)
      (wrap64 (totalDuration m + PackageResult.Duration pkgResult))
      (totalTests m) (passedCount m) (failedCount m) (skippedCount m) in
  let m := fold_left countTest (PackageResult.Tests pkgResult) m in
  let overall :=
    if bool_decide (PackageResult.Status pkgResult = StatusFail)
       && bool_decide (overallPackageStatus m ≠ StatusFail)
    then StatusFail
    else if bool_decide (PackageResult.Status pkgResult = StatusSkip)
            && bool_decide (overallPackageStatus m = StatusPass)
    then StatusSkip
    else overallPackageStatus m in
  mkTally overall (totalDuration m) (totalTests m) (passedCount m) (failedCount m)
    (skippedCount m).

(** [SetContent], lines 147-192 of the report model: the counters are
    reset, the status starts as PASS, as SKIP when there is no result. *)
Definition tally (results : list PackageResult.t) : Tally :=
  fold_left countPackage results
    (mkTally (if bool_decide (length results = 0) then StatusSkip else StatusPass) 0 0 0 0 0).

(** [SetContent], the [switch runCfg.Type] that sets [m.testRunScope] *)
Definition testRunScope (runCfg : runner.TestRunConfig) : string :=
  if bool_decide (runner.Type_ runCfg = runner.AllTests) then "All Project Tests"
  else if bool_decide (runner.Type_ runCfg = runner.PackageTests)
  then "Package: " ++ runner.PackagePath runCfg
  else if bool_decide (runner.Type_ runCfg = runner.SingleTest)
  then "Test: " ++ runner.TestName runCfg ++ " (in " ++ runner.PackagePath runCfg ++ ")"
  else "Unknown Test Scope".

End report_model.

(** ** package tui: the messages and [MainModel.Update] *)

Module main_model.

Import parser.

(** [type appState int] *)
Inductive appState : Type :=
| stateInitializing
| stateTestList
| stateRunningTests
| stateReportView
| stateError.

#[global] Instance appState_eq_dec : EqDecision appState.
Proof. solve_decision. Defined.

(** A channel of the runner, by its identity. *)
Definition Chan : Type := nat.

(** The messages ([tea.Msg]) that [Update] tells apart.  [KeyMsg] holds
    what [msg.String()] returns; [OtherMsg] is a message of any other
    type. *)
Inductive Msg : Type :=
| WindowSizeMsg (Width Height : Z)
| KeyMsg (key : string)
| SpinnerTickMsg
| testsFoundMsg (items : list finder.TestInfo)
| testsLoadFailedMsg (err : string)
| triggerRunAllTestsMsg
| triggerRunPackageTestsMsg
| triggerRunSelectedTestMsg
| StreamMsg (Stream : Chan)
| TestOutputLineMsg (Line : string)
| TestRunCompleteMsg (Err : option string)
| displayReportMsg (parsedResults : list PackageResult.t) (runConfig : runner.TestRunConfig)
| backToListMsg
| errorMsg (err : string)
| OtherMsg.

(** The commands ([tea.Cmd]) that [Update] and the models of the two
    views return.  [Send msg] is a function that returns [msg];
    [DisplayReport] is the function that [updateOnTestsComplete]
    returns; [SpinnerUpdate], [ListSetItems], [ListUpdate] and
    [ViewportUpdate] stand for what the components of the bubbles
    library return, nil or not. *)
Inductive Cmd : Type :=
| Quit
| SpinnerTick
| SpinnerUpdate
| ListSetItems
| ListUpdate
| ViewportUpdate
| Send (msg : Msg)
| ExecuteTestsCmd (config : runner.TestRunConfig)
| WaitForStreamMsgCmd (stream : Chan)
| DisplayReport (parsedData : list PackageResult.t).

(** [ReportModel], the fields that [SetContent] and [Reset] set. *)
Record ReportModel : Type := mkReportModel {
  testRunScope : string;
  overallStatus : TestStatus;
  totalDuration : Z;
  totalTests : Z;
  passedCount : Z;
  failedCount : Z;
  skippedCount : Z
}.

(** [NewReportModel]: every field has its zero value. *)
Definition NewReportModel : ReportModel := mkReportModel "" StatusZero 0 0 0 0 0.

(** [ReportModel.SetContent]; the command it returns is nil. *)
Definition SetContent (results : list PackageResult.t) (runCfg : runner.TestRunConfig)
  : ReportModel :=
  let m := report_model.tally results in
  mkReportModel (report_model.testRunScope runCfg) (report_model.overallPackageStatus m)
    (report_model.totalDuration m) (report_model.totalTests m) (report_model.passedCount m)
    (report_model.failedCount m) (report_model.skippedCount m).

(** [ReportModel.Reset] *)
Definition Reset : ReportModel := mkReportModel "" StatusUnknown 0 0 0 0 0.

(** [ReportModel.HelpView], with the keys of [DefaultReportKeyMap] *)
Definition HelpView : string := "esc/q/b → back to list, ↑/↓/k/j/pgup/pgdn → scroll".

(** [ReportModel.Update]: the command; [None] is nil. *)
Definition ReportModel_Update (msg : Msg) : option Cmd :=
  match msg with
  | WindowSizeMsg _ _ => None
  | KeyMsg key =>
      if bool_decide (key = "esc") || bool_decide (key = "q") || bool_decide (key = "b")
      then Some (Send backToListMsg) else Some ViewportUpdate
  | _ => Some ViewportUpdate
  end.

(** What [Update] reads and does not own: whether the list is being
    filtered ([FilterState() == list.Filtering]), the selected item of
    the list if there is one, and the directory that [os.Getwd] returns
    (empty when it fails). *)
Record Env : Type := mkEnv {
  filtering : bool;
  selected : option finder.TestInfo;
  getwd : string
}.

(** [ListModel.Update]: the command; the keys are those of
    [DefaultListKeyMap]. *)
Definition ListModel_Update (env : Env) (msg : Msg) : option Cmd :=
  match msg with
  | WindowSizeMsg _ _ => None
  | KeyMsg key =>
      if filtering env then Some ListUpdate
      else if bool_decide (key = "enter") then
        match selected env with
        | Some _ => Some (Send triggerRunSelectedTestMsg)
        | None => Some ListUpdate
        end
      else if bool_decide (key = "p") then
        match selected env with
        | Some _ => Some (Send triggerRunPackageTestsMsg)
        | None => Some ListUpdate
        end
      else if bool_decide (key = "a") then Some (Send triggerRunAllTestsMsg)
      else Some ListUpdate
  | _ => Some ListUpdate
  end.

(** [MainModel], without the models of the list and the spinner, the
    styles and the logger. *)
Record MainModel : Type := mkMainModel {
  state : appState;
  fatalErr : option string;
  reportModel : ReportModel;
  width : Z;
  height : Z;
  currentTestRunConfig : option runner.TestRunConfig;
  accumulatedJSONOutput : string;
  testOutputChan : option Chan;
  statusMessage : string
}.

Definition with_state (s : appState) (m : MainModel) : MainModel :=
  mkMainModel s (fatalErr m) (reportModel m) (width m) (height m) (currentTestRunConfig m)
    (accumulatedJSONOutput m) (testOutputChan m) (statusMessage m).
Definition with_fatalErr (e : option string) (m : MainModel) : MainModel :=
  mkMainModel (state m) e (reportModel m) (width m) (height m) (currentTestRunConfig m)
    (accumulatedJSONOutput m) (testOutputChan m) (statusMessage m).
Definition with_reportModel (r : ReportModel) (m : MainModel) : MainModel :=
  mkMainModel (state m) (fatalErr m) r (width m) (height m) (currentTestRunConfig m)
    (accumulatedJSONOutput m) (testOutputChan m) (statusMessage m).
Definition with_size (w h : Z) (m : MainModel) : MainModel :=
  mkMainModel (state m) (fatalErr m) (reportModel m) w h (currentTestRunConfig m)
    (accumulatedJSONOutput m) (testOutputChan m) (statusMessage m).
Definition with_currentTestRunConfig (c : option runner.TestRunConfig) (m : MainModel)
  : MainModel :=
  mkMainModel (state m) (fatalErr m) (reportModel m) (width m) (height m) c
    (accumulatedJSONOutput m) (testOutputChan m) (statusMessage m).
Definition with_accumulatedJSONOutput (b : string) (m : MainModel) : MainModel :=
  mkMainModel (state m) (fatalErr m) (reportModel m) (width m) (height m)
    (currentTestRunConfig m) b (testOutputChan m) (statusMessage m).
Definition with_testOutputChan (c : option Chan) (m : MainModel) : MainModel :=
  mkMainModel (state m) (fatalErr m) (reportModel m) (width m) (height m)
    (currentTestRunConfig m) (accumulatedJSONOutput m) c (statusMessage m).
Definition with_statusMessage (s : string) (m : MainModel) : MainModel :=
  mkMainModel (state m) (fatalErr m) (reportModel m) (width m) (height m)
    (currentTestRunConfig m) (accumulatedJSONOutput m) (testOutputChan m) s.

(** [NewMainModel] *)
Definition NewMainModel : MainModel :=
  mkMainModel stateInitializing None NewReportModel 0 0 None "" None "Initializing...".

(** [updateOnInit]: the message for what [finder.FindTests(".")]
    returned. *)
Definition updateOnInit (found : list finder.TestInfo * option string) : Msg :=
  match found with
  | (_, Some err) => testsLoadFailedMsg ("test discovery failed: " ++ err)
  | (foundTests, None) => testsFoundMsg foundTests
  end.

(** [updateOnResize], the fields of the model itself *)
Definition updateOnResize (m : MainModel) (Width Height : Z) : MainModel :=
  with_size Width Height m.

(** [updateOnRunTests]: the model and the command, [None] when the
    function returns an error. *)
Definition updateOnRunTests (env : Env) (m : MainModel) (msg : Msg)
  : MainModel * option Cmd :=
  if bool_decide (state m = stateRunningTests) then (m, None)
  else
    let start (m : MainModel) (runCfg : runner.TestRunConfig) :=
      (with_testOutputChan None
         (with_accumulatedJSONOutput "" (with_state stateRunningTests m)),
       Some (ExecuteTestsCmd runCfg)) in
    match msg with
    | triggerRunAllTestsMsg =>
        let runCfg := runner.mkConfig runner.AllTests "" "" (getwd env) in
        start
          (with_statusMessage "Running all project tests..."
             (with_currentTestRunConfig
                (Some (runner.mkConfig runner.AllTests "./..." "" (getwd env))) m))
          runCfg
    | triggerRunPackageTestsMsg =>
        match selected env with
        | None => (with_statusMessage "Error: Could not determine selected package." m, None)
        | Some selectedItem =>
            let runCfg :=
              runner.mkConfig runner.PackageTests ("./" ++ finder.PackageDir selectedItem) ""
                (getwd env) in
            start
              (with_statusMessage
                 ("Running tests for package " ++ finder.PackageName selectedItem ++ "...")
                 (with_currentTestRunConfig (Some runCfg) m))
              runCfg
        end
    | triggerRunSelectedTestMsg =>
        match selected env with
        | None => (with_statusMessage "Error: Could not determine selected test." m, None)
        | Some selectedItem =>
            let runCfg :=
              runner.mkConfig runner.SingleTest ("./" ++ finder.PackageDir selectedItem)
                (finder.Name selectedItem) (getwd env) in
            start
              (with_statusMessage ("Running test " ++ finder.Name selectedItem ++ "...")
                 (with_currentTestRunConfig (Some runCfg) m))
              runCfg
        end
    | _ => start m (runner.mkConfig runner.SingleTest "" "" (getwd env))
    end.

(** [routeByState]: the message goes to the model of the view that is
    shown, whose command joins [cmds]. *)
Definition routeByState (env : Env) (m : MainModel) (msg : Msg) (cmds : list Cmd)
  : MainModel * list Cmd :=
  match state m with
  | stateTestList => (m, (cmds ++ option_list (ListModel_Update env msg))%list)
  | stateReportView => (m, (cmds ++ option_list (ReportModel_Update msg))%list)
  | stateInitializing | stateRunningTests | stateError => (m, cmds)
  end.

Section Update.

Context `{GoRuntime}.

(** [bufio.Scanner] and [json.Unmarshal] on the accumulated bytes, as
    for [tui.updateOnTestsComplete]. *)
Variable scan : string -> list Line * option string.

(** [updateOnTestsComplete]: the model and the data of the command. *)
Definition updateOnTestsComplete (m : MainModel) (err : option string)
  : MainModel * list PackageResult.t :=
  let m := with_testOutputChan None m in
  let parsedData := tui.updateOnTestsComplete scan (accumulatedJSONOutput m) err in
  let m :=
    match currentTestRunConfig m with
    | Some _ => m
    | None =>
        with_currentTestRunConfig (Some (runner.mkConfig runner.AllTests "./..." "" ".")) m
    end in
  (m, parsedData).

(** The message that the command of [updateOnTestsComplete] returns when
    it runs: it reads the model's configuration then. *)
Definition displayReport (m : MainModel) (parsedData : list PackageResult.t) : option Msg :=
  match currentTestRunConfig m with
  | Some runConfig => Some (displayReportMsg parsedData runConfig)
  | None => None
  end.

(** [MainModel.Update]: the model and the commands handed to
    [tea.Batch], [[]] where [Update] returns nil. *)
Definition Update (env : Env) (m : MainModel) (msg : Msg) : MainModel * list Cmd :=
  match msg with
  | WindowSizeMsg Width Height => (updateOnResize m Width Height, [])
  | KeyMsg key =>
      if bool_decide (key = "ctrl+c") then (m, [Quit])
      else if bool_decide (key = "q") && bool_decide (state m = stateTestList)
              && negb (filtering env)
      then (m, [Quit])
      else if bool_decide (state m = stateError) && negb (bool_decide (key = ""))
      then (m, [Quit])
      else routeByState env m msg []
  | SpinnerTickMsg =>
      if bool_decide (state m = stateInitializing) || bool_decide (state m = stateRunningTests)
      then routeByState env m msg [SpinnerUpdate]
      else routeByState env m msg []
  | testsFoundMsg items =>
      let m := with_state stateTestList m in
      let m :=
        with_statusMessage
          (if bool_decide (length items = 0)
           then "No tests found. Press 'q' to quit or Ctrl+C."
           else "Select a test or action (a: all, p: package, enter: selected). Press '/' to filter.")
          m in
      (m, [ListSetItems])
  | testsLoadFailedMsg err =>
      (with_statusMessage ("Error: " ++ err ++ ". Press any key to quit.")
         (with_state stateError (with_fatalErr (Some err) m)), [])
  | triggerRunAllTestsMsg | triggerRunPackageTestsMsg | triggerRunSelectedTestMsg =>
      match updateOnRunTests env m msg with
      | (m, None) => (m, [])
      | (m, Some runCmd) => (m, [runCmd; SpinnerTick])
      end
  | StreamMsg Stream =>
      routeByState env (with_testOutputChan (Some Stream) m) msg [WaitForStreamMsgCmd Stream]
  | TestOutputLineMsg Line =>
      let m :=
        with_accumulatedJSONOutput (tui.onTestOutputLine (accumulatedJSONOutput m) Line) m in
      match testOutputChan m with
      | Some stream => routeByState env m msg [WaitForStreamMsgCmd stream]
      | None => routeByState env m msg []
      end
  | TestRunCompleteMsg Err =>
      let '(m, parsedData) := updateOnTestsComplete m Err in
      routeByState env m msg [DisplayReport parsedData]
  | displayReportMsg parsedResults runConfig =>
      let m := with_state stateReportView m in
      let m := with_reportModel (SetContent parsedResults runConfig) m in
      (with_statusMessage HelpView m, [])
  | backToListMsg =>
      let m := with_state stateTestList m in
      let m := with_reportModel Reset m in
      (with_statusMessage "Select a test or action (a: all, p: package, enter: selected)." m, [])
  | errorMsg err => routeByState env (with_statusMessage ("Error: " ++ err) m) msg []
  | OtherMsg => routeByState env m msg []
  end.

End Update.

End main_model.

(** * Properties of [parser.Parse] *)

Module ParseProofs.

Import gostrings parser.

(** *** A runtime to evaluate with: maps visited in the order of
    [map_to_list], insertion sort, and the amd64 conversion. *)

Fixpoint insertSorted (x : TestResult.t) (l : list TestResult.t) : list TestResult.t :=
  match l with
  | [] => [x]
  | y :: l' => if less y x then y :: insertSorted x l' else x :: l
  end.

Fixpoint insertionSort (l : list TestResult.t) : list TestResult.t :=
  match l with
  | [] => []
  | x :: l' => insertSorted x (insertionSort l')
  end.

(** Go on amd64: a float64 outside the int64 range converts to the
    smallest int64. *)
Definition amd64Overflow (_ : float) : Z := int64_min.

(** *** The order of test names *)

Lemma ltb_asym (a b : string) : String.ltb a b = true -> String.ltb b a = false.
Proof.
  unfold String.ltb. rewrite (String.compare_antisym a b).
  destruct (String.compare b a); simpl; congruence.
Qed.

Lemma ltb_irrefl (a : string) : String.ltb a a = false.
Proof.
  destruct (String.ltb a a) eqn:E; [|reflexivity].
  pose proof (ltb_asym _ _ E). congruence.
Qed.

Lemma ltb_trans (a b c : string) :
  String.ltb a b = true -> String.ltb b c = true -> String.ltb a c = true.
Proof.
  unfold String.ltb.
  destruct (String.compare a b) eqn:Eab; try discriminate.
  destruct (String.compare b c) eqn:Ebc; try discriminate.
  intros _ _.
  apply OrderedTypeEx.String_as_OT.cmp_lt in Eab, Ebc.
  pose proof (OrderedTypeEx.String_as_OT.lt_trans _ _ _ Eab Ebc) as H.
  apply OrderedTypeEx.String_as_OT.cmp_lt in H.
  unfold OrderedTypeEx.String_as_OT.cmp in H. by rewrite H.
Qed.

Lemma ltb_false_cases (a b : string) :
  String.ltb b a = false -> a = b \/ String.ltb a b = true.
Proof.
  unfold String.ltb. rewrite (String.compare_antisym b a).
  destruct (String.compare a b) eqn:E; simpl; try discriminate; intros _.
  - left. by apply String.compare_eq_iff.
  - by right.
Qed.

Lemma byName_refl (a : TestResult.t) : byName a a.
Proof. apply ltb_irrefl. Qed.

Lemma byName_trans (a b c : TestResult.t) : byName a b -> byName b c -> byName a c.
Proof.
  unfold byName, less. intros Hab Hbc.
  destruct (ltb_false_cases _ _ Hab) as [Eab|Lab], (ltb_false_cases _ _ Hbc) as [Ebc|Lbc].
  - rewrite Eab, Ebc. apply ltb_irrefl.
  - rewrite Eab. by apply ltb_asym.
  - rewrite <- Ebc. by apply ltb_asym.
  - apply ltb_asym. eapply ltb_trans; eassumption.
Qed.

Lemma byName_total (a b : TestResult.t) : less a b = false -> byName b a.
Proof. done. Qed.

Lemma less_byName (a b : TestResult.t) : less a b = true -> byName a b.
Proof. apply ltb_asym. Qed.

Lemma insertSorted_perm (x : TestResult.t) (l : list TestResult.t) :
  Permutation (insertSorted x l) (x :: l).
Proof.
  induction l as [|y l IH]; simpl; [done|].
  destruct (less y x); [|done].
  rewrite IH. apply perm_swap.
Qed.

Lemma insertionSort_perm (l : list TestResult.t) : Permutation (insertionSort l) l.
Proof.
  induction l as [|x l IH]; simpl; [done|].
  rewrite insertSorted_perm. by constructor.
Qed.

Lemma insertSorted_sorted (x : TestResult.t) (l : list TestResult.t) :
  StronglySorted byName l -> StronglySorted byName (insertSorted x l).
Proof.
  induction l as [|y l IH]; simpl; intros Hs.
  - constructor; [constructor|done].
  - inversion Hs as [|? ? Hl Hy]; subst.
    destruct (less y x) eqn:E.
    + constructor; [by apply IH|].
      rewrite insertSorted_perm. constructor; [by apply less_byName|done].
    + constructor; [done|].
      constructor; [done|].
      eapply Forall_impl; [exact Hy|].
      intros z Hz. by apply byName_trans with y.
Qed.

Lemma insertionSort_sorted (l : list TestResult.t) : StronglySorted byName (insertionSort l).
Proof.
  induction l as [|x l IH]; simpl; [constructor|]. by apply insertSorted_sorted.
Qed.

Definition stableRuntime : GoRuntime := {|
  mapRange := fun _ l => l;
  mapRange_perm := fun _ l => Permutation_refl l;
  sortSlice := insertionSort;
  sortSlice_perm := insertionSort_perm;
  sortSlice_sorted := insertionSort_sorted;
  convOverflow := amd64Overflow
|}.

Definition ev (action pkg test : string) (elapsed : float) (output : string) : Line :=
  EventLine (TestEvent.mk action pkg test elapsed output).

(** *** The sweep when a package finishes, in closed form *)

Definition markUnreported (t : TestResult.t) : TestResult.t :=
  TestResult.with_Output
    (TestResult.Output t ++ ["Test did not report completion before package finished."])
    (TestResult.with_Status StatusFail t).

Definition ofPackage (pkg : string) (entries : list (string * TestResult.t))
  : list (string * TestResult.t) :=
  filter (fun e => TestResult.PackageName e.2 = pkg) entries.

Definition sweptPackage (pkg : string) (pkgResult : PackageResult.t)
    (entries : list (string * TestResult.t)) : PackageResult.t :=
  match ofPackage pkg entries with
  | [] => pkgResult
  | swept =>
      PackageResult.mk (PackageResult.PackageName pkgResult)
        (if bool_decide (PackageResult.Status pkgResult = StatusPass)
         then StatusFail else PackageResult.Status pkgResult)
        (PackageResult.SummaryOutput pkgResult)
        (PackageResult.Tests pkgResult ++ map (fun e => markUnreported e.2) swept)
        (PackageResult.Duration pkgResult)
  end.

Lemma sweep_fold (pkg : string) (entries : list (string * TestResult.t))
    (pkgResult : PackageResult.t) (current : gmap string TestResult.t) :
  fold_left (sweepOne pkg) entries (pkgResult, current) =
  (sweptPackage pkg pkgResult entries,
   fold_left (fun c e => delete e.1 c) (ofPackage pkg entries) current).
Proof.
  revert pkgResult current.
  induction entries as [|[key t] entries IH]; intros pkgResult current; [done|].
  cbn [fold_left]. unfold sweepOne at 2.
  unfold sweptPackage, ofPackage. rewrite filter_cons. cbn [snd].
  case_bool_decide as Hpkg.
  - rewrite decide_True by done. rewrite IH. f_equal.
    unfold sweptPackage, ofPackage.
    destruct pkgResult as [name status summary tests duration]. cbn.
    destruct (filter _ entries) as [|e swept] eqn:Hf;
      cbn; repeat case_bool_decide; simplify_eq/=; rewrite <- ?app_assoc; reflexivity.
  - rewrite decide_False by done. by rewrite IH.
Qed.

Lemma lookup_fold_delete (l : list (string * TestResult.t))
    (current : gmap string TestResult.t) (k : string) :
  fold_left (fun c e => delete e.1 c) l current !! k =
  if decide (k ∈ l.*1) then None else current !! k.
Proof.
  revert current. induction l as [|[key t] l IH]; intros current; cbn; [done|].
  rewrite IH. destruct (decide (k = key)) as [->|Hne].
  - rewrite lookup_delete_eq. rewrite (decide_True (P := key ∈ key :: l.*1)) by left.
    by destruct (decide _).
  - rewrite lookup_delete_ne by done.
    destruct (decide (k ∈ l.*1)) as [Hin|Hin].
    + rewrite decide_True by (by right). done.
    + rewrite decide_False; [done|]. by intros [?|?]%elem_of_cons.
Qed.

(** The tests still tracked after the sweep are those of other packages. *)
Lemma sweep_current (pkg : string) (entries : list (string * TestResult.t))
    (current : gmap string TestResult.t) :
  Permutation entries (map_to_list current) ->
  fold_left (fun c e => delete e.1 c) (ofPackage pkg entries) current =
  filter (fun kv => TestResult.PackageName kv.2 ≠ pkg) current.
Proof.
  intros Hperm. apply map_eq. intros k.
  rewrite lookup_fold_delete.
  destruct (current !! k) as [t|] eqn:Hk.
  - destruct (decide (TestResult.PackageName t = pkg)) as [Hp|Hp].
    + rewrite decide_True.
      * symmetry. apply map_lookup_filter_None. right. intros t' Ht'. cbn.
        assert (t' = t) as -> by congruence. tauto.
      * apply list_elem_of_fmap. exists (k, t). split; [done|].
        unfold ofPackage. apply list_elem_of_filter. split; [done|].
        rewrite Hperm. by apply elem_of_map_to_list.
    + rewrite decide_False.
      * symmetry. by apply map_lookup_filter_Some.
      * intros [[k' t'] [Hk' Hin]]%list_elem_of_fmap. cbn in Hk'. subst k'.
        unfold ofPackage in Hin. apply list_elem_of_filter in Hin as [Hpkg Hin].
        rewrite Hperm in Hin. apply elem_of_map_to_list in Hin. cbn in Hpkg. congruence.
  - destruct (decide _); symmetry; apply map_lookup_filter_None; by left.
Qed.

Lemma sweepPackage_eq `{GoRuntime} (n : nat) (pkg : string)
    (pkgResult : PackageResult.t) (current : gmap string TestResult.t) :
  sweepPackage n pkg pkgResult current =
  (sweptPackage pkg pkgResult (mapRange n (map_to_list current)),
   filter (fun kv => TestResult.PackageName kv.2 ≠ pkg) current).
Proof.
  unfold sweepPackage. rewrite sweep_fold. f_equal.
  apply sweep_current, mapRange_perm.
Qed.

(** *** The sweep after the loop, in closed form *)

Definition markIncomplete (t : TestResult.t) : TestResult.t :=
  TestResult.with_Output
    (TestResult.Output t ++
     ["Test did not complete (process might have crashed, timed out, or was terminated)."])
    (TestResult.with_Status StatusFail t).

Definition runningOf (pkg : string) (entries : list (string * TestResult.t))
  : list (string * TestResult.t) :=
  filter (fun e => TestResult.Status e.2 = StatusRunning ∧ TestResult.PackageName e.2 = pkg)
    entries.

Definition finishedPackage (pkg : string) (pkgResult : PackageResult.t)
    (entries : list (string * TestResult.t)) : PackageResult.t :=
  match runningOf pkg entries with
  | [] => pkgResult
  | swept =>
      PackageResult.mk (PackageResult.PackageName pkgResult) StatusFail
        (PackageResult.SummaryOutput pkgResult)
        (PackageResult.Tests pkgResult ++ map (fun e => markIncomplete e.2) swept)
        (PackageResult.Duration pkgResult)
  end.

Lemma finish_fold (entries : list (string * TestResult.t))
    (pkgs : gmap string PackageResult.t) (pkg : string) :
  fold_left finishOne entries pkgs !! pkg =
  (fun pkgResult => finishedPackage pkg pkgResult entries) <$> pkgs !! pkg.
Proof.
  revert pkgs. induction entries as [|[key t] entries IH]; intros pkgs.
  { cbn. by destruct (pkgs !! pkg). }
  cbn [fold_left]. rewrite IH. unfold finishOne, finishedPackage, runningOf.
  rewrite filter_cons. cbn [snd].
  case_bool_decide as Hrun.
  - cbn [TestResult.PackageName TestResult.with_Output TestResult.with_Status].
    destruct (pkgs !! TestResult.PackageName t) as [p0|] eqn:Hp0.
    + destruct (decide (TestResult.PackageName t = pkg)) as [<-|Hne].
      * rewrite lookup_insert_eq, Hp0. rewrite decide_True by done. cbn.
        f_equal. destruct p0 as [name status summary tests duration]. cbn.
        destruct (filter _ entries);
          case_bool_decide; simplify_eq/=; rewrite <- ?app_assoc; reflexivity.
      * rewrite lookup_insert_ne by done.
        rewrite decide_False by tauto. done.
    + destruct (decide (TestResult.PackageName t = pkg)) as [<-|Hne].
      * by rewrite Hp0.
      * rewrite decide_False by tauto. done.
  - rewrite decide_False by tauto. done.
Qed.

Lemma sweepAtEnd_lookup `{GoRuntime} (st : State) (pkg : string) :
  sweepAtEnd st !! pkg =
  (fun pkgResult =>
     finishedPackage pkg pkgResult (mapRange 0 (map_to_list (currentTestResults st))))
    <$> packageResults st !! pkg.
Proof. apply finish_fold. Qed.

(** *** The loop body by cases *)

Definition isDone (action : string) : Prop :=
  action = "pass" ∨ action = "fail" ∨ action = "skip".

(** [Ensured st event st' event' pkgResult]: lines 450-471 leave the
    state [st'], the event [event'] and the pointer [pkgResult]. *)
Inductive Ensured (st : State) (event : TestEvent.t)
  : State -> TestEvent.t -> PackageResult.t -> Prop :=
| Ensured_known pkgResult :
    packageResults st !! TestEvent.Package event = Some pkgResult ->
    Ensured st event st event pkgResult
| Ensured_orphan :
    packageResults st !! TestEvent.Package event = None ->
    TestEvent.Package event = "" -> TestEvent.Test event = "" ->
    TestEvent.Action event = "output" ->
    Ensured st event
      (createPackage st (TestEvent.with_Package orphanedOutputPackage event)).1.1
      (TestEvent.with_Package orphanedOutputPackage event)
      (newPackage orphanedOutputPackage)
| Ensured_new :
    packageResults st !! TestEvent.Package event = None ->
    TestEvent.Package event ≠ "" ->
    Ensured st event (createPackage st event).1.1 event
      (newPackage (TestEvent.Package event)).

Lemma ensurePackage_cases (st : State) (event : TestEvent.t) :
  match ensurePackage st event with
  | Some (st', event', pkgResult) => Ensured st event st' event' pkgResult
  | None =>
      packageResults st !! TestEvent.Package event = None ∧ TestEvent.Package event = ""
      ∧ ¬ (TestEvent.Test event = "" ∧ TestEvent.Action event = "output")
  end.
Proof.
  unfold ensurePackage.
  destruct (packageResults st !! TestEvent.Package event) as [p|] eqn:Hp.
  { by constructor. }
  repeat case_bool_decide; cbn [andb].
  all: try (by apply Ensured_orphan).
  all: try (by apply Ensured_new).
  all: tauto.
Qed.

(** [Dispatch st event pkgResult st']: the [switch] of lines 478-611 takes
    [st] to [st'], [pkgResult] being [packageResults[event.Package]]. *)
Inductive Dispatch `{GoRuntime} (st : State) (event : TestEvent.t) (pkgResult : PackageResult.t)
  : State -> Prop :=
| Dispatch_run_package :
    TestEvent.Action event = "run" -> TestEvent.Test event = "" ->
    Dispatch st event pkgResult
      (storePackage (TestEvent.Package event)
         (PackageResult.with_Status StatusRunning pkgResult) st)
| Dispatch_run_test :
    TestEvent.Action event = "run" -> TestEvent.Test event ≠ "" ->
    Dispatch st event pkgResult
      (with_currentTestResults
         (<[TestEvent.Package event ++ "/" ++ TestEvent.Test event :=
              TestResult.mk (TestEvent.Package event) (TestEvent.Test event) StatusRunning [] 0]>
            (currentTestResults st)) st)
| Dispatch_output_package :
    TestEvent.Action event = "output" -> TestEvent.Test event = "" ->
    Dispatch st event pkgResult
      (storePackage (TestEvent.Package event)
         (PackageResult.with_SummaryOutput
            (PackageResult.SummaryOutput pkgResult ++ [TrimRightNewlines (TestEvent.Output event)])
            pkgResult) st)
| Dispatch_output_running tr :
    TestEvent.Action event = "output" -> TestEvent.Test event ≠ "" ->
    currentTestResults st !! (TestEvent.Package event ++ "/" ++ TestEvent.Test event) = Some tr ->
    Dispatch st event pkgResult
      (with_currentTestResults
         (<[TestEvent.Package event ++ "/" ++ TestEvent.Test event :=
              TestResult.with_Output
                (TestResult.Output tr ++ [TrimRightNewlines (TestEvent.Output event)]) tr]>
            (currentTestResults st)) st)
| Dispatch_output_completed tests :
    TestEvent.Action event = "output" -> TestEvent.Test event ≠ "" ->
    currentTestResults st !! (TestEvent.Package event ++ "/" ++ TestEvent.Test event) = None ->
    appendToCompleted (PackageResult.Tests pkgResult) (TestEvent.Test event)
      (TrimRightNewlines (TestEvent.Output event)) = Some tests ->
    Dispatch st event pkgResult
      (storePackage (TestEvent.Package event) (PackageResult.with_Tests tests pkgResult) st)
| Dispatch_output_unknown :
    TestEvent.Action event = "output" -> TestEvent.Test event ≠ "" ->
    currentTestResults st !! (TestEvent.Package event ++ "/" ++ TestEvent.Test event) = None ->
    appendToCompleted (PackageResult.Tests pkgResult) (TestEvent.Test event)
      (TrimRightNewlines (TestEvent.Output event)) = None ->
    Dispatch st event pkgResult
      (storePackage (TestEvent.Package event)
         (PackageResult.with_SummaryOutput
            (PackageResult.SummaryOutput pkgResult ++
             ["[" ++ TestEvent.Test event ++ "] " ++ TrimRightNewlines (TestEvent.Output event)])
            pkgResult) st)
| Dispatch_test_done_running tr :
    isDone (TestEvent.Action event) -> TestEvent.Test event ≠ "" ->
    currentTestResults st !! (TestEvent.Package event ++ "/" ++ TestEvent.Test event) = Some tr ->
    Dispatch st event pkgResult
      (with_currentTestResults
         (delete (TestEvent.Package event ++ "/" ++ TestEvent.Test event) (currentTestResults st))
         (storePackage (TestEvent.Package event)
            (PackageResult.with_Tests
               (PackageResult.Tests pkgResult ++
                [TestResult.mk (TestResult.PackageName tr) (TestResult.Name tr)
                   (statusOfAction (TestEvent.Action event)) (TestResult.Output tr)
                   (durationOf (TestEvent.Elapsed event))])
               pkgResult) st))
| Dispatch_test_done_unknown :
    isDone (TestEvent.Action event) -> TestEvent.Test event ≠ "" ->
    currentTestResults st !! (TestEvent.Package event ++ "/" ++ TestEvent.Test event) = None ->
    Dispatch st event pkgResult
      (with_currentTestResults
         (delete (TestEvent.Package event ++ "/" ++ TestEvent.Test event) (currentTestResults st))
         (storePackage (TestEvent.Package event)
            (PackageResult.mk (PackageResult.PackageName pkgResult) (PackageResult.Status pkgResult)
               (moveTagged ("[" ++ TestEvent.Test event ++ "]")
                  (PackageResult.SummaryOutput pkgResult)).2
               (PackageResult.Tests pkgResult ++
                [TestResult.mk (TestEvent.Package event) (TestEvent.Test event)
                   (statusOfAction (TestEvent.Action event))
                   (moveTagged ("[" ++ TestEvent.Test event ++ "]")
                      (PackageResult.SummaryOutput pkgResult)).1
                   (durationOf (TestEvent.Elapsed event))])
               (PackageResult.Duration pkgResult)) st))
| Dispatch_package_done :
    isDone (TestEvent.Action event) -> TestEvent.Test event = "" ->
    Dispatch st event pkgResult
      (with_currentTestResults
         (filter (fun kv => TestResult.PackageName kv.2 ≠ TestEvent.Package event)
            (currentTestResults st))
         (storePackage (TestEvent.Package event)
            (placeholder event (statusOfAction (TestEvent.Action event))
               (sweptPackage (TestEvent.Package event)
                  (PackageResult.mk (PackageResult.PackageName pkgResult)
                     (statusOfAction (TestEvent.Action event))
                     (PackageResult.SummaryOutput pkgResult) (PackageResult.Tests pkgResult)
                     (durationOf (TestEvent.Elapsed event)))
                  (mapRange (lineNumber st) (map_to_list (currentTestResults st))))) st))
| Dispatch_other :
    TestEvent.Action event ≠ "run" -> TestEvent.Action event ≠ "output" ->
    ¬ isDone (TestEvent.Action event) ->
    Dispatch st event pkgResult st.

Lemma dispatch_cases `{GoRuntime} (st : State) (event : TestEvent.t)
    (pkgResult : PackageResult.t) :
  Dispatch st event pkgResult (dispatch st event pkgResult).
Proof.
  unfold dispatch.
  case_bool_decide as Hrun.
  { unfold onRun, testKeyOf. case_bool_decide; by constructor. }
  case_bool_decide as Hout.
  { unfold onOutput, testKeyOf. case_bool_decide as Ht; [by constructor|].
    destruct (currentTestResults st !! _) as [tr|] eqn:Hk; [by econstructor|].
    destruct (appendToCompleted _ _ _) as [tests|] eqn:Ha.
    - by apply Dispatch_output_completed.
    - by apply Dispatch_output_unknown. }
  destruct (bool_decide (_ = "pass") || bool_decide (_ = "fail") || bool_decide (_ = "skip"))
    eqn:Hdone.
  - assert (isDone (TestEvent.Action event)) as Hd.
    { unfold isDone. repeat case_bool_decide; cbn in Hdone; try done; auto. }
    clear Hdone. case_bool_decide as Ht.
    + unfold onPackageDone. rewrite sweepPackage_eq.
      exact (Dispatch_package_done st event pkgResult Hd Ht).
    + unfold onTestDone, testKeyOf. rewrite bool_decide_eq_false_2 by done.
      destruct (currentTestResults st !! _) as [tr|] eqn:Hk.
      * exact (Dispatch_test_done_running st event pkgResult tr Hd Ht Hk).
      * pose proof (Dispatch_test_done_unknown st event pkgResult Hd Ht Hk) as HD.
        destruct (moveTagged _ _) as [out kept] eqn:Hm. exact HD.
  - apply Dispatch_other; try done.
    unfold isDone. repeat case_bool_decide; cbn in Hdone; try done.
    by intros [?|[?|?]].
Qed.

(** [Step st line st']: one turn of the scanner loop. *)
Inductive Step `{GoRuntime} (st : State) : Line -> State -> Prop :=
| Step_empty : Step st EmptyLine (with_lineNumber (S (lineNumber st)) st)
| Step_bad raw :
    Step st (BadLine raw) (onBadLine (with_lineNumber (S (lineNumber st)) st) raw)
| Step_skipped event :
    packageResults st !! TestEvent.Package event = None ->
    TestEvent.Package event = "" ->
    ¬ (TestEvent.Test event = "" ∧ TestEvent.Action event = "output") ->
    Step st (EventLine event) (with_lineNumber (S (lineNumber st)) st)
| Step_event event st1 event' pkgResult st' :
    Ensured (with_lineNumber (S (lineNumber st)) st) event st1 event' pkgResult ->
    Dispatch st1 event' pkgResult st' ->
    Step st (EventLine event) st'.

Lemma processLine_cases `{GoRuntime} (st : State) (line : Line) :
  Step st line (processLine st line).
Proof.
  destruct line as [|raw|event]; cbn; [constructor|constructor|].
  unfold processEvent.
  pose proof (ensurePackage_cases (with_lineNumber (S (lineNumber st)) st) event) as He.
  destruct (ensurePackage _ event) as [[[st1 event'] p]|].
  - eapply Step_event; [exact He|apply dispatch_cases].
  - destruct He as (?&?&?). by apply Step_skipped.
Qed.

(** *** What holds of every state of the loop *)

Lemma containsString_spec (slice : list string) (str : string) :
  containsString slice str = true ↔ str ∈ slice.
Proof.
  induction slice as [|item rest IH]; cbn.
  - split; [done|]. by intros ?%elem_of_nil.
  - case_bool_decide as Heq.
    + subst. split; [intros _; left|done].
    + rewrite IH. split; [by right|]. by intros [?|?]%elem_of_cons.
Qed.

(** A tracked test is running, has no duration yet, sits under the key
    made of its package and name, and its package is known. *)
Definition tracked (pkgs : gmap string PackageResult.t) (key : string) (t : TestResult.t)
  : Prop :=
  TestResult.Status t = StatusRunning ∧ TestResult.Duration t = 0%Z
  ∧ key = TestResult.PackageName t ++ "/" ++ TestResult.Name t
  ∧ is_Some (pkgs !! TestResult.PackageName t).

Record Inv (st : State) : Prop := mkInv {
  inv_nodup : NoDup (orderedPackageNames st);
  inv_dom : forall name, name ∈ orderedPackageNames st ↔ is_Some (packageResults st !! name);
  inv_name : forall name p,
    packageResults st !! name = Some p -> PackageResult.PackageName p = name;
  inv_noempty : packageResults st !! "" = None;
  inv_current : forall key t,
    currentTestResults st !! key = Some t -> tracked (packageResults st) key t
}.

Lemma Inv_init : Inv initState.
Proof.
  split; cbn; try done.
  - constructor.
  - intros name. rewrite lookup_empty. split; [by intros ?%elem_of_nil|by intros [? ?]].
Qed.

Lemma tracked_insert (pkgs : gmap string PackageResult.t) (name : string)
    (p : PackageResult.t) (key : string) (t : TestResult.t) :
  tracked pkgs key t -> tracked (<[name := p]> pkgs) key t.
Proof.
  intros (?&?&?&Hs). repeat split; try done.
  destruct (decide (name = TestResult.PackageName t)) as [->|Hne].
  - rewrite lookup_insert_eq. by eexists.
  - by rewrite lookup_insert_ne.
Qed.

(** The state after [*pkgResult = p'] and a change of the tracked tests. *)
Lemma Inv_update (st : State) (name : string) (p' : PackageResult.t)
    (current : gmap string TestResult.t) (n : nat) :
  Inv st -> is_Some (packageResults st !! name) ->
  PackageResult.PackageName p' = name ->
  (forall key t, current !! key = Some t -> tracked (packageResults st) key t) ->
  Inv (mkState (<[name := p']> (packageResults st)) (orderedPackageNames st) current n).
Proof.
  intros [Hnd Hdom Hname Hne Hcur] Hsome Hp' Hcur'. split; cbn.
  - done.
  - intros k. rewrite Hdom. destruct (decide (name = k)) as [->|Hk].
    + rewrite lookup_insert_eq. split; [by eexists|done].
    + by rewrite lookup_insert_ne.
  - intros k p. destruct (decide (name = k)) as [->|Hk].
    + rewrite lookup_insert_eq. by intros [= <-].
    + rewrite lookup_insert_ne by done. apply Hname.
  - destruct (decide (name = "")) as [->|Hk].
    + rewrite Hne in Hsome. by destruct Hsome.
    + by rewrite lookup_insert_ne.
  - intros key t Ht. by apply tracked_insert, Hcur'.
Qed.

Lemma Inv_current (st : State) (current : gmap string TestResult.t) (n : nat) :
  Inv st ->
  (forall key t, current !! key = Some t -> tracked (packageResults st) key t) ->
  Inv (mkState (packageResults st) (orderedPackageNames st) current n).
Proof. intros [Hnd Hdom Hname Hne Hcur] Hcur'. by split. Qed.

Lemma Inv_create (st : State) (event : TestEvent.t) :
  Inv st -> packageResults st !! TestEvent.Package event = None ->
  TestEvent.Package event ≠ "" ->
  Inv (createPackage st event).1.1
  ∧ packageResults (createPackage st event).1.1 =
      <[TestEvent.Package event := newPackage (TestEvent.Package event)]> (packageResults st)
  ∧ orderedPackageNames (createPackage st event).1.1 =
      (orderedPackageNames st ++ [TestEvent.Package event])%list
  ∧ currentTestResults (createPackage st event).1.1 = currentTestResults st
  ∧ lineNumber (createPackage st event).1.1 = lineNumber st.
Proof.
  intros [Hnd Hdom Hname Hne Hcur] Hnone Hnonempty.
  assert (TestEvent.Package event ∉ orderedPackageNames st) as Hnotin.
  { rewrite Hdom, Hnone. by intros [? ?]. }
  unfold createPackage. cbn.
  destruct (containsString _ _) eqn:Hc.
  { apply containsString_spec in Hc. done. }
  cbn. split; [|done]. split; cbn.
  - apply NoDup_app. split; [done|]. split; [|apply NoDup_singleton].
    intros x Hx ->%list_elem_of_singleton. done.
  - intros k. rewrite elem_of_app, list_elem_of_singleton, Hdom.
    destruct (decide (TestEvent.Package event = k)) as [->|Hk].
    + rewrite lookup_insert_eq. split; [by eexists|by right].
    + rewrite lookup_insert_ne by done. split; [by intros [?|?]|by left].
  - intros k p. destruct (decide (TestEvent.Package event = k)) as [->|Hk].
    + rewrite lookup_insert_eq. by intros [= <-].
    + rewrite lookup_insert_ne by done. apply Hname.
  - by rewrite lookup_insert_ne.
  - intros key t Ht. by apply tracked_insert, Hcur.
Qed.

Lemma Ensured_Inv (st : State) (event : TestEvent.t) (st' : State)
    (event' : TestEvent.t) (pkgResult : PackageResult.t) :
  Inv st -> Ensured st event st' event' pkgResult ->
  Inv st' ∧ packageResults st' !! TestEvent.Package event' = Some pkgResult
  ∧ TestEvent.Package event' ≠ "".
Proof.
  intros HI He. destruct He as [p Hp|Hnone Hpkg Htest Hact|Hnone Hpkg].
  - split; [done|]. split; [done|]. intros Heq. rewrite Heq, (inv_noempty _ HI) in Hp. done.
  - rewrite Hpkg, <- (inv_noempty _ HI) in Hnone. clear Hnone.
    destruct (packageResults st !! orphanedOutputPackage) as [p|] eqn:Hp.
    + (* the bucket exists already: it is replaced by a new one *)
      unfold createPackage. cbn.
      assert (orphanedOutputPackage ∈ orderedPackageNames st) as Hin.
      { apply (inv_dom _ HI). by eexists. }
      apply containsString_spec in Hin. rewrite Hin. cbn.
      split; [|by rewrite lookup_insert_eq].
      apply Inv_update; [done|by eexists|done|apply (inv_current _ HI)].
    + destruct (Inv_create st (TestEvent.with_Package orphanedOutputPackage event) HI Hp)
        as (HI' & Hpk & _); [done|].
      split; [done|]. rewrite Hpk. cbn. by rewrite lookup_insert_eq.
  - destruct (Inv_create st event HI Hnone Hpkg) as (HI' & Hpk & _).
    split; [done|]. rewrite Hpk. by rewrite lookup_insert_eq.
Qed.

Lemma sweptPackage_name (pkg : string) (p : PackageResult.t)
    (entries : list (string * TestResult.t)) :
  PackageResult.PackageName (sweptPackage pkg p entries) = PackageResult.PackageName p.
Proof. unfold sweptPackage. by destruct (ofPackage pkg entries). Qed.

Lemma placeholder_name (event : TestEvent.t) (status : TestStatus) (p : PackageResult.t) :
  PackageResult.PackageName (placeholder event status p) = PackageResult.PackageName p.
Proof.
  unfold placeholder. destruct (_ && _); [|done].
  destruct (classifySummary _ _) as [[] []]; cbn; try done; by destruct (bool_decide _).
Qed.

Lemma Inv_store (st : State) (name : string) (p' : PackageResult.t) :
  Inv st -> is_Some (packageResults st !! name) ->
  PackageResult.PackageName p' = name -> Inv (storePackage name p' st).
Proof. intros HI Hs Hn. apply Inv_update; [done..|apply (inv_current _ HI)]. Qed.

Lemma Inv_setCurrent (st : State) (current : gmap string TestResult.t) :
  Inv st ->
  (forall key t, current !! key = Some t -> tracked (packageResults st) key t) ->
  Inv (with_currentTestResults current st).
Proof. apply Inv_current. Qed.

Lemma Dispatch_Inv `{GoRuntime} (st : State) (event : TestEvent.t)
    (pkgResult : PackageResult.t) (st' : State) :
  Inv st -> packageResults st !! TestEvent.Package event = Some pkgResult ->
  Dispatch st event pkgResult st' -> Inv st'.
Proof.
  intros HI Hp HD.
  assert (is_Some (packageResults st !! TestEvent.Package event)) as Hsome by by eexists.
  pose proof (inv_name _ HI _ _ Hp) as Hname.
  pose proof (inv_current _ HI) as Hcur.
  destruct HD as [Ha Ht|Ha Ht|Ha Ht|tr Ha Ht Hk|tests Ha Ht Hk Hap|Ha Ht Hk Hap
                 |tr Ha Ht Hk|Ha Ht Hk|Ha Ht|Ha1 Ha2 Ha3].
  - by apply Inv_store.
  - apply Inv_setCurrent; [done|].
    intros key t. destruct (decide (key = TestEvent.Package event ++ "/" ++ TestEvent.Test event))
      as [->|Hne].
    + rewrite lookup_insert_eq. intros [= <-]. by repeat split.
    + rewrite lookup_insert_ne by done. apply Hcur.
  - by apply Inv_store.
  - apply Inv_setCurrent; [done|].
    intros key t. destruct (decide (key = TestEvent.Package event ++ "/" ++ TestEvent.Test event))
      as [->|Hne].
    + rewrite lookup_insert_eq. intros [= <-]. apply Hcur in Hk. exact Hk.
    + rewrite lookup_insert_ne by done. apply Hcur.
  - by apply Inv_store.
  - by apply Inv_store.
  - apply Inv_setCurrent; [by apply Inv_store|].
    intros key t [_ Hkt]%lookup_delete_Some. by apply tracked_insert, Hcur.
  - apply Inv_setCurrent; [by apply Inv_store|].
    intros key t [_ Hkt]%lookup_delete_Some. by apply tracked_insert, Hcur.
  - apply Inv_setCurrent.
    + apply Inv_store; [done..|]. by rewrite placeholder_name, sweptPackage_name.
    + intros key t [Hkt _]%map_lookup_filter_Some. by apply tracked_insert, Hcur.
  - done.
Qed.

Lemma Inv_lineNumber (st : State) (n : nat) : Inv st -> Inv (with_lineNumber n st).
Proof. intros []. by split. Qed.

Lemma onBadLine_Inv (st : State) (raw : string) : Inv st -> Inv (onBadLine st raw).
Proof.
  intros HI. unfold onBadLine.
  destruct (last _) as [name|]; [|done].
  destruct (packageResults st !! name) as [p|] eqn:Hp; [|done].
  apply Inv_update; [done|by eexists| |apply (inv_current _ HI)].
  apply (inv_name _ HI _ _ Hp).
Qed.

Lemma Step_Inv `{GoRuntime} (st : State) (line : Line) (st' : State) :
  Inv st -> Step st line st' -> Inv st'.
Proof.
  intros HI HS. destruct HS as [|raw|event|event st1 event' p st' He HD].
  - by apply Inv_lineNumber.
  - by apply onBadLine_Inv, Inv_lineNumber.
  - by apply Inv_lineNumber.
  - destruct (Ensured_Inv _ _ _ _ _ (Inv_lineNumber _ _ HI) He) as (HI1 & Hp & _).
    eapply Dispatch_Inv; eassumption.
Qed.

(** A property kept by every turn of the loop holds of the state after
    any number of lines. *)
Lemma fold_processLine_ind `{GoRuntime} (P : State -> Prop) (lines : list Line) (st : State) :
  P st -> (forall st line, P st -> P (processLine st line)) ->
  P (fold_left processLine lines st).
Proof.
  intros H0 Hstep. revert st H0.
  induction lines as [|line lines IH]; intros st H0; cbn; [done|].
  apply IH, Hstep, H0.
Qed.

Lemma scanLoop_Inv `{GoRuntime} (lines : list Line) : Inv (scanLoop lines).
Proof.
  unfold scanLoop. apply fold_processLine_ind; [apply Inv_init|].
  intros st line HI. eapply Step_Inv; [exact HI|apply processLine_cases].
Qed.

(** *** The returned list *)

(** The package [pkgResult], stored under [name], as it is returned. *)
Definition finalOf `{GoRuntime} (st : State) (name : string) (pkgResult : PackageResult.t)
  : PackageResult.t :=
  let finished :=
    finishedPackage name pkgResult (mapRange 0 (map_to_list (currentTestResults st))) in
  PackageResult.with_Tests (sortSlice (PackageResult.Tests finished)) finished.

Lemma finalResults_eq `{GoRuntime} (lines : list Line) :
  finalResults lines =
  omap (fun name => finalOf (scanLoop lines) name <$> packageResults (scanLoop lines) !! name)
    (orderedPackageNames (scanLoop lines)).
Proof.
  unfold finalResults, assemble.
  induction (orderedPackageNames (scanLoop lines)) as [|name names IH]; cbn; [done|].
  rewrite IH, sweepAtEnd_lookup.
  by destruct (packageResults _ !! name).
Qed.

Lemma finishedPackage_name (name : string) (p : PackageResult.t)
    (entries : list (string * TestResult.t)) :
  PackageResult.PackageName (finishedPackage name p entries) = PackageResult.PackageName p.
Proof. unfold finishedPackage. by destruct (runningOf name entries). Qed.

(** Every package name of the loop has its package in the result, at its
    place. *)
Lemma finalResults_Forall2 `{GoRuntime} (lines : list Line) :
  Forall2
    (fun name p =>
       exists p0, packageResults (scanLoop lines) !! name = Some p0
                  ∧ p = finalOf (scanLoop lines) name p0)
    (orderedPackageNames (scanLoop lines)) (finalResults lines).
Proof.
  rewrite finalResults_eq.
  pose proof (scanLoop_Inv lines) as HI.
  assert (Hall : Forall (fun name => is_Some (packageResults (scanLoop lines) !! name))
                   (orderedPackageNames (scanLoop lines))).
  { apply Forall_forall. intros name Hin. by apply (inv_dom _ HI). }
  induction Hall as [|name names [p0 Hp0] _ IH]; cbn; [constructor|].
  rewrite Hp0. cbn. constructor; [by exists p0|exact IH].
Qed.

Lemma finalResults_names `{GoRuntime} (lines : list Line) :
  map PackageResult.PackageName (finalResults lines) = orderedPackageNames (scanLoop lines).
Proof.
  pose proof (scanLoop_Inv lines) as HI.
  pose proof (finalResults_Forall2 lines) as HF.
  induction HF as [|name p names ps (p0 & Hp0 & ->) _ IH]; cbn; [done|].
  f_equal; [|exact IH].
  unfold finalOf. cbn. rewrite finishedPackage_name. by apply (inv_name _ HI).
Qed.

Lemma finalResults_elem `{GoRuntime} (lines : list Line) (p : PackageResult.t) :
  p ∈ finalResults lines ->
  exists name p0, packageResults (scanLoop lines) !! name = Some p0
                  ∧ p = finalOf (scanLoop lines) name p0.
Proof.
  intros Hin. pose proof (finalResults_Forall2 lines) as HF.
  induction HF as [|name q names ps Hq _ IH]; [by apply elem_of_nil in Hin|].
  apply elem_of_cons in Hin as [->|Hin]; [by exists name|by apply IH].
Qed.

(** *** First-seen order of the packages *)

(** The package that the loop files a line under: the event's own, the
    bucket for output without package and test, none for the lines that
    the loop passes over. *)
Definition packageOf (line : Line) : option string :=
  match line with
  | EventLine event =>
      if bool_decide (TestEvent.Package event = "") then
        if bool_decide (TestEvent.Test event = "")
           && bool_decide (TestEvent.Action event = "output")
        then Some orphanedOutputPackage else None
      else Some (TestEvent.Package event)
  | EmptyLine | BadLine _ => None
  end.

(** The names of a sequence, each at the place of its first occurrence. *)
Fixpoint firstSeen (names : list string) : list string :=
  match names with
  | [] => []
  | name :: rest => name :: filter (fun other => other ≠ name) (firstSeen rest)
  end.

Definition addSeen (seen : list string) (name : option string) : list string :=
  match name with
  | Some name => if containsString seen name then seen else (seen ++ [name])%list
  | None => seen
  end.

Lemma fold_addSeen (names : list string) (seen : list string) :
  fold_left addSeen (map Some names) seen =
  (seen ++ filter (fun name => name ∉ seen) (firstSeen names))%list.
Proof.
  revert seen. induction names as [|name names IH]; intros seen;
    cbn [fold_left map firstSeen addSeen].
  { by rewrite app_nil_r. }
  rewrite IH, filter_cons.
  destruct (containsString seen name) eqn:Hc.
  - apply containsString_spec in Hc. rewrite decide_False by tauto.
    rewrite list_filter_filter. apply (f_equal (app seen)), list_filter_iff.
    intros x. split; [|tauto]. intros Hx. split; [done|]. by intros ->.
  - assert (name ∉ seen) as Hn.
    { intros Hin%containsString_spec. congruence. }
    rewrite decide_True by done. rewrite <- app_assoc, list_filter_filter. cbn.
    apply (f_equal (app seen)), (f_equal (cons name)), list_filter_iff.
    intros x. rewrite elem_of_app, list_elem_of_singleton. tauto.
Qed.

Lemma Dispatch_ordered `{GoRuntime} (st : State) (event : TestEvent.t)
    (pkgResult : PackageResult.t) (st' : State) :
  Dispatch st event pkgResult st' ->
  orderedPackageNames st' = orderedPackageNames st ∧ lineNumber st' = lineNumber st.
Proof. by destruct 1. Qed.

Lemma onBadLine_ordered (st : State) (raw : string) :
  orderedPackageNames (onBadLine st raw) = orderedPackageNames st.
Proof.
  unfold onBadLine. destruct (last _); [|done]. by destruct (packageResults st !! _).
Qed.

Lemma Step_ordered `{GoRuntime} (st : State) (line : Line) (st' : State) :
  Inv st -> Step st line st' ->
  orderedPackageNames st' = addSeen (orderedPackageNames st) (packageOf line).
Proof.
  intros HI HS. destruct HS as [|raw|event Hn Hp Hno|event st1 event' p st' He HD]; cbn.
  - done.
  - by rewrite onBadLine_ordered.
  - rewrite bool_decide_eq_true_2 by done.
    destruct (bool_decide (TestEvent.Test event = "")) eqn:Ht; [|done].
    destruct (bool_decide (TestEvent.Action event = "output")) eqn:Ha; [|done].
    apply bool_decide_eq_true in Ht, Ha. tauto.
  - apply Dispatch_ordered in HD as [-> _].
    destruct He as [p Hp|Hnone Hpkg Htest Hact|Hnone Hpkg];
      cbn [packageResults with_lineNumber orderedPackageNames createPackage storePackage
           with_packageResults with_orderedPackageNames fst snd TestEvent.Package
           TestEvent.with_Package] in *.
    + assert (TestEvent.Package event ≠ "") as Hne.
      { intros Heq. rewrite Heq, (inv_noempty _ HI) in Hp. done. }
      rewrite bool_decide_eq_false_2 by done. cbn.
      assert (TestEvent.Package event ∈ orderedPackageNames st) as Hin.
      { apply (inv_dom _ HI). by eexists. }
      apply containsString_spec in Hin. by rewrite Hin.
    + rewrite !bool_decide_eq_true_2 by done. cbn.
      by destruct (containsString _ _).
    + rewrite bool_decide_eq_false_2 by done. cbn.
      by destruct (containsString _ _).
Qed.

Lemma fold_ordered `{GoRuntime} (lines : list Line) (st : State) :
  Inv st ->
  orderedPackageNames (fold_left processLine lines st) =
  fold_left addSeen (map packageOf lines) (orderedPackageNames st).
Proof.
  revert st. induction lines as [|line lines IH]; intros st HI; cbn; [done|].
  pose proof (processLine_cases st line) as HS.
  rewrite IH by (eapply Step_Inv; eassumption).
  f_equal. by apply Step_ordered.
Qed.

Lemma fold_addSeen_omap (names : list (option string)) (seen : list string) :
  fold_left addSeen names seen = fold_left addSeen (map Some (omap id names)) seen.
Proof.
  revert seen. induction names as [|[name|] names IH]; intros seen; cbn; by rewrite ?IH.
Qed.

Lemma scanLoop_ordered `{GoRuntime} (lines : list Line) :
  orderedPackageNames (scanLoop lines) = firstSeen (omap packageOf lines).
Proof.
  unfold scanLoop. rewrite fold_ordered by apply Inv_init. cbn.
  rewrite fold_addSeen_omap, fold_addSeen. cbn.
  assert (omap id (map packageOf lines) = omap packageOf lines) as ->.
  { induction lines as [|line lines IH]; cbn; [done|].
    rewrite IH. by destruct (packageOf line). }
  induction (firstSeen _) as [|x l IH]; [done|].
  rewrite filter_cons_True by (by intros ?%elem_of_nil). by f_equal.
Qed.

(** *** Two runs compared

    Two runs over the same lines may differ in the order in which a
    sweep appends the tests it finds.  Tests of the same name keep their
    relative order ([testsSim]). *)

Definition sameNamed (name : string) (tests : list TestResult.t) : list TestResult.t :=
  filter (fun t => TestResult.Name t = name) tests.

Definition testsSim (l1 l2 : list TestResult.t) : Prop :=
  forall name, sameNamed name l1 = sameNamed name l2.

Record pkgSim (p1 p2 : PackageResult.t) : Prop := mkPkgSim {
  sim_name : PackageResult.PackageName p1 = PackageResult.PackageName p2;
  sim_status : PackageResult.Status p1 = PackageResult.Status p2;
  sim_summary : PackageResult.SummaryOutput p1 = PackageResult.SummaryOutput p2;
  sim_duration : PackageResult.Duration p1 = PackageResult.Duration p2;
  sim_tests : testsSim (PackageResult.Tests p1) (PackageResult.Tests p2)
}.

Definition mapsSim (m1 m2 : gmap string PackageResult.t) : Prop :=
  forall name, option_Forall2 pkgSim (m1 !! name) (m2 !! name).

Lemma testsSim_refl (l : list TestResult.t) : testsSim l l.
Proof. done. Qed.

Lemma testsSim_sym (l1 l2 : list TestResult.t) : testsSim l1 l2 -> testsSim l2 l1.
Proof. intros Hs name. by rewrite Hs. Qed.

Lemma testsSim_app (l1 l2 k1 k2 : list TestResult.t) :
  testsSim l1 l2 -> testsSim k1 k2 -> testsSim (l1 ++ k1) (l2 ++ k2).
Proof. intros Hl Hk name. unfold sameNamed. rewrite !filter_app. f_equal; [apply Hl|apply Hk]. Qed.

Lemma testsSim_nil (l1 l2 : list TestResult.t) : testsSim l1 l2 -> l1 = [] -> l2 = [].
Proof.
  intros Hs ->. destruct l2 as [|t l2]; [done|].
  specialize (Hs (TestResult.Name t)). unfold sameNamed in Hs.
  rewrite filter_cons_True in Hs by done. done.
Qed.

Lemma testsSim_length (l1 l2 : list TestResult.t) :
  testsSim l1 l2 -> length l1 = 0 ↔ length l2 = 0.
Proof.
  intros Hs. split; intros Hl.
  - apply length_zero_iff_nil in Hl. by rewrite (testsSim_nil _ _ Hs Hl).
  - apply length_zero_iff_nil in Hl. by rewrite (testsSim_nil _ _ (testsSim_sym _ _ Hs) Hl).
Qed.

Lemma pkgSim_refl (p : PackageResult.t) : pkgSim p p.
Proof. by split. Qed.

Lemma mapsSim_refl (m : gmap string PackageResult.t) : mapsSim m m.
Proof. intros name. destruct (m !! name); constructor. apply pkgSim_refl. Qed.

Lemma mapsSim_insert (m1 m2 : gmap string PackageResult.t) (name : string)
    (p1 p2 : PackageResult.t) :
  mapsSim m1 m2 -> pkgSim p1 p2 -> mapsSim (<[name := p1]> m1) (<[name := p2]> m2).
Proof.
  intros Hm Hp k. destruct (decide (name = k)) as [->|Hne].
  - rewrite !lookup_insert_eq. by constructor.
  - rewrite !lookup_insert_ne by done. apply Hm.
Qed.

(** [appendToCompleted] changes the first test of the name, if any. *)
Definition appendFirst (outputLine : string) (tests : list TestResult.t) : list TestResult.t :=
  match tests with
  | [] => []
  | t :: rest => TestResult.with_Output (TestResult.Output t ++ [outputLine]) t :: rest
  end.

Lemma appendToCompleted_None (tests : list TestResult.t) (name outputLine : string) :
  appendToCompleted tests name outputLine = None ↔ sameNamed name tests = [].
Proof.
  unfold sameNamed. induction tests as [|t tests IH]; cbn [appendToCompleted]; [done|].
  rewrite filter_cons. case_bool_decide as Hn.
  - rewrite decide_True by done. split; discriminate.
  - rewrite decide_False by done. rewrite <- IH.
    destruct (appendToCompleted tests name outputLine); cbn; split; done.
Qed.

Lemma appendToCompleted_Some (tests tests' : list TestResult.t) (name outputLine : string) :
  appendToCompleted tests name outputLine = Some tests' ->
  forall other, sameNamed other tests' =
    if decide (other = name) then appendFirst outputLine (sameNamed other tests)
    else sameNamed other tests.
Proof.
  unfold sameNamed. revert tests'.
  induction tests as [|t tests IH]; intros tests'; cbn [appendToCompleted]; [done|].
  case_bool_decide as Hn.
  - intros [= <-] other. rewrite !filter_cons. cbn.
    destruct (decide (other = name)) as [->|Hne].
    + by rewrite !decide_True.
    + rewrite !decide_False by congruence. done.
  - destruct (appendToCompleted tests name outputLine) as [tl|] eqn:Ha; [|done].
    cbn. intros [= <-] other. rewrite !filter_cons. rewrite (IH tl eq_refl other).
    destruct (decide (other = name)) as [->|Hne].
    + rewrite !decide_False by done. done.
    + by destruct (decide (TestResult.Name t = other)).
Qed.

Lemma appendToCompleted_sim (l1 l2 : list TestResult.t) (name outputLine : string) :
  testsSim l1 l2 ->
  option_Forall2 testsSim (appendToCompleted l1 name outputLine)
    (appendToCompleted l2 name outputLine).
Proof.
  intros Hs.
  destruct (appendToCompleted l1 name outputLine) as [a|] eqn:H1,
           (appendToCompleted l2 name outputLine) as [b|] eqn:H2.
  - constructor. intros other.
    rewrite (appendToCompleted_Some _ _ _ _ H1), (appendToCompleted_Some _ _ _ _ H2).
    by rewrite (Hs other).
  - apply appendToCompleted_None in H2. rewrite <- (Hs name) in H2.
    apply (appendToCompleted_None _ _ outputLine) in H2. congruence.
  - apply appendToCompleted_None in H1. rewrite (Hs name) in H1.
    apply (appendToCompleted_None _ _ outputLine) in H1. congruence.
  - constructor.
Qed.

Lemma filter_none {A : Type} (P : A -> Prop) `{forall x, Decision (P x)} (l : list A) :
  (forall x, x ∈ l -> ¬ P x) -> filter P l = [].
Proof.
  induction l as [|x l IH]; intros Hn; [done|].
  rewrite filter_cons_False by (apply Hn; left).
  apply IH. intros y Hy. apply Hn. by right.
Qed.

(** Tests of pairwise different names, in any order, are related. *)
Lemma sameNamed_NoDup_length (name : string) (l : list TestResult.t) :
  NoDup (map TestResult.Name l) -> length (sameNamed name l) <= 1.
Proof.
  unfold sameNamed. induction l as [|t l IH]; cbn [map]; intros Hnd; [cbn; lia|].
  apply NoDup_cons in Hnd as [Hnotin Hnd]. rewrite filter_cons.
  destruct (decide (TestResult.Name t = name)) as [<-|Hne]; [|by apply IH].
  assert (filter (fun t0 => TestResult.Name t0 = TestResult.Name t) l = []) as ->; [|cbn; lia].
  apply filter_none. intros x Hx Hname. apply Hnotin.
  rewrite <- Hname. apply list_elem_of_fmap. by exists x.
Qed.

Lemma Permutation_short {A : Type} (l1 l2 : list A) :
  Permutation l1 l2 -> length l1 <= 1 -> l1 = l2.
Proof.
  intros Hp Hl. destruct l1 as [|x [|y l1]]; cbn in Hl; try lia.
  - by apply Permutation_nil in Hp.
  - by apply Permutation_singleton_l in Hp.
Qed.

Lemma testsSim_Permutation_NoDup (l1 l2 : list TestResult.t) :
  Permutation l1 l2 -> NoDup (map TestResult.Name l1) -> testsSim l1 l2.
Proof.
  intros Hp Hnd name. apply Permutation_short.
  - unfold sameNamed. by rewrite Hp.
  - by apply sameNamed_NoDup_length.
Qed.

(** The tests that one sweep appends to a package have pairwise
    different names: their keys differ, and a key is package and name. *)
Lemma swept_names_NoDup (current : gmap string TestResult.t) (pkg : string)
    (swept : list (string * TestResult.t)) :
  (forall key t, current !! key = Some t ->
     key = TestResult.PackageName t ++ "/" ++ TestResult.Name t) ->
  NoDup swept ->
  (forall e, e ∈ swept -> current !! e.1 = Some e.2 ∧ TestResult.PackageName e.2 = pkg) ->
  NoDup (map (fun e => TestResult.Name e.2) swept).
Proof.
  intros Hkey Hnd Hin. apply (NoDup_fmap_2_strong _ swept); [|done].
  intros [k1 t1] [k2 t2] H1 H2 Hname. cbn in Hname.
  destruct (Hin _ H1) as [Hl1 Hp1], (Hin _ H2) as [Hl2 Hp2]. cbn in *.
  pose proof (Hkey _ _ Hl1) as E1. pose proof (Hkey _ _ Hl2) as E2.
  assert (k1 = k2) as -> by congruence.
  congruence.
Qed.

Lemma ofPackage_names_NoDup (st : State) (pkg : string)
    (entries : list (string * TestResult.t)) :
  Inv st -> Permutation entries (map_to_list (currentTestResults st)) ->
  NoDup (map (fun e => TestResult.Name e.2) (ofPackage pkg entries)).
Proof.
  intros HI Hp. apply (swept_names_NoDup (currentTestResults st) pkg).
  - intros key t Ht. by destruct (inv_current _ HI _ _ Ht) as (_&_&?&_).
  - apply NoDup_filter. rewrite Hp. apply NoDup_map_to_list.
  - intros [k t] [Hpkg Hin]%list_elem_of_filter. split; [|done].
    rewrite Hp in Hin. by apply elem_of_map_to_list in Hin.
Qed.

Lemma runningOf_names_NoDup (st : State) (pkg : string)
    (entries : list (string * TestResult.t)) :
  Inv st -> Permutation entries (map_to_list (currentTestResults st)) ->
  NoDup (map (fun e => TestResult.Name e.2) (runningOf pkg entries)).
Proof.
  intros HI Hp. apply (swept_names_NoDup (currentTestResults st) pkg).
  - intros key t Ht. by destruct (inv_current _ HI _ _ Ht) as (_&_&?&_).
  - apply NoDup_filter. rewrite Hp. apply NoDup_map_to_list.
  - intros [k t] [[_ Hpkg] Hin]%list_elem_of_filter. split; [|done].
    rewrite Hp in Hin. by apply elem_of_map_to_list in Hin.
Qed.

Lemma marked_sim (mark : TestResult.t -> TestResult.t) (l1 l2 : list (string * TestResult.t)) :
  (forall t, TestResult.Name (mark t) = TestResult.Name t) ->
  Permutation l1 l2 -> NoDup (map (fun e => TestResult.Name e.2) l1) ->
  testsSim (map (fun e => mark e.2) l1) (map (fun e => mark e.2) l2).
Proof.
  intros Hmark Hp Hnd. apply testsSim_Permutation_NoDup.
  - by apply Permutation_map.
  - rewrite map_map. erewrite map_ext; [exact Hnd|]. intros e. apply Hmark.
Qed.

Lemma sweptPackage_sim (pkg : string) (p1 p2 : PackageResult.t)
    (l1 l2 : list (string * TestResult.t)) :
  pkgSim p1 p2 -> Permutation l1 l2 ->
  NoDup (map (fun e => TestResult.Name e.2) (ofPackage pkg l1)) ->
  pkgSim (sweptPackage pkg p1 l1) (sweptPackage pkg p2 l2).
Proof.
  intros [Hn Hs Hsum Hd Ht] Hp Hnd. unfold sweptPackage.
  assert (Permutation (ofPackage pkg l1) (ofPackage pkg l2)) as Hp'.
  { unfold ofPackage. by rewrite Hp. }
  pose proof (marked_sim markUnreported _ _ (fun t => eq_refl) Hp' Hnd) as Hm.
  destruct (ofPackage pkg l1) as [|e1 sw1], (ofPackage pkg l2) as [|e2 sw2].
  - by split.
  - by apply Permutation_nil_cons in Hp'.
  - symmetry in Hp'. by apply Permutation_nil_cons in Hp'.
  - split; cbn; try done; [by rewrite Hs|by apply testsSim_app].
Qed.

Lemma finishedPackage_sim (pkg : string) (p1 p2 : PackageResult.t)
    (l1 l2 : list (string * TestResult.t)) :
  pkgSim p1 p2 -> Permutation l1 l2 ->
  NoDup (map (fun e => TestResult.Name e.2) (runningOf pkg l1)) ->
  pkgSim (finishedPackage pkg p1 l1) (finishedPackage pkg p2 l2).
Proof.
  intros [Hn Hs Hsum Hd Ht] Hp Hnd. unfold finishedPackage.
  assert (Permutation (runningOf pkg l1) (runningOf pkg l2)) as Hp'.
  { unfold runningOf. by rewrite Hp. }
  pose proof (marked_sim markIncomplete _ _ (fun t => eq_refl) Hp' Hnd) as Hm.
  destruct (runningOf pkg l1) as [|e1 sw1], (runningOf pkg l2) as [|e2 sw2].
  - by split.
  - by apply Permutation_nil_cons in Hp'.
  - symmetry in Hp'. by apply Permutation_nil_cons in Hp'.
  - split; cbn; try done. by apply testsSim_app.
Qed.

Lemma placeholder_sim (event : TestEvent.t) (status : TestStatus) (p1 p2 : PackageResult.t) :
  pkgSim p1 p2 -> pkgSim (placeholder event status p1) (placeholder event status p2).
Proof.
  intros [Hn Hs Hsum Hd Ht]. unfold placeholder. rewrite <- Hsum, <- Hd.
  assert (bool_decide (length (PackageResult.Tests p1) = 0)
          = bool_decide (length (PackageResult.Tests p2) = 0)) as <-.
  { apply bool_decide_ext. by apply testsSim_length. }
  destruct (_ && _); [|by split].
  destruct (classifySummary _ _) as [[] isBuildFailed]; cbn.
  - split; cbn; try done. by apply testsSim_app.
  - destruct (isBuildFailed && _); [|by split].
    split; cbn; try done. by apply testsSim_app.
Qed.

(** The states of two runs after the same lines. *)
Record stateSim (s1 s2 : State) : Prop := mkStateSim {
  ss_packages : mapsSim (packageResults s1) (packageResults s2);
  ss_ordered : orderedPackageNames s1 = orderedPackageNames s2;
  ss_current : currentTestResults s1 = currentTestResults s2;
  ss_line : lineNumber s1 = lineNumber s2
}.

Section TwoRuns.

Context (R1 R2 : GoRuntime).
Hypothesis same_platform : forall f, @convOverflow R1 f = @convOverflow R2 f.

Lemma durationOf_same (elapsed : float) : @durationOf R1 elapsed = @durationOf R2 elapsed.
Proof. unfold durationOf, float64ToInt64. by rewrite same_platform. Qed.

Lemma storePackage_sim (s1 s2 : State) (name : string) (p1 p2 : PackageResult.t) :
  stateSim s1 s2 -> pkgSim p1 p2 ->
  stateSim (storePackage name p1 s1) (storePackage name p2 s2).
Proof. intros [Hm Ho Hc Hl] Hp. split; cbn; try done. by apply mapsSim_insert. Qed.

Lemma setCurrent_sim (s1 s2 : State) (current : gmap string TestResult.t) :
  stateSim s1 s2 ->
  stateSim (with_currentTestResults current s1) (with_currentTestResults current s2).
Proof. intros [Hm Ho Hc Hl]. by split. Qed.

Lemma onRun_sim (s1 s2 : State) (event : TestEvent.t) (p1 p2 : PackageResult.t) :
  stateSim s1 s2 -> pkgSim p1 p2 -> stateSim (onRun s1 event p1) (onRun s2 event p2).
Proof.
  intros Hs Hp. unfold onRun. case_bool_decide.
  - apply storePackage_sim; [done|]. destruct Hp. by split.
  - rewrite <- (ss_current _ _ Hs). by apply setCurrent_sim.
Qed.

Lemma onOutput_sim (s1 s2 : State) (event : TestEvent.t) (p1 p2 : PackageResult.t) :
  stateSim s1 s2 -> pkgSim p1 p2 -> stateSim (onOutput s1 event p1) (onOutput s2 event p2).
Proof.
  intros Hs Hp. unfold onOutput. rewrite <- (ss_current _ _ Hs).
  assert (forall line,
    pkgSim (PackageResult.with_SummaryOutput (PackageResult.SummaryOutput p1 ++ [line]) p1)
           (PackageResult.with_SummaryOutput (PackageResult.SummaryOutput p2 ++ [line]) p2))
    as Hsum.
  { intros line. destruct Hp as [Hn Hst Hsum Hd Ht]. split; cbn; try done. by rewrite Hsum. }
  case_bool_decide.
  { by apply storePackage_sim. }
  destruct (currentTestResults s1 !! testKeyOf event) as [tr|].
  { by apply setCurrent_sim. }
  pose proof (appendToCompleted_sim _ _ (TestEvent.Test event)
                (TrimRightNewlines (TestEvent.Output event)) (sim_tests _ _ Hp)) as Ha.
  destruct Ha as [a b Hab|].
  - apply storePackage_sim; [done|]. destruct Hp. by split.
  - by apply storePackage_sim.
Qed.

Lemma onTestDone_sim (s1 s2 : State) (event : TestEvent.t) (p1 p2 : PackageResult.t)
    (status : TestStatus) (duration : Z) :
  stateSim s1 s2 -> pkgSim p1 p2 ->
  stateSim (onTestDone s1 event p1 status duration) (onTestDone s2 event p2 status duration).
Proof.
  intros Hs Hp. unfold onTestDone. rewrite <- (ss_current _ _ Hs).
  destruct Hp as [Hn Hst Hsum Hd Ht].
  destruct (currentTestResults s1 !! testKeyOf event) as [tr|].
  - apply setCurrent_sim, storePackage_sim; [done|].
    split; cbn; try done. by apply testsSim_app.
  - rewrite <- Hsum. destruct (moveTagged _ _) as [out kept].
    apply setCurrent_sim, storePackage_sim; [done|].
    split; cbn; try done. by apply testsSim_app.
Qed.

Lemma onPackageDone_sim (s1 s2 : State) (event : TestEvent.t) (p1 p2 : PackageResult.t)
    (status : TestStatus) (duration : Z) :
  Inv s1 -> stateSim s1 s2 -> pkgSim p1 p2 ->
  stateSim (@onPackageDone R1 s1 event p1 status duration)
           (@onPackageDone R2 s2 event p2 status duration).
Proof.
  intros HI Hs Hp. unfold onPackageDone. rewrite !sweepPackage_eq.
  rewrite <- (ss_current _ _ Hs), <- (ss_line _ _ Hs).
  apply setCurrent_sim, storePackage_sim; [done|].
  apply placeholder_sim, sweptPackage_sim.
  - destruct Hp. by split.
  - by rewrite !mapRange_perm.
  - apply (ofPackage_names_NoDup s1); [done|apply mapRange_perm].
Qed.

Lemma dispatch_sim (s1 s2 : State) (event : TestEvent.t) (p1 p2 : PackageResult.t) :
  Inv s1 -> stateSim s1 s2 -> pkgSim p1 p2 ->
  stateSim (@dispatch R1 s1 event p1) (@dispatch R2 s2 event p2).
Proof.
  intros HI Hs Hp. unfold dispatch.
  case_bool_decide; [by apply onRun_sim|].
  case_bool_decide; [by apply onOutput_sim|].
  destruct (_ || _); [|done].
  rewrite durationOf_same.
  case_bool_decide; [by apply onPackageDone_sim|by apply onTestDone_sim].
Qed.

Lemma createPackage_sim (s1 s2 : State) (event : TestEvent.t) :
  stateSim s1 s2 ->
  stateSim (createPackage s1 event).1.1 (createPackage s2 event).1.1.
Proof.
  intros [Hm Ho Hc Hl]. unfold createPackage. cbn. rewrite <- Ho.
  destruct (containsString _ _); split; cbn; try done;
    try (apply mapsSim_insert; [done|apply pkgSim_refl]); by rewrite Ho.
Qed.

Lemma processEvent_sim (s1 s2 : State) (event : TestEvent.t) :
  Inv s1 -> stateSim s1 s2 ->
  stateSim (@processEvent R1 s1 event) (@processEvent R2 s2 event).
Proof.
  intros HI Hs. unfold processEvent.
  pose proof (ensurePackage_cases s1 event) as He.
  unfold ensurePackage in *.
  pose proof (ss_packages _ _ Hs (TestEvent.Package event)) as Hlook.
  destruct Hlook as [p1 p2 Hp|].
  - by apply dispatch_sim.
  - destruct (_ && _).
    + destruct (Ensured_Inv _ _ _ _ _ HI He) as (HI' & _).
      apply dispatch_sim; [done|by apply createPackage_sim|apply pkgSim_refl].
    + case_bool_decide; [done|].
      destruct (Ensured_Inv _ _ _ _ _ HI He) as (HI' & _).
      apply dispatch_sim; [done|by apply createPackage_sim|apply pkgSim_refl].
Qed.

Lemma onBadLine_sim (s1 s2 : State) (raw : string) :
  stateSim s1 s2 -> stateSim (onBadLine s1 raw) (onBadLine s2 raw).
Proof.
  intros Hs. unfold onBadLine. rewrite <- (ss_ordered _ _ Hs), <- (ss_line _ _ Hs).
  destruct (last _) as [name|]; [|done].
  destruct (ss_packages _ _ Hs name) as [p1 p2 Hp|]; [|done].
  apply storePackage_sim; [done|].
  destruct Hp as [Hn Hst Hsum Hd Ht]. split; cbn; try done. by rewrite Hsum.
Qed.

Lemma lineNumber_sim (s1 s2 : State) :
  stateSim s1 s2 ->
  stateSim (with_lineNumber (S (lineNumber s1)) s1) (with_lineNumber (S (lineNumber s2)) s2).
Proof. intros [Hm Ho Hc Hl]. split; cbn; try done. by rewrite Hl. Qed.

Lemma processLine_sim (s1 s2 : State) (line : Line) :
  Inv s1 -> stateSim s1 s2 ->
  stateSim (@processLine R1 s1 line) (@processLine R2 s2 line).
Proof.
  intros HI Hs. apply lineNumber_sim in Hs.
  destruct line as [|raw|event]; cbn [processLine].
  - done.
  - by apply onBadLine_sim.
  - apply processEvent_sim; [by apply Inv_lineNumber|done].
Qed.

Lemma fold_sim (lines : list Line) (s1 s2 : State) :
  Inv s1 -> stateSim s1 s2 ->
  stateSim (fold_left (@processLine R1) lines s1) (fold_left (@processLine R2) lines s2).
Proof.
  revert s1 s2. induction lines as [|line lines IH]; intros s1 s2 HI Hs; cbn; [done|].
  apply IH; [|by apply processLine_sim].
  eapply (@Step_Inv R1); [exact HI|apply (@processLine_cases R1)].
Qed.

Lemma scanLoop_sim (lines : list Line) :
  stateSim (@scanLoop R1 lines) (@scanLoop R2 lines).
Proof.
  apply fold_sim; [apply Inv_init|]. split; try done. apply mapsSim_refl.
Qed.

(** Related lists hold the same tests. *)
Lemma filter_head_split {A : Type} (P : A -> Prop) `{forall x, Decision (P x)}
    (l : list A) (a : A) (r : list A) :
  filter P l = a :: r ->
  exists pre post, l = (pre ++ a :: post)%list ∧ filter P pre = [] ∧ filter P post = r.
Proof.
  induction l as [|x l IH]; [done|].
  rewrite filter_cons. destruct (decide (P x)) as [Hx|Hx].
  - intros [= -> <-]. by exists [], l.
  - intros Hf. destruct (IH Hf) as (pre & post & -> & Hpre & Hpost).
    exists (x :: pre), post. split; [done|]. split; [|done].
    by rewrite filter_cons_False.
Qed.

Lemma testsSim_Permutation (l1 l2 : list TestResult.t) : testsSim l1 l2 -> Permutation l1 l2.
Proof.
  revert l2. induction l1 as [|a l1 IH]; intros l2 Hs.
  { by rewrite (testsSim_nil _ _ Hs eq_refl). }
  pose proof (Hs (TestResult.Name a)) as Ha. unfold sameNamed in Ha.
  rewrite filter_cons_True in Ha by done. symmetry in Ha.
  destruct (filter_head_split _ _ _ _ Ha) as (pre & post & -> & Hpre & Hpost).
  rewrite <- Permutation_middle. constructor. apply IH.
  intros name. specialize (Hs name). unfold sameNamed in *.
  rewrite filter_app, filter_cons in Hs. rewrite filter_cons in Hs. rewrite filter_app.
  destruct (decide (TestResult.Name a = name)) as [<-|Hne].
  - by rewrite Hpre, Hpost.
  - done.
Qed.

Lemma byName_antisym (a b : TestResult.t) :
  byName a b -> byName b a -> TestResult.Name a = TestResult.Name b.
Proof.
  unfold byName, less. intros Hab Hba.
  destruct (ltb_false_cases _ _ Hab) as [?|Hlt]; [done|]. congruence.
Qed.

(** A list sorted by name, of pairwise different names, is determined by
    its elements. *)
Lemma sorted_unique (l1 l2 : list TestResult.t) :
  StronglySorted byName l1 -> StronglySorted byName l2 -> Permutation l1 l2 ->
  NoDup (map TestResult.Name l1) -> l1 = l2.
Proof.
  revert l2. induction l1 as [|a l1 IH]; intros l2 Hs1 Hs2 Hp Hnd.
  { by apply Permutation_nil in Hp. }
  destruct l2 as [|b l2]; [by apply Permutation_sym, Permutation_nil_cons in Hp|].
  apply StronglySorted_inv in Hs1 as [Hs1 Ha]. apply StronglySorted_inv in Hs2 as [Hs2 Hb].
  cbn in Hnd. apply NoDup_cons in Hnd as [Hnotin Hnd].
  assert (a = b) as <-.
  { assert (b ∈ a :: l1) as Hb1 by (rewrite Hp; left).
    assert (a ∈ b :: l2) as Ha2 by (rewrite <- Hp; left).
    apply elem_of_cons in Hb1 as [?|Hb1]; [done|].
    apply elem_of_cons in Ha2 as [?|Ha2]; [done|].
    exfalso. rewrite Forall_forall in Ha, Hb.
    apply Hnotin. rewrite (byName_antisym a b); [|apply Ha|apply Hb].
    - apply list_elem_of_fmap. by exists b.
    - done.
    - done. }
  f_equal. apply IH; try done. by apply Permutation_cons_inv in Hp.
Qed.

(** What two runs return for the same package. *)
Record resultSim (p1 p2 : PackageResult.t) : Prop := mkResultSim {
  rs_name : PackageResult.PackageName p1 = PackageResult.PackageName p2;
  rs_status : PackageResult.Status p1 = PackageResult.Status p2;
  rs_summary : PackageResult.SummaryOutput p1 = PackageResult.SummaryOutput p2;
  rs_duration : PackageResult.Duration p1 = PackageResult.Duration p2;
  rs_tests : Permutation (PackageResult.Tests p1) (PackageResult.Tests p2);
  rs_sorted1 : StronglySorted byName (PackageResult.Tests p1);
  rs_sorted2 : StronglySorted byName (PackageResult.Tests p2)
}.

Lemma resultSim_eq (p1 p2 : PackageResult.t) :
  resultSim p1 p2 -> NoDup (map TestResult.Name (PackageResult.Tests p1)) -> p1 = p2.
Proof.
  intros [Hn Hs Hsum Hd Ht Hs1 Hs2] Hnd.
  destruct p1, p2; cbn in *; subst. f_equal. by apply sorted_unique.
Qed.

Lemma finalOf_sim (s1 s2 : State) (name : string) (p1 p2 : PackageResult.t) :
  Inv s1 -> stateSim s1 s2 -> pkgSim p1 p2 ->
  resultSim (@finalOf R1 s1 name p1) (@finalOf R2 s2 name p2).
Proof.
  intros HI Hs Hp. unfold finalOf. rewrite <- (ss_current _ _ Hs).
  pose proof (finishedPackage_sim name p1 p2
                (@mapRange R1 0 (map_to_list (currentTestResults s1)))
                (@mapRange R2 0 (map_to_list (currentTestResults s1))) Hp) as Hf.
  destruct Hf as [Hn Hst Hsum Hd Ht].
  - by rewrite !mapRange_perm.
  - apply (runningOf_names_NoDup s1); [done|apply mapRange_perm].
  - split; cbn; try done; try apply sortSlice_sorted.
    rewrite !sortSlice_perm. by apply testsSim_Permutation.
Qed.

Lemma finalResults_sim (lines : list Line) :
  Forall2 resultSim (@finalResults R1 lines) (@finalResults R2 lines).
Proof.
  rewrite !finalResults_eq.
  pose proof (scanLoop_sim lines) as Hs.
  pose proof (@scanLoop_Inv R1 lines) as HI.
  rewrite <- (ss_ordered _ _ Hs).
  induction (orderedPackageNames (@scanLoop R1 lines)) as [|name names IH]; cbn; [constructor|].
  destruct (ss_packages _ _ Hs name) as [p1 p2 Hp|]; cbn; [|exact IH].
  constructor; [|exact IH]. by apply finalOf_sim.
Qed.

Lemma finalResults_same (lines : list Line) :
  Forall (fun p => NoDup (map TestResult.Name (PackageResult.Tests p))) (@finalResults R1 lines) ->
  @finalResults R1 lines = @finalResults R2 lines.
Proof.
  intros Hnd. pose proof (finalResults_sim lines) as Hs.
  induction Hs as [|p1 p2 l1 l2 Hp _ IH]; [done|].
  apply Forall_cons in Hnd as [Hnd1 Hnd]. f_equal; [by apply resultSim_eq|by apply IH].
Qed.

End TwoRuns.

(** *** Runtimes to evaluate with *)

(** The runtime [R] with the map order and the sort replaced by those of
    [stableRuntime]. *)
Definition canon (R : GoRuntime) : GoRuntime := {|
  mapRange := fun _ l => l;
  mapRange_perm := fun _ l => Permutation_refl l;
  sortSlice := insertionSort;
  sortSlice_perm := insertionSort_perm;
  sortSlice_sorted := insertionSort_sorted;
  convOverflow := @convOverflow R
|}.

(** Whether no package holds two tests of the same name. *)
Definition distinctNames (results : list PackageResult.t) : Prop :=
  Forall (fun p => NoDup (map TestResult.Name (PackageResult.Tests p))) results.

#[global] Instance distinctNames_dec (results : list PackageResult.t) :
  Decision (distinctNames results).
Proof. unfold distinctNames. apply _. Defined.

Lemma distinctNames_check (results : list PackageResult.t) :
  bool_decide (distinctNames results) = true -> distinctNames results.
Proof. apply bool_decide_eq_true_1. Qed.

Lemma Parse_same (R1 R2 : GoRuntime) (lines : list Line) (scanErr : option string) :
  (forall f, @convOverflow R1 f = @convOverflow R2 f) ->
  distinctNames (@Parse R1 lines scanErr).1 ->
  @Parse R1 lines scanErr = @Parse R2 lines scanErr.
Proof.
  intros Hconv Hnd. unfold Parse in *. destruct scanErr; [done|]. cbn in Hnd.
  f_equal. by apply finalResults_same.
Qed.

Lemma Parse_canon (R : GoRuntime) (lines : list Line) (scanErr : option string) :
  distinctNames (@Parse (canon R) lines scanErr).1 ->
  @Parse R lines scanErr = @Parse (canon R) lines scanErr.
Proof. intros Hnd. symmetry. by apply Parse_same. Qed.

(** Selection sort, which [sort.Slice]'s contract admits: the first
    smallest element is exchanged with the first element. *)
Fixpoint posMin (best : TestResult.t) (l : list TestResult.t) : option nat :=
  match l with
  | [] => None
  | y :: l' =>
      if less y best
      then Some (match posMin y l' with Some j => S j | None => 0 end)
      else S <$> posMin best l'
  end.

Definition swapMin (x : TestResult.t) (l : list TestResult.t) : TestResult.t * list TestResult.t :=
  match posMin x l with
  | Some i => (default x (l !! i), <[i := x]> l)
  | None => (x, l)
  end.

Fixpoint selectionSortFuel (fuel : nat) (l : list TestResult.t) : list TestResult.t :=
  match fuel, l with
  | S fuel', x :: rest =>
      let '(m, rest') := swapMin x rest in m :: selectionSortFuel fuel' rest'
  | _, _ => l
  end.

Definition selectionSort (l : list TestResult.t) : list TestResult.t :=
  selectionSortFuel (length l) l.

Lemma posMin_spec (best : TestResult.t) (l : list TestResult.t) :
  match posMin best l with
  | Some i => exists m, l !! i = Some m ∧ byName m best ∧ Forall (byName m) l
  | None => Forall (byName best) l
  end.
Proof.
  revert best. induction l as [|y l IH]; intros best; cbn [posMin]; [constructor|].
  destruct (less y best) eqn:Hy.
  - specialize (IH y). destruct (posMin y l) as [j|].
    + destruct IH as (m & Hm & Hmy & Hall). exists m. split; [done|].
      split; [|by constructor].
      apply byName_trans with y; [done|by apply less_byName].
    + exists y. split; [done|]. split; [by apply less_byName|].
      constructor; [apply byName_refl|done].
  - specialize (IH best). destruct (posMin best l) as [j|]; cbn.
    + destruct IH as (m & Hm & Hmb & Hall). exists m. split; [done|]. split; [done|].
      constructor; [|done]. by apply byName_trans with best.
    + by constructor.
Qed.

Lemma insert_lookup_Permutation (x m : TestResult.t) (l : list TestResult.t) (i : nat) :
  l !! i = Some m -> Permutation (x :: l) (m :: <[i := x]> l).
Proof.
  revert i. induction l as [|y l IH]; intros [|i] Hi; cbn in *; try done.
  - injection Hi as ->. apply perm_swap.
  - rewrite perm_swap. rewrite (IH _ Hi). apply perm_swap.
Qed.

Lemma swapMin_spec (x : TestResult.t) (l : list TestResult.t) :
  Permutation (x :: l) ((swapMin x l).1 :: (swapMin x l).2)
  ∧ Forall (byName (swapMin x l).1) (swapMin x l).2
  ∧ length (swapMin x l).2 = length l.
Proof.
  unfold swapMin. pose proof (posMin_spec x l) as Hs.
  destruct (posMin x l) as [i|]; cbn; [|done].
  destruct Hs as (m & Hm & Hmx & Hall). rewrite Hm. cbn.
  pose proof (insert_lookup_Permutation x m l i Hm) as Hp.
  split; [done|]. split; [|by rewrite length_insert].
  assert (Forall (byName m) (m :: <[i:=x]> l)) as Hf.
  { rewrite <- Hp. by constructor. }
  by apply Forall_cons in Hf as [_ ?].
Qed.

Lemma selectionSortFuel_spec (fuel : nat) (l : list TestResult.t) :
  length l <= fuel ->
  Permutation (selectionSortFuel fuel l) l ∧ StronglySorted byName (selectionSortFuel fuel l).
Proof.
  revert l. induction fuel as [|fuel IH]; intros l Hl.
  { destruct l; cbn in *; [|lia]. split; [done|constructor]. }
  destruct l as [|x rest]; cbn [selectionSortFuel]; [split; [done|constructor]|].
  destruct (swapMin_spec x rest) as (Hp & Hall & Hlen).
  destruct (swapMin x rest) as [m rest']. cbn in *.
  destruct (IH rest') as [Hp' Hs']; [lia|].
  split.
  - rewrite Hp'. by symmetry.
  - constructor; [done|]. by rewrite Hp'.
Qed.

Lemma selectionSort_perm (l : list TestResult.t) : Permutation (selectionSort l) l.
Proof. by apply selectionSortFuel_spec. Qed.

Lemma selectionSort_sorted (l : list TestResult.t) : StronglySorted byName (selectionSort l).
Proof. by apply selectionSortFuel_spec. Qed.

(** Two runtimes of one platform, with selection sort: one visits a map
    in the order of [map_to_list], the other in the opposite order. *)
Definition forwardRuntime : GoRuntime := {|
  mapRange := fun _ l => l;
  mapRange_perm := fun _ l => Permutation_refl l;
  sortSlice := selectionSort;
  sortSlice_perm := selectionSort_perm;
  sortSlice_sorted := selectionSort_sorted;
  convOverflow := amd64Overflow
|}.

Definition backwardRuntime : GoRuntime := {|
  mapRange := fun _ l => rev l;
  mapRange_perm := fun _ l => Permutation_sym (Permutation_rev l);
  sortSlice := selectionSort;
  sortSlice_perm := selectionSort_perm;
  sortSlice_sorted := selectionSort_sorted;
  convOverflow := amd64Overflow
|}.

(** *** Statuses and durations of the tests in the packages *)

Definition isTerminal (s : TestStatus) : Prop :=
  s = StatusPass ∨ s = StatusFail ∨ s = StatusSkip.

Lemma statusOfAction_terminal (action : string) : isTerminal (statusOfAction action).
Proof. unfold statusOfAction, isTerminal. repeat case_bool_decide; auto. Qed.

Section TestsOK.

Context `{GoRuntime}.

(** [D] is a property of durations that holds of 0 and of the duration
    of every pass, fail and skip event of the stream. *)
Variable D : Z -> Prop.
Hypothesis D_zero : D 0%Z.

Definition testOK (t : TestResult.t) : Prop :=
  isTerminal (TestResult.Status t) ∧ D (TestResult.Duration t).

Definition pkgOK (p : PackageResult.t) : Prop :=
  Forall testOK (PackageResult.Tests p) ∧ D (PackageResult.Duration p).

Definition lineOK (line : Line) : Prop :=
  match line with
  | EventLine event =>
      isDone (TestEvent.Action event) -> D (durationOf (TestEvent.Elapsed event))
  | EmptyLine | BadLine _ => True
  end.

Definition packagesOK (st : State) : Prop :=
  forall name p, packageResults st !! name = Some p -> pkgOK p.

Lemma packagesOK_store (st : State) (name : string) (p : PackageResult.t) :
  packagesOK st -> pkgOK p -> packagesOK (storePackage name p st).
Proof.
  intros Hst Hp k q. cbn. destruct (decide (name = k)) as [->|Hne].
  - rewrite lookup_insert_eq. by intros [= <-].
  - rewrite lookup_insert_ne by done. apply Hst.
Qed.

Lemma appendToCompleted_OK (tests tests' : list TestResult.t) (name outputLine : string) :
  appendToCompleted tests name outputLine = Some tests' ->
  Forall testOK tests -> Forall testOK tests'.
Proof.
  revert tests'. induction tests as [|t tests IH]; intros tests'; cbn; [done|].
  intros Ha Hall. apply Forall_cons in Hall as [Ht Hall].
  case_bool_decide.
  - injection Ha as <-. by constructor.
  - destruct (appendToCompleted tests name outputLine) as [tl|]; [|done].
    injection Ha as <-. constructor; [done|]. by apply IH.
Qed.

Lemma sweptPackage_OK (pkg : string) (p : PackageResult.t)
    (entries : list (string * TestResult.t)) :
  pkgOK p -> (forall e, e ∈ entries -> TestResult.Duration e.2 = 0%Z) ->
  pkgOK (sweptPackage pkg p entries).
Proof.
  intros [Htests Hd] Hzero. unfold sweptPackage.
  destruct (ofPackage pkg entries) as [|e swept] eqn:Hof; [done|].
  split; cbn [PackageResult.Tests PackageResult.Duration]; [|done].
  apply Forall_app. split; [done|].
  apply Forall_fmap, Forall_forall. intros e' He'.
  assert (e' ∈ entries) as Hin.
  { rewrite <- Hof in He'. unfold ofPackage in He'. by apply list_elem_of_filter in He' as [_ ?]. }
  split; cbn; [right; by left|]. by rewrite (Hzero _ Hin).
Qed.

Lemma finishedPackage_OK (pkg : string) (p : PackageResult.t)
    (entries : list (string * TestResult.t)) :
  pkgOK p -> (forall e, e ∈ entries -> TestResult.Duration e.2 = 0%Z) ->
  pkgOK (finishedPackage pkg p entries).
Proof.
  intros [Htests Hd] Hzero. unfold finishedPackage.
  destruct (runningOf pkg entries) as [|e swept] eqn:Hof; [done|].
  split; cbn [PackageResult.Tests PackageResult.Duration]; [|done].
  apply Forall_app. split; [done|].
  apply Forall_fmap, Forall_forall. intros e' He'.
  assert (e' ∈ entries) as Hin.
  { rewrite <- Hof in He'. unfold runningOf in He'. by apply list_elem_of_filter in He' as [_ ?]. }
  split; cbn; [right; by left|]. by rewrite (Hzero _ Hin).
Qed.

Lemma placeholder_OK (event : TestEvent.t) (status : TestStatus) (p : PackageResult.t) :
  pkgOK p -> pkgOK (placeholder event status p).
Proof.
  intros [Htests Hd]. unfold placeholder. destruct (_ && _); [|done].
  destruct (classifySummary _ _) as [[] isBuildFailed]; cbn.
  - split; cbn; [|done]. apply Forall_app. split; [done|].
    constructor; [|done]. split; cbn; [right; by right|done].
  - destruct (isBuildFailed && _); [|done].
    split; cbn; [|done]. apply Forall_app. split; [done|].
    constructor; [|done]. split; cbn; [right; by left|done].
Qed.

Lemma tracked_durations (st : State) (entries : list (string * TestResult.t)) :
  Inv st -> Permutation entries (map_to_list (currentTestResults st)) ->
  forall e, e ∈ entries -> TestResult.Duration e.2 = 0%Z.
Proof.
  intros HI Hp [k t] Hin. rewrite Hp in Hin. apply elem_of_map_to_list in Hin.
  by destruct (inv_current _ HI _ _ Hin) as (_ & ? & _).
Qed.

Lemma Dispatch_OK (st : State) (event : TestEvent.t) (pkgResult : PackageResult.t)
    (st' : State) :
  Inv st -> packagesOK st -> pkgOK pkgResult -> lineOK (EventLine event) ->
  Dispatch st event pkgResult st' -> packagesOK st'.
Proof.
  intros HI Hst Hp Hev HD. destruct Hp as [Htests Hd]. cbn in Hev.
  destruct HD as [Ha Ht|Ha Ht|Ha Ht|tr Ha Ht Hk|tests Ha Ht Hk Hap|Ha Ht Hk Hap
                 |tr Ha Ht Hk|Ha Ht Hk|Ha Ht|Ha1 Ha2 Ha3]; try done.
  - by apply packagesOK_store.
  - by apply packagesOK_store.
  - apply packagesOK_store; [done|]. split; [|done].
    by apply (appendToCompleted_OK _ _ _ _ Hap).
  - by apply packagesOK_store.
  - apply (packagesOK_store st); [done|]. split; [|done]. cbn.
    apply Forall_app. split; [done|]. constructor; [|done].
    split; cbn; [apply statusOfAction_terminal|by apply Hev].
  - apply (packagesOK_store st); [done|]. split; [|done]. cbn.
    apply Forall_app. split; [done|]. constructor; [|done].
    split; cbn; [apply statusOfAction_terminal|by apply Hev].
  - apply (packagesOK_store st); [done|].
    apply placeholder_OK, sweptPackage_OK.
    + split; cbn; [done|by apply Hev].
    + apply (tracked_durations st); [done|apply mapRange_perm].
Qed.

Lemma Ensured_OK (st : State) (event : TestEvent.t) (st' : State)
    (event' : TestEvent.t) (pkgResult : PackageResult.t) :
  packagesOK st -> Ensured st event st' event' pkgResult ->
  packagesOK st' ∧ pkgOK pkgResult
  ∧ TestEvent.Action event' = TestEvent.Action event
  ∧ TestEvent.Elapsed event' = TestEvent.Elapsed event.
Proof.
  intros Hst He. assert (forall name, pkgOK (newPackage name)) as Hnew.
  { intros name. split; cbn; [constructor|done]. }
  destruct He as [p Hp|Hnone Hpkg Htest Hact|Hnone Hpkg].
  - split; [done|]. split; [by apply (Hst _ _ Hp)|done].
  - split; [|done]. unfold createPackage. cbn.
    destruct (containsString _ _); by apply (packagesOK_store st).
  - split; [|done]. unfold createPackage. cbn.
    destruct (containsString _ _); by apply (packagesOK_store st).
Qed.

Lemma onBadLine_OK (st : State) (raw : string) : packagesOK st -> packagesOK (onBadLine st raw).
Proof.
  intros Hst. unfold onBadLine. destruct (last _) as [name|]; [|done].
  destruct (packageResults st !! name) as [p|] eqn:Hp; [|done].
  apply packagesOK_store; [done|]. apply (Hst _ _ Hp).
Qed.

Lemma Step_OK (st : State) (line : Line) (st' : State) :
  Inv st -> packagesOK st -> lineOK line -> Step st line st' -> packagesOK st'.
Proof.
  intros HI Hst Hline HS. destruct HS as [|raw|event|event st1 event' p st' He HD]; try done.
  - by apply onBadLine_OK.
  - destruct (Ensured_Inv _ _ _ _ _ (Inv_lineNumber _ _ HI) He) as (HI1 & Hp & _).
    destruct (Ensured_OK (with_lineNumber (S (lineNumber st)) st) _ _ _ _ Hst He)
      as (Hst1 & HpOK & Hact & Hel).
    eapply Dispatch_OK; [exact HI1|exact Hst1|exact HpOK| |exact HD].
    cbn. rewrite Hact, Hel. exact Hline.
Qed.

Lemma fold_OK (lines : list Line) (st : State) :
  Inv st -> packagesOK st -> Forall lineOK lines ->
  packagesOK (fold_left processLine lines st).
Proof.
  revert st. induction lines as [|line lines IH]; intros st HI Hst Hall; cbn; [done|].
  apply Forall_cons in Hall as [Hline Hall].
  pose proof (processLine_cases st line) as HS.
  apply IH; [by eapply Step_Inv|by eapply Step_OK|done].
Qed.

Lemma finalResults_OK (lines : list Line) :
  Forall lineOK lines -> Forall pkgOK (finalResults lines).
Proof.
  intros Hall. apply Forall_forall. intros p Hp.
  apply finalResults_elem in Hp as (name & p0 & Hp0 & ->).
  assert (packagesOK (scanLoop lines)) as Hst.
  { apply fold_OK; [apply Inv_init|done|done]. }
  pose proof (finishedPackage_OK name p0
                (mapRange 0 (map_to_list (currentTestResults (scanLoop lines))))
                (Hst _ _ Hp0)) as [Htests Hd].
  { apply (tracked_durations (scanLoop lines)); [apply scanLoop_Inv|apply mapRange_perm]. }
  unfold finalOf. split; cbn; [|done]. by rewrite sortSlice_perm.
Qed.

End TestsOK.

(** *** Line numbers *)

Lemma Ensured_fields (st : State) (event : TestEvent.t) (st' : State)
    (event' : TestEvent.t) (pkgResult : PackageResult.t) :
  Ensured st event st' event' pkgResult ->
  currentTestResults st' = currentTestResults st ∧ lineNumber st' = lineNumber st
  ∧ TestEvent.Action event' = TestEvent.Action event
  ∧ TestEvent.Test event' = TestEvent.Test event.
Proof.
  destruct 1; [done| |]; unfold createPackage; cbn; by destruct (containsString _ _).
Qed.

Lemma onBadLine_lineNumber (st : State) (raw : string) :
  lineNumber (onBadLine st raw) = lineNumber st.
Proof.
  unfold onBadLine. destruct (last _); [|done]. by destruct (packageResults st !! _).
Qed.

Lemma Step_lineNumber `{GoRuntime} (st : State) (line : Line) (st' : State) :
  Step st line st' -> lineNumber st' = S (lineNumber st).
Proof.
  destruct 1 as [|raw|event|event st1 event' p st' He HD]; try done.
  - by rewrite onBadLine_lineNumber.
  - apply Dispatch_ordered in HD as [_ ->]. by apply Ensured_fields in He as (_ & -> & _).
Qed.

Lemma fold_lineNumber `{GoRuntime} (lines : list Line) (st : State) :
  lineNumber (fold_left processLine lines st) = lineNumber st + length lines.
Proof.
  revert st. induction lines as [|line lines IH]; intros st; cbn; [lia|].
  rewrite IH, (Step_lineNumber st line _ (processLine_cases st line)). lia.
Qed.

Lemma scanLoop_lineNumber `{GoRuntime} (lines : list Line) :
  lineNumber (scanLoop lines) = length lines.
Proof. unfold scanLoop. by rewrite fold_lineNumber. Qed.

Lemma scanLoop_app `{GoRuntime} (l1 l2 : list Line) :
  scanLoop (l1 ++ l2) = fold_left processLine l2 (scanLoop l1).
Proof. apply fold_left_app. Qed.

(** *** A test that is still tracked when the stream ends *)

(** A line that ends the tracking of test [T] of package [P], or starts
    it anew: a run, pass, fail or skip event under the same key, or a
    pass, fail or skip event of the package. *)
Definition hitsKey (P T : string) (line : Line) : Prop :=
  match line with
  | EventLine event =>
      (TestEvent.Test event ≠ ""
       ∧ TestEvent.Package event ++ "/" ++ TestEvent.Test event = P ++ "/" ++ T
       ∧ (TestEvent.Action event = "run" ∨ isDone (TestEvent.Action event)))
      ∨ (TestEvent.Test event = "" ∧ TestEvent.Package event = P
         ∧ isDone (TestEvent.Action event))
  | EmptyLine | BadLine _ => False
  end.

Definition tracking (P T : string) (st : State) (tr : TestResult.t) : Prop :=
  currentTestResults st !! (P ++ "/" ++ T) = Some tr
  ∧ TestResult.PackageName tr = P ∧ TestResult.Name tr = T.

Lemma run_tracking `{GoRuntime} (st : State) (event : TestEvent.t) :
  Inv st -> TestEvent.Action event = "run" ->
  TestEvent.Package event ≠ "" -> TestEvent.Test event ≠ "" ->
  tracking (TestEvent.Package event) (TestEvent.Test event)
    (processLine st (EventLine event))
    (TestResult.mk (TestEvent.Package event) (TestEvent.Test event) StatusRunning [] 0).
Proof.
  intros HI Ha Hp Ht. unfold tracking. split; [|done].
  cbn [processLine]. unfold processEvent, ensurePackage.
  cbn [packageResults with_lineNumber].
  destruct (packageResults st !! TestEvent.Package event) as [p|].
  - unfold dispatch. rewrite bool_decide_eq_true_2 by done.
    unfold onRun, testKeyOf. rewrite !bool_decide_eq_false_2 by done.
    cbn. by rewrite lookup_insert_eq.
  - rewrite (bool_decide_eq_false_2 (TestEvent.Package event = "")) by done.
    cbn [andb]. unfold createPackage. lazy beta iota zeta.
    unfold dispatch. rewrite bool_decide_eq_true_2 by done.
    unfold onRun, testKeyOf. rewrite !bool_decide_eq_false_2 by done.
    cbn. by rewrite lookup_insert_eq.
Qed.

Lemma isDone_not_run (action : string) : isDone action -> action ≠ "run" ∧ action ≠ "output".
Proof. intros [-> | [-> | ->]]; done. Qed.



Lemma filter_unique {A : Type} (f : A -> string) (l : list A) (x : A) :
  NoDup (map f l) -> x ∈ l -> filter (fun y => f y = f x) l = [x].
Proof.
  induction l as [|y l IH]; cbn [map]; intros Hnd Hin; [by apply elem_of_nil in Hin|].
  apply NoDup_cons in Hnd as [Hnotin Hnd]. rewrite filter_cons.
  apply elem_of_cons in Hin as [->|Hin].
  - rewrite decide_True by done. f_equal. apply filter_none.
    intros z Hz Heq. apply Hnotin. rewrite <- Heq. apply list_elem_of_fmap. by exists z.
  - rewrite decide_False; [by apply IH|].
    intros Heq. apply Hnotin. rewrite Heq. apply list_elem_of_fmap. by exists x.
Qed.

(** The package named [name] occurs once in the returned list. *)
Lemma finalResults_package `{GoRuntime} (lines : list Line) (name : string)
    (p0 : PackageResult.t) :
  packageResults (scanLoop lines) !! name = Some p0 ->
  filter (fun q => PackageResult.PackageName q = name) (finalResults lines)
  = [finalOf (scanLoop lines) name p0].
Proof.
  intros Hp0. pose proof (scanLoop_Inv lines) as HI.
  assert (PackageResult.PackageName (finalOf (scanLoop lines) name p0) = name) as Hname.
  { unfold finalOf. cbn. rewrite finishedPackage_name. by apply (inv_name _ HI). }
  assert (finalOf (scanLoop lines) name p0 ∈ finalResults lines) as Helem.
  { assert (name ∈ orderedPackageNames (scanLoop lines)) as Hin.
    { apply (inv_dom _ HI). by eexists. }
    pose proof (finalResults_Forall2 lines) as HF.
    induction HF as [|n q names ps (q0 & Hq0 & ->) _ IH]; [by apply elem_of_nil in Hin|].
    apply elem_of_cons in Hin as [->|Hin]; [|right; by apply IH].
    apply elem_of_cons. left. congruence. }
  pose proof (filter_unique PackageResult.PackageName (finalResults lines)
                (finalOf (scanLoop lines) name p0)) as Hf.
  rewrite Hname in Hf. apply Hf; [|done].
  rewrite finalResults_names. apply (inv_nodup _ HI).
Qed.


(** *** The bucket for output without package and test *)

Definition isOrphanOutput (event : TestEvent.t) : Prop :=
  TestEvent.Package event = "" ∧ TestEvent.Test event = ""
  ∧ TestEvent.Action event = "output".

Definition isOrphanOutputLine (line : Line) : Prop :=
  match line with
  | EventLine event => isOrphanOutput event
  | EmptyLine | BadLine _ => False
  end.

(** The line is an event that names the bucket as its package. *)
Definition namesBucket (line : Line) : Prop :=
  match line with
  | EventLine event => TestEvent.Package event = orphanedOutputPackage
  | EmptyLine | BadLine _ => False
  end.

(** No tracked test belongs to the bucket. *)
Definition bucketUntracked (st : State) : Prop :=
  forall key t, currentTestResults st !! key = Some t ->
                TestResult.PackageName t ≠ orphanedOutputPackage.

(** The bucket exists, untouched but for its summary, which starts with
    [first]. *)
Definition bucketHolds (first : string) (st : State) : Prop :=
  exists p rest,
    packageResults st !! orphanedOutputPackage = Some p
    ∧ PackageResult.Status p = StatusUnknown
    ∧ PackageResult.Tests p = []
    ∧ PackageResult.SummaryOutput p = first :: rest.

Lemma Dispatch_other_package `{GoRuntime} (st : State) (event : TestEvent.t)
    (pkgResult : PackageResult.t) (st' : State) (name : string) :
  Dispatch st event pkgResult st' -> name ≠ TestEvent.Package event ->
  packageResults st' !! name = packageResults st !! name.
Proof. intros HD Hne. destruct HD; cbn; try done; by rewrite lookup_insert_ne. Qed.

Lemma Dispatch_untracked `{GoRuntime} (st : State) (event : TestEvent.t)
    (pkgResult : PackageResult.t) (st' : State) :
  bucketUntracked st -> TestEvent.Package event ≠ orphanedOutputPackage ->
  Dispatch st event pkgResult st' -> bucketUntracked st'.
Proof.
  intros Hst Hne HD.
  destruct HD as [Ha Ht|Ha Ht|Ha Ht|tr Ha Ht Hk|tests Ha Ht Hk Hap|Ha Ht Hk Hap
                 |tr Ha Ht Hk|Ha Ht Hk|Ha Ht|Ha1 Ha2 Ha3]; try done; intros key t; cbn.
  - destruct (decide (TestEvent.Package event ++ "/" ++ TestEvent.Test event = key)) as [->|Hk].
    + rewrite lookup_insert_eq. by intros [= <-].
    + rewrite lookup_insert_ne by done. apply Hst.
  - destruct (decide (TestEvent.Package event ++ "/" ++ TestEvent.Test event = key)) as [->|Hk'].
    + rewrite lookup_insert_eq. intros [= <-]. cbn. by apply (Hst _ _ Hk).
    + rewrite lookup_insert_ne by done. apply Hst.
  - intros [_ Hl]%lookup_delete_Some. by apply (Hst _ _ Hl).
  - intros [_ Hl]%lookup_delete_Some. by apply (Hst _ _ Hl).
  - intros [Hl _]%map_lookup_filter_Some. by apply (Hst _ _ Hl).
Qed.

Lemma Dispatch_orphan_output `{GoRuntime} (st : State) (event : TestEvent.t)
    (pkgResult : PackageResult.t) (st' : State) :
  TestEvent.Action event = "output" -> TestEvent.Test event = "" ->
  Dispatch st event pkgResult st' ->
  st' = storePackage (TestEvent.Package event)
          (PackageResult.with_SummaryOutput
             (PackageResult.SummaryOutput pkgResult ++
              [TrimRightNewlines (TestEvent.Output event)]) pkgResult) st.
Proof.
  intros Ha Ht HD.
  destruct HD as [Ha' Ht'|Ha' Ht'|Ha' Ht'|tr Ha' Ht' Hk|tests Ha' Ht' Hk Hap|Ha' Ht' Hk Hap
                 |tr Ha' Ht' Hk|Ha' Ht' Hk|Ha' Ht'|Ha1 Ha2 Ha3]; try congruence.
  all: by destruct (isDone_not_run _ Ha').
Qed.

Lemma Step_untracked `{GoRuntime} (st : State) (line : Line) (st' : State) :
  bucketUntracked st -> ¬ namesBucket line -> Step st line st' -> bucketUntracked st'.
Proof.
  intros Hst Hn HS. destruct HS as [|raw|event|event st1 event' p st' He HD]; try done.
  - unfold onBadLine. cbn. destruct (last _); [|done].
    by destruct (packageResults st !! _).
  - pose proof (Ensured_fields _ _ _ _ _ He) as (Hcur & _ & Hact & Htest).
    assert (bucketUntracked st1) as Hst1.
    { intros key t. rewrite Hcur. apply Hst. }
    destruct He as [q Hq|Hnone Hpkg Ht Ha|Hnone Hpkg].
    + by apply (Dispatch_untracked _ _ _ _ Hst1 Hn HD).
    + rewrite (Dispatch_orphan_output _ (TestEvent.with_Package orphanedOutputPackage event)
                 _ _ Ha Ht HD). exact Hst1.
    + by apply (Dispatch_untracked _ _ _ _ Hst1 Hn HD).
Qed.

Lemma fold_untracked `{GoRuntime} (lines : list Line) (st : State) :
  bucketUntracked st -> Forall (fun line => ¬ namesBucket line) lines ->
  bucketUntracked (fold_left processLine lines st).
Proof.
  revert st. induction lines as [|line lines IH]; intros st Hst Hall; cbn; [done|].
  apply Forall_cons in Hall as [Hline Hall].
  apply IH; [|done]. by apply (Step_untracked st line _ Hst Hline), processLine_cases.
Qed.

Lemma Step_bucket `{GoRuntime} (first : string) (st : State) (line : Line) (st' : State) :
  bucketHolds first st -> ¬ namesBucket line -> ¬ isOrphanOutputLine line ->
  Step st line st' -> bucketHolds first st'.
Proof.
  intros (p & rest & Hp & Hs & Ht & Hsum) Hn Ho HS.
  destruct HS as [|raw|event|event st1 event' q st' He HD].
  - by exists p, rest.
  - unfold onBadLine. cbn.
    destruct (last _) as [name|]; [|by exists p, rest].
    destruct (packageResults st !! name) as [q|] eqn:Hq; [|by exists p, rest].
    destruct (decide (name = orphanedOutputPackage)) as [->|Hne].
    + assert (q = p) as -> by congruence.
      eexists _, _. cbn. rewrite lookup_insert_eq. split; [done|]. cbn.
      rewrite Hsum. done.
    + exists p, rest. cbn. by rewrite lookup_insert_ne.
  - by exists p, rest.
  - cbn in Hn, Ho.
    assert (packageResults st1 !! orphanedOutputPackage = Some p
            ∧ TestEvent.Package event' = TestEvent.Package event) as [Hp1 Hpk].
    { destruct He as [q0 Hq0|Hnone Hpkg Htest Hact|Hnone Hpkg]; [done| |].
      - exfalso. apply Ho. by split.
      - split; [|done]. unfold createPackage. cbn.
        destruct (containsString _ _); cbn; by rewrite lookup_insert_ne. }
    exists p, rest. split; [|done].
    rewrite (Dispatch_other_package _ _ _ _ orphanedOutputPackage HD); [done|].
    rewrite Hpk. congruence.
Qed.

Lemma fold_bucket `{GoRuntime} (first : string) (lines : list Line) (st : State) :
  bucketHolds first st ->
  Forall (fun line => ¬ namesBucket line) lines ->
  Forall (fun line => ¬ isOrphanOutputLine line) lines ->
  bucketHolds first (fold_left processLine lines st).
Proof.
  revert st. induction lines as [|line lines IH]; intros st Hst Hn Ho; cbn; [done|].
  apply Forall_cons in Hn as [Hn1 Hn]. apply Forall_cons in Ho as [Ho1 Ho].
  apply IH; [|done..]. by apply (Step_bucket first st line _ Hst Hn1 Ho1), processLine_cases.
Qed.

Lemma orphan_recorded `{GoRuntime} (st : State) (event : TestEvent.t) :
  Inv st -> isOrphanOutput event ->
  bucketHolds (TrimRightNewlines (TestEvent.Output event)) (processLine st (EventLine event)).
Proof.
  intros HI (Hp & Ht & Ha).
  pose proof (processLine_cases st (EventLine event)) as HS.
  inversion HS as [| |ev Hnone Hpkg Hno|ev st1 event' q st' He HD]; subst.
  { exfalso. apply Hno. by split. }
  destruct He as [q0 Hq0|Hnone _ _ _|Hnone Hpkg].
  - cbn in Hq0. rewrite Hp, (inv_noempty _ HI) in Hq0. done.
  - rewrite (Dispatch_orphan_output _ (TestEvent.with_Package orphanedOutputPackage event)
               _ _ Ha Ht HD). cbn.
    eexists _, _. unfold storePackage at 1. cbn. rewrite lookup_insert_eq. done.
  - done.
Qed.

(** What the returned list holds for the bucket. *)
Lemma bucket_at_end `{GoRuntime} (first : string) (lines : list Line) :
  bucketHolds first (scanLoop lines) -> bucketUntracked (scanLoop lines) ->
  exists p rest,
    filter (fun q => PackageResult.PackageName q = orphanedOutputPackage) (finalResults lines)
      = [p]
    ∧ PackageResult.Status p = StatusUnknown
    ∧ PackageResult.Tests p = []
    ∧ PackageResult.SummaryOutput p = first :: rest.
Proof.
  intros (p & rest & Hp & Hs & Ht & Hsum) Hun.
  exists (finalOf (scanLoop lines) orphanedOutputPackage p), rest.
  split; [by apply finalResults_package|].
  unfold finalOf, finishedPackage.
  assert (runningOf orphanedOutputPackage
            (mapRange 0 (map_to_list (currentTestResults (scanLoop lines)))) = []) as ->.
  { apply filter_none. intros [k t] Hin [_ Hpkg].
    rewrite mapRange_perm in Hin. apply elem_of_map_to_list in Hin.
    by apply (Hun _ _ Hin). }
  cbn. rewrite Ht. split; [done|]. split; [|done].
  apply Permutation_nil. symmetry. apply sortSlice_perm.
Qed.

(** *** Sorts that keep equal names in order *)

Definition stableSort (sort : list TestResult.t -> list TestResult.t) : Prop :=
  forall l name, sameNamed name (sort l) = sameNamed name l.

Lemma insertSorted_sameNamed (x : TestResult.t) (l : list TestResult.t) (name : string) :
  sameNamed name (insertSorted x l) = sameNamed name (x :: l).
Proof.
  unfold sameNamed. induction l as [|y l IH]; cbn [insertSorted]; [done|].
  destruct (less y x) eqn:Hlt; [|done].
  rewrite filter_cons, IH, !filter_cons.
  destruct (decide (TestResult.Name y = name)) as [Hy|Hy]; [|done].
  destruct (decide (TestResult.Name x = name)) as [Hx|Hx]; [|done].
  exfalso. unfold less in Hlt. rewrite Hy, Hx, ltb_irrefl in Hlt. done.
Qed.

Lemma insertionSort_stable : stableSort insertionSort.
Proof.
  intros l name. induction l as [|x l IH]; cbn [insertionSort]; [done|].
  rewrite insertSorted_sameNamed. unfold sameNamed in *. by rewrite !filter_cons, IH.
Qed.

(** Two sorted lists with the same tests under each name are equal. *)
Lemma sorted_testsSim_eq (l1 l2 : list TestResult.t) :
  StronglySorted byName l1 -> StronglySorted byName l2 -> testsSim l1 l2 -> l1 = l2.
Proof.
  revert l2. induction l1 as [|a l1 IH]; intros l2 Hs1 Hs2 Hsim.
  { symmetry. by apply (testsSim_nil [] l2). }
  destruct l2 as [|b l2]; [by apply (testsSim_nil _ _ (testsSim_sym _ _ Hsim))|].
  apply StronglySorted_inv in Hs1 as [Hs1 Ha]. apply StronglySorted_inv in Hs2 as [Hs2 Hb].
  rewrite Forall_forall in Ha, Hb.
  pose proof (Hsim (TestResult.Name a)) as Hna. pose proof (Hsim (TestResult.Name b)) as Hnb.
  unfold sameNamed in Hna, Hnb. rewrite !filter_cons in Hna, Hnb.
  rewrite decide_True in Hna by done. rewrite (decide_True (P := TestResult.Name b = _)) in Hnb by done.
  assert (TestResult.Name a = TestResult.Name b) as Hab.
  { destruct (decide (TestResult.Name a = TestResult.Name b)) as [|Hne]; [done|].
    rewrite decide_False in Hna by congruence.
    apply byName_antisym.
    - apply Ha. assert (b ∈ filter (fun t => TestResult.Name t = TestResult.Name b) l1) as Hin
        by (rewrite Hnb; left).
      by apply list_elem_of_filter in Hin as [_ ?].
    - apply Hb. assert (a ∈ filter (fun t => TestResult.Name t = TestResult.Name a) l2) as Hin
        by (rewrite <- Hna; left).
      by apply list_elem_of_filter in Hin as [_ ?]. }
  rewrite decide_True in Hna by done. injection Hna as <- Htail.
  f_equal. apply IH; try done.
  intros name. specialize (Hsim name). unfold sameNamed in *.
  rewrite !filter_cons in Hsim.
  destruct (decide (TestResult.Name a = name)); [by injection Hsim|done].
Qed.

Section TwoStableRuns.

Context (R1 R2 : GoRuntime).
Hypothesis same_platform : forall f, @convOverflow R1 f = @convOverflow R2 f.
Hypothesis stable1 : stableSort (@sortSlice R1).
Hypothesis stable2 : stableSort (@sortSlice R2).

Lemma finalOf_stable (s1 s2 : State) (name : string) (p1 p2 : PackageResult.t) :
  Inv s1 -> stateSim s1 s2 -> pkgSim p1 p2 ->
  @finalOf R1 s1 name p1 = @finalOf R2 s2 name p2.
Proof.
  intros HI Hs Hp. unfold finalOf. rewrite <- (ss_current _ _ Hs).
  pose proof (finishedPackage_sim name p1 p2
                (@mapRange R1 0 (map_to_list (currentTestResults s1)))
                (@mapRange R2 0 (map_to_list (currentTestResults s1))) Hp) as Hf.
  destruct Hf as [Hn Hst Hsum Hd Ht].
  - by rewrite !mapRange_perm.
  - apply (runningOf_names_NoDup s1); [done|apply mapRange_perm].
  - unfold PackageResult.with_Tests. rewrite Hn, Hst, Hsum, Hd. f_equal.
    apply sorted_testsSim_eq; try apply sortSlice_sorted.
    intros other. by rewrite stable1, stable2.
Qed.

Lemma finalResults_stable (lines : list Line) :
  @finalResults R1 lines = @finalResults R2 lines.
Proof.
  rewrite !finalResults_eq.
  pose proof (scanLoop_sim R1 R2 same_platform lines) as Hs.
  pose proof (@scanLoop_Inv R1 lines) as HI.
  rewrite <- (ss_ordered _ _ Hs).
  induction (orderedPackageNames (@scanLoop R1 lines)) as [|name names IH]; cbn; [done|].
  destruct (ss_packages _ _ Hs name) as [p1 p2 Hp|]; cbn; [|exact IH].
  f_equal; [|exact IH]. by apply finalOf_stable.
Qed.

End TwoStableRuns.

End ParseProofs.

(** * The properties of the specification, C1 to C10 *)

Import parser ParseProofs.

Lemma prefix_refl (s : string) : String.prefix s s = true.
Proof.
  induction s as [|c s IH]; cbn; [done|]. by destruct (ascii_dec c c).
Qed.

Lemma Contains_refl (s : string) : gostrings.Contains s s = true.
Proof. destruct s; cbn [gostrings.Contains]; by rewrite prefix_refl. Qed.

Lemma Contains_app_r (a b : string) : gostrings.Contains (a ++ b) b = true.
Proof.
  induction a as [|c a IH]; cbn [String.append].
  - apply Contains_refl.
  - change (String.prefix b (String c (a ++ b)) || gostrings.Contains (a ++ b) b = true).
    rewrite IH. apply orb_true_r.
Qed.

(** The order in which [less] may leave two neighbours, as an order on
    names. *)
Definition nameLe (a b : TestResult.t) : Prop :=
  String.leb (TestResult.Name a) (TestResult.Name b) = true.

Lemma byName_nameLe (a b : TestResult.t) : byName a b -> nameLe a b.
Proof.
  unfold byName, nameLe, less, String.ltb, String.leb.
  rewrite (String.compare_antisym (TestResult.Name a) (TestResult.Name b)).
  by destruct (String.compare (TestResult.Name b) (TestResult.Name a)).
Qed.

Lemma StronglySorted_nameLe (l : list TestResult.t) :
  StronglySorted byName l -> StronglySorted nameLe l.
Proof.
  induction 1 as [|a l Hs IH Hall]; constructor; [done|].
  eapply Forall_impl; [exact Hall|]. intros b. apply byName_nameLe.
Qed.

(** ** C1 *)

(** A test binary whose [TestMain] exits with status 0 although a test
    failed: the test reports [fail], the package reports [pass]. *)
Definition failedTestPassingPackage : list Line :=
  [ev "run" "p" "T" 0 ""; ev "fail" "p" "T" 0 ""; ev "pass" "p" "" 0 ""].

(** The same run cut off before the package reports. *)
Definition failedTestNoPackageEvent : list Line :=
  [ev "run" "p" "T" 0 ""; ev "fail" "p" "T" 0 ""].

(** C1 (the code at the failing inputs): test T of package p is
    finalized with status fail; the package's final status is PASS when
    its own event says pass, and UNKNOWN when it has no event, not FAIL. *)
Theorem C1_failed_test_does_not_fail_package `{GoRuntime} :
  Parse failedTestPassingPackage None =
    ([PackageResult.mk "p" StatusPass []
        [TestResult.mk "p" "T" StatusFail [] 0] 0], None)
  ∧ Parse failedTestNoPackageEvent None =
    ([PackageResult.mk "p" StatusUnknown []
        [TestResult.mk "p" "T" StatusFail [] 0] 0], None).
Proof.
  split.
  - rewrite Parse_canon; [by vm_compute|].
    apply distinctNames_check. by vm_compute.
  - rewrite Parse_canon; [by vm_compute|].
    apply distinctNames_check. by vm_compute.
Qed.

(** ** C2 *)

(** One test event whose elapsed time is negative. *)
Definition negativeElapsed : list Line := [ev "pass" "p" "T" (-1) ""].

(** C2 as stated fails: the test that [Parse] returns for a pass event
    with elapsed -1 has the duration -1000000000. *)
Lemma C2_counterexample :
  ¬ Forall (fun p => Forall (fun t => isTerminal (TestResult.Status t)
                                      ∧ (0 <= TestResult.Duration t)%Z)
                       (PackageResult.Tests p))
      (Parse (H := stableRuntime) negativeElapsed None).1.
Proof.
  assert (Parse (H := stableRuntime) negativeElapsed None =
          ([PackageResult.mk "p" StatusUnknown []
              [TestResult.mk "p" "T" StatusPass [] (-1000000000)] 0], None)) as ->
    by by vm_compute.
  cbn. intros Hall.
  apply Forall_cons in Hall as [Hp _]. apply Forall_cons in Hp as [[_ Hd] _].
  cbn in Hd. lia.
Qed.

(** C2 (amended): every test in the list that [Parse] returns has the
    status PASS, FAIL or SKIP; its duration is not negative when no
    pass, fail or skip event of the stream has an elapsed time that
    converts to a negative duration. *)
Theorem C2_terminal_status_and_duration `{GoRuntime}
    (lines : list Line) (scanErr : option string) :
  Forall (fun p => Forall (fun t => isTerminal (TestResult.Status t)) (PackageResult.Tests p))
    (Parse lines scanErr).1
  ∧ (Forall (lineOK (fun d => (0 <= d)%Z)) lines ->
     Forall (fun p => Forall (fun t => (0 <= TestResult.Duration t)%Z) (PackageResult.Tests p))
       (Parse lines scanErr).1).
Proof.
  unfold Parse. destruct scanErr; cbn [fst]; [by split; [constructor|constructor]|].
  split.
  - pose proof (finalResults_OK (fun _ => True) I lines) as Hall.
    eapply Forall_impl; [apply Hall|].
    + apply Forall_forall. intros [| |event] _; cbn; done.
    + intros p [Hp _]. eapply Forall_impl; [exact Hp|]. by intros t [? _].
  - intros Hlines.
    pose proof (finalResults_OK (fun d => (0 <= d)%Z) (Z.le_refl 0) lines Hlines) as Hall.
    eapply Forall_impl; [apply Hall|].
    intros p [Hp _]. eapply Forall_impl; [exact Hp|]. by intros t [_ ?].
Qed.

(** A test that passes and its package. *)
Definition passingStream : list Line :=
  [ev "run" "pkgA" "TestX" 0 ""; ev "output" "pkgA" "TestX" 0 "ok";
   ev "pass" "pkgA" "TestX" 0.5 ""; ev "pass" "pkgA" "" 0.5 ""].

(** The theorem at [passingStream], whose two pass events have the
    elapsed time 0.5. *)
Lemma C2_terminal_status_and_duration_witness :
  Forall (lineOK (H := stableRuntime) (fun d => (0 <= d)%Z)) passingStream
  ∧ Forall (fun p => Forall (fun t => (0 <= TestResult.Duration t)%Z) (PackageResult.Tests p))
      (Parse (H := stableRuntime) passingStream None).1.
Proof.
  assert (Forall (lineOK (H := stableRuntime) (fun d => (0 <= d)%Z)) passingStream) as Hlines.
  { repeat constructor; intros _; vm_compute; discriminate. }
  split; [exact Hlines|].
  exact (proj2 (C2_terminal_status_and_duration (H := stableRuntime) passingStream None) Hlines).
Defined.

(** ** C3 *)





Definition incompleteLine : string :=
  "Test did not complete (process might have crashed, timed out, or was terminated).".



(** ** C4 *)

(** C4 as stated fails: a line that does not decode, before any package
    is known, leaves the aggregator's variables as they were but for the
    line counter, and the returned list is empty; there is no bucket. *)
Lemma C4_counterexample :
  scanLoop (H := stableRuntime) [BadLine "not json"] = with_lineNumber 1 initState
  ∧ Parse (H := stableRuntime) [BadLine "not json"] None = ([], None).
Proof. split; by vm_compute. Qed.

(** C4 (amended): a line that does not decode is appended, as
    "[Malformed JSON line N]: " followed by the line, to the summary of
    the package that was first seen last; if no package was seen yet only
    the line counter changes.  The lines after it are processed from that
    state. *)
Theorem C4_malformed_line `{GoRuntime} (l1 : list Line) (raw : string) (l2 : list Line) :
  scanLoop (l1 ++ BadLine raw :: l2)
    = fold_left processLine l2 (processLine (scanLoop l1) (BadLine raw))
  ∧ match last (firstSeen (omap packageOf l1)) with
    | Some name =>
        exists pkg,
          packageResults (scanLoop l1) !! name = Some pkg
          ∧ processLine (scanLoop l1) (BadLine raw)
            = storePackage name
                (PackageResult.with_SummaryOutput
                   (PackageResult.SummaryOutput pkg ++
                    ["[Malformed JSON line " ++ gostrings.itoa (S (length l1)) ++ "]: " ++ raw])
                   pkg)
                (with_lineNumber (S (length l1)) (scanLoop l1))
    | None => processLine (scanLoop l1) (BadLine raw)
              = with_lineNumber (S (length l1)) (scanLoop l1)
    end.
Proof.
  split; [by rewrite scanLoop_app|].
  pose proof (scanLoop_Inv l1) as HI.
  rewrite <- scanLoop_ordered. cbn [processLine]. unfold onBadLine.
  cbn [orderedPackageNames packageResults lineNumber with_lineNumber].
  rewrite scanLoop_lineNumber.
  destruct (last (orderedPackageNames (scanLoop l1))) as [name|] eqn:Hlast; [|done].
  assert (is_Some (packageResults (scanLoop l1) !! name)) as [pkg Hpkg].
  { apply (inv_dom _ HI). apply last_Some in Hlast as [l' ->].
    apply elem_of_app. right. by left. }
  exists pkg. by rewrite Hpkg.
Qed.

(** ** C5 *)

Definition buildFailedStream : list Line :=
  [ev "run" "pkgB" "" 0 ""; ev "output" "pkgB" "" 0 "# build failed"; ev "fail" "pkgB" "" 0 ""].

(** C5: for the stream run pkgB, output pkgB "# build failed", fail pkgB
    with elapsed 0, [Parse] returns the one package pkgB, with status
    FAIL, one placeholder test with status FAIL whose output is the
    summary line, and an empty SummaryOutput. *)
Theorem C5_build_failure_placeholder `{GoRuntime} :
  Parse buildFailedStream None =
    ([PackageResult.mk "pkgB" StatusFail []
        [TestResult.mk "pkgB" "Package pkgB Build Failed" StatusFail ["# build failed"] 0]
        0], None).
Proof.
  rewrite Parse_canon; [by vm_compute|].
  apply distinctNames_check. by vm_compute.
Qed.

(** ** C6 *)

(** C6: when the run completes with an error and no byte of output was
    accumulated, the report is one package with status FAIL holding one
    test with status FAIL, and a line of that test's output contains the
    error's text. *)
Theorem C6_error_without_output `{GoRuntime} (scan : string -> list Line * option string)
    (accumulatedJSONOutput errText : string) :
  String.length accumulatedJSONOutput = 0 ->
  exists pkg test line,
    tui.updateOnTestsComplete scan accumulatedJSONOutput (Some errText) = [pkg]
    ∧ PackageResult.Status pkg = StatusFail
    ∧ PackageResult.Tests pkg = [test]
    ∧ TestResult.Status test = StatusFail
    ∧ line ∈ TestResult.Output test
    ∧ gostrings.Contains line errText = true.
Proof.
  intros Hlen. unfold tui.updateOnTestsComplete.
  rewrite bool_decide_eq_true_2 by done.
  eexists _, _, _. repeat split; [left|]. apply Contains_app_r.
Qed.

(** The theorem at the empty buffer and the error "exit status 1". *)
Lemma C6_error_without_output_witness :
  String.length "" = 0
  ∧ exists pkg test line,
      tui.updateOnTestsComplete (H := stableRuntime) (fun _ => ([], None)) "" (Some "exit status 1")
        = [pkg]
      ∧ PackageResult.Status pkg = StatusFail
      ∧ PackageResult.Tests pkg = [test]
      ∧ TestResult.Status test = StatusFail
      ∧ line ∈ TestResult.Output test
      ∧ gostrings.Contains line "exit status 1" = true.
Proof.
  split; [reflexivity|].
  apply (C6_error_without_output (H := stableRuntime)). reflexivity.
Defined.

(** ** C7 *)

(** C7: in the list that [Parse] returns the tests of each package are
    sorted by name, and the packages stand in the order in which their
    names were first seen in the stream. *)
Theorem C7_tests_sorted_packages_first_seen `{GoRuntime}
    (lines : list Line) (scanErr : option string) :
  Forall (fun p => StronglySorted nameLe (PackageResult.Tests p)) (Parse lines scanErr).1
  ∧ map PackageResult.PackageName (Parse lines None).1 = firstSeen (omap packageOf lines).
Proof.
  split.
  - unfold Parse. destruct scanErr; cbn; [constructor|].
    apply Forall_forall. intros p Hp.
    apply finalResults_elem in Hp as (name & p0 & _ & ->).
    unfold finalOf. cbn. apply StronglySorted_nameLe, sortSlice_sorted.
  - cbn. by rewrite finalResults_names, scanLoop_ordered.
Qed.

(** ** C8 *)

(** [sort.Slice] as Go implements it since version 1.19, [pdqsort_func]
    of package sort, on a slice of test results with the [less] of line
    645.  The slice is a list; [Less data i j] is [data.Less(i, j)] and
    [Swap data i j] is the slice after [data.Swap(i, j)]. *)
Module gosort.

#[global] Instance TestResult_eq_dec : EqDecision TestResult.t.
Proof. solve_decision. Defined.

Definition Less (data : list TestResult.t) (i j : nat) : bool :=
  match data !! i, data !! j with
  | Some x, Some y => less x y
  | _, _ => false
  end.

Definition Swap (data : list TestResult.t) (i j : nat) : list TestResult.t :=
  match data !! i, data !! j with
  | Some x, Some y => <[i := y]> (<[j := x]> data)
  | _, _ => data
  end.

(** [insertionSort_func]: the loop
    [for j := i; j > a && data.Less(j, j-1); j--] with
    [data.Swap(j, j-1)] as its body, and [steps] turns of
    [for i := a + 1; i < b; i++] from [i]. *)
Fixpoint sink (a j : nat) (data : list TestResult.t) : list TestResult.t :=
  match j with
  | S j' =>
      if bool_decide (a < S j') && Less data (S j') j'
      then sink a j' (Swap data (S j') j')
      else data
  | 0 => data
  end.

Fixpoint insertionLoop (steps a i : nat) (data : list TestResult.t) : list TestResult.t :=
  match steps with
  | S steps' => insertionLoop steps' a (S i) (sink a i data)
  | 0 => data
  end.

Definition insertionSort_func (data : list TestResult.t) (a b : nat) : list TestResult.t :=
  insertionLoop (b - (a + 1)) a (a + 1) data.

Inductive sortedHint : Type :=
| unknownHint
| increasingHint
| decreasingHint.

(** [order2_func] and [median_func]; the counter [swaps] is passed
    along. *)
Definition order2_func (data : list TestResult.t) (a b swaps : nat) : nat * nat * nat :=
  if Less data b a then (b, a, S swaps) else (a, b, swaps).

Definition median_func (data : list TestResult.t) (a b c swaps : nat) : nat * nat :=
  let '(a, b, swaps) := order2_func data a b swaps in
  let '(b, c, swaps) := order2_func data b c swaps in
  let '(a, b, swaps) := order2_func data a b swaps in
  (b, swaps).

(** [choosePivot_func] for fewer than [shortestNinther] = 50 elements,
    where the three candidates are not replaced by medians of their
    neighbours. *)
Definition choosePivot_func (data : list TestResult.t) (a b : nat) : nat * sortedHint :=
  let l := b - a in
  let i := a + l / 4 * 1 in
  let j := a + l / 4 * 2 in
  let k := a + l / 4 * 3 in
  let '(j, swaps) := if bool_decide (8 <= l) then median_func data i j k 0 else (j, 0) in
  (j, if bool_decide (swaps = 0) then increasingHint
      else if bool_decide (swaps = 4 * 3) then decreasingHint
      else unknownHint).

(** [partialInsertionSort_func] for fewer than [shortestShifting] = 50
    elements, where nothing is shifted: [i] passes the elements that
    stand in order, [for i < b && !data.Less(i, i-1) { i++ }], and the
    result is [i == b]. *)
Fixpoint ascent (steps : nat) (data : list TestResult.t) (i b : nat) : nat :=
  match steps with
  | S steps' =>
      if bool_decide (i < b) && negb (Less data i (i - 1))
      then ascent steps' data (S i) b
      else i
  | 0 => i
  end.

Definition partialInsertionSort_func (data : list TestResult.t) (a b : nat) : bool :=
  bool_decide (ascent (b - a) data (a + 1) b = b).

(** [partition_func]: the loops [for i <= j && data.Less(i, a) { i++ }]
    and [for i <= j && !data.Less(j, a) { j-- }], the loop around them,
    and the function. *)
Fixpoint rise (steps : nat) (data : list TestResult.t) (a i j : nat) : nat :=
  match steps with
  | S steps' =>
      if bool_decide (i <= j) && Less data i a then rise steps' data a (S i) j else i
  | 0 => i
  end.

Fixpoint fall (steps : nat) (data : list TestResult.t) (a i j : nat) : nat :=
  match steps with
  | S steps' =>
      if bool_decide (i <= j) && negb (Less data j a) then fall steps' data a i (j - 1) else j
  | 0 => j
  end.

Fixpoint partitionLoop (steps : nat) (data : list TestResult.t) (a i j : nat)
  : list TestResult.t * nat :=
  match steps with
  | S steps' =>
      let i := rise (length data) data a i j in
      let j := fall (length data) data a i j in
      if bool_decide (j < i) then (data, j)
      else partitionLoop steps' (Swap data i j) a (S i) (j - 1)
  | 0 => (data, j)
  end.

Definition partition_func (data : list TestResult.t) (a b pivot : nat)
  : list TestResult.t * nat * bool :=
  let data := Swap data a pivot in
  let i := rise (length data) data a (a + 1) (b - 1) in
  let j := fall (length data) data a i (b - 1) in
  if bool_decide (j < i) then (Swap data j a, j, true)
  else
    let '(data, j) := partitionLoop (length data) (Swap data i j) a (S i) (j - 1) in
    (Swap data j a, j, false).

Definition maxInsertion : nat := 12.

(** [pdqsort_func(data, 0, len, limit)] as [sort.Slice] calls it, for a
    slice of at most 13 elements.  Up to [maxInsertion] elements are
    sorted by insertion.  For 13 elements the first turn of the loop
    finds [limit] = 4, [wasBalanced] and [wasPartitioned] true and [a] =
    0, so that neither [heapSort_func], [breakPatterns_func] nor
    [partitionEqual_func] is called; [decreasingHint] takes 12 swaps, of
    which [choosePivot_func] makes at most three; and after
    [partition_func] the ranges on both sides of [mid] have at most 12
    elements, which the call for one and the next turn for the other sort
    by insertion. *)
Definition pdqsort_func (data : list TestResult.t) : list TestResult.t :=
  let a := 0 in
  let b := length data in
  if bool_decide (b - a <= maxInsertion) then insertionSort_func data a b
  else
    let '(pivot, hint) := choosePivot_func data a b in
    if match hint with
       | increasingHint => partialInsertionSort_func data a b
       | unknownHint | decreasingHint => false
       end
    then data
    else
      let '(data, mid, _) := partition_func data a b pivot in
      insertionSort_func (insertionSort_func data a mid) (mid + 1) b.

(** Whether a slice is sorted with [less]. *)
Fixpoint isSorted (data : list TestResult.t) : bool :=
  match data with
  | [] => true
  | x :: rest => forallb (fun y => negb (less y x)) rest && isSorted rest
  end.

Lemma isSorted_sorted (data : list TestResult.t) :
  isSorted data = true -> StronglySorted byName data.
Proof.
  induction data as [|x rest IH]; cbn; [constructor|].
  intros [Hall Hrest]%andb_true_iff. constructor; [by apply IH|].
  apply Forall_forall. intros y Hy. unfold byName.
  apply list_elem_of_In in Hy. rewrite forallb_forall in Hall.
  by apply negb_true_iff, Hall.
Qed.

(** [sort.Slice] for a runtime: [pdqsort_func], which is Go's for slices
    of up to 13 elements.  A runtime needs a sorted permutation for every
    slice: where the result of [pdqsort_func] is not checked to be one,
    insertion sort stands in. *)
Definition Slice (data : list TestResult.t) : list TestResult.t :=
  let sorted := pdqsort_func data in
  if bool_decide (sorted ≡ₚ data) && isSorted sorted then sorted else insertionSort data.

Lemma Slice_perm (data : list TestResult.t) : Permutation (Slice data) data.
Proof.
  unfold Slice. destruct (bool_decide _) eqn:Hp; cbn; [|apply insertionSort_perm].
  destruct (isSorted _); [|apply insertionSort_perm]. by apply bool_decide_eq_true in Hp.
Qed.

Lemma Slice_sorted (data : list TestResult.t) : StronglySorted byName (Slice data).
Proof.
  unfold Slice. destruct (bool_decide _); cbn; [|apply insertionSort_sorted].
  destruct (isSorted _) eqn:Hs; [by apply isSorted_sorted|apply insertionSort_sorted].
Qed.

End gosort.

(** Two runtimes of one platform with Go's [sort.Slice]: one visits a
    map in the order of [map_to_list], the other in the opposite
    order. *)
Definition goForward : GoRuntime := {|
  mapRange := fun _ l => l;
  mapRange_perm := fun _ l => Permutation_refl l;
  sortSlice := gosort.Slice;
  sortSlice_perm := gosort.Slice_perm;
  sortSlice_sorted := gosort.Slice_sorted;
  convOverflow := amd64Overflow
|}.

Definition goBackward : GoRuntime := {|
  mapRange := fun _ l => rev l;
  mapRange_perm := fun _ l => Permutation_sym (Permutation_rev l);
  sortSlice := gosort.Slice;
  sortSlice_perm := gosort.Slice_perm;
  sortSlice_sorted := gosort.Slice_sorted;
  convOverflow := amd64Overflow
|}.

(** Eleven tests of package p pass, b to l; then b is run again and a is
    run, and the stream ends with both running: the package has
    thirteen tests, two of them named b. *)
Definition thirteenTests : list Line :=
  (flat_map (fun name => [ev "run" "p" name 0 ""; ev "pass" "p" name 0 ""])
     ["b"; "c"; "d"; "e"; "f"; "g"; "h"; "i"; "j"; "k"; "l"]
   ++ [ev "run" "p" "b" 0 ""; ev "run" "p" "a" 0 ""])%list.

(** The slice of package p before the sort holds the eleven tests that
    passed and then the two that were cut off, in the order in which the
    sweep after the loop met them.  [pdqsort_func] exchanges the first
    element with the pivot and the elements that stand on the wrong side
    of it pairwise, so that the test b that was cut off comes to stand
    before or after the test b that passed. *)
Definition passed (name : string) : TestResult.t :=
  TestResult.mk "p" name StatusPass [] 0.

Definition cutOff (name : string) : TestResult.t :=
  markIncomplete (TestResult.mk "p" name StatusRunning [] 0).

Definition passedTests : list TestResult.t :=
  map passed ["b"; "c"; "d"; "e"; "f"; "g"; "h"; "i"; "j"; "k"; "l"].

Lemma pdqsort_thirteen :
  gosort.Slice (passedTests ++ [cutOff "b"; cutOff "a"])
    = gosort.pdqsort_func (passedTests ++ [cutOff "b"; cutOff "a"])
  ∧ gosort.pdqsort_func (passedTests ++ [cutOff "b"; cutOff "a"])
    = cutOff "a" :: cutOff "b" :: passedTests
  ∧ gosort.Slice (passedTests ++ [cutOff "a"; cutOff "b"])
    = gosort.pdqsort_func (passedTests ++ [cutOff "a"; cutOff "b"])
  ∧ gosort.pdqsort_func (passedTests ++ [cutOff "a"; cutOff "b"])
    = cutOff "a" :: passed "b" :: cutOff "b" :: tail passedTests.
Proof. vm_compute. repeat split. Qed.

(** C8 as stated fails on Go's [range] and [sort.Slice]: the sweep
    after the loop visiting the two running tests in one order or the
    other, the two tests named b are returned in different orders. *)
Lemma C8_counterexample :
  Parse (H := goForward) thirteenTests None
  ≠ Parse (H := goBackward) thirteenTests None.
Proof. vm_compute. intros Heq. discriminate Heq. Qed.

(** C8 (amended): two runs on one platform over the same lines return
    the same error, and the same packages in the same order with the same
    status, summary and duration and the same tests, sorted by name;
    the order among tests of one name may differ.  The two lists are
    identical when no package holds two tests of one name, and when
    [sort.Slice] keeps tests of one name in their order. *)
Theorem C8_deterministic_but_for_equal_names (R1 R2 : GoRuntime)
    (lines : list Line) (scanErr : option string) :
  (forall f, @convOverflow R1 f = @convOverflow R2 f) ->
  (@Parse R1 lines scanErr).2 = (@Parse R2 lines scanErr).2
  ∧ Forall2 resultSim (@Parse R1 lines scanErr).1 (@Parse R2 lines scanErr).1
  ∧ (distinctNames (@Parse R1 lines scanErr).1 ->
     @Parse R1 lines scanErr = @Parse R2 lines scanErr)
  ∧ (stableSort (@sortSlice R1) -> stableSort (@sortSlice R2) ->
     @Parse R1 lines scanErr = @Parse R2 lines scanErr).
Proof.
  intros Hconv. split; [by destruct scanErr|]. split; [|split].
  - destruct scanErr; cbn; [constructor|]. by apply finalResults_sim.
  - by apply Parse_same.
  - intros Hs1 Hs2. unfold Parse. destruct scanErr; [done|].
    f_equal. by apply finalResults_stable.
Qed.

(** Two tests are running when their package fails. *)
Definition twoRunning : list Line :=
  [ev "run" "p" "b" 0 ""; ev "run" "p" "a" 0 ""; ev "fail" "p" "" 0 ""].

(** The theorem at [twoRunning] and the two runtimes that sweep in
    opposite orders. *)
Lemma C8_deterministic_but_for_equal_names_witness :
  (forall f, @convOverflow forwardRuntime f = @convOverflow backwardRuntime f)
  ∧ distinctNames (@Parse forwardRuntime twoRunning None).1
  ∧ @Parse forwardRuntime twoRunning None = @Parse backwardRuntime twoRunning None.
Proof.
  assert (forall f, @convOverflow forwardRuntime f = @convOverflow backwardRuntime f) as Hconv
    by reflexivity.
  assert (distinctNames (@Parse forwardRuntime twoRunning None).1) as Hnd.
  { apply distinctNames_check. vm_compute. reflexivity. }
  split; [exact Hconv|]. split; [exact Hnd|].
  exact (proj1 (proj2 (proj2
    (C8_deterministic_but_for_equal_names forwardRuntime backwardRuntime twoRunning None Hconv)))
    Hnd).
Defined.

(** ** C9 *)

(** C9: a configuration of type SingleTest without package path or
    without test name, or of type PackageTests without package path,
    starts no command and sends one message, the completion message
    with the error; no output-line message is sent. *)
Theorem C9_configuration_error (config : runner.TestRunConfig) (proc : runner.Process) :
  (runner.Type_ config = runner.SingleTest
   ∧ (runner.PackagePath config = "" ∨ runner.TestName config = ""))
  ∨ (runner.Type_ config = runner.PackageTests ∧ runner.PackagePath config = "") ->
  runner.started (runner.ExecuteTestsCmd config proc) = None
  ∧ (exists err,
       runner.sent (runner.ExecuteTestsCmd config proc) = [runner.TestRunCompleteMsg (Some err)])
  ∧ Forall (fun m => runner.isOutputLine m = false)
      (runner.sent (runner.ExecuteTestsCmd config proc)).
Proof.
  intros [[Ht Hp]|[Ht Hp]]; unfold runner.ExecuteTestsCmd; rewrite Ht.
  - rewrite bool_decide_eq_true_2 by done.
    assert (bool_decide (runner.PackagePath config = "")
            || bool_decide (runner.TestName config = "") = true) as ->.
    { destruct Hp as [Hp|Hp]; rewrite (bool_decide_eq_true_2 _ Hp); [done|apply orb_true_r]. }
    cbn. split; [done|]. split; [by eexists|]. by repeat constructor.
  - rewrite bool_decide_eq_false_2 by done.
    rewrite bool_decide_eq_true_2 by done.
    rewrite bool_decide_eq_true_2 by done.
    cbn. split; [done|]. split; [by eexists|]. by repeat constructor.
Qed.

(** A process that would start and print one line. *)
Definition idleProcess : runner.Process :=
  runner.mkProcess None None None ["{}"] [] None.

(** The theorem at a SingleTest configuration without test name. *)
Lemma C9_configuration_error_witness :
  let config := runner.mkConfig runner.SingleTest "./pkg" "" "/src" in
  runner.started (runner.ExecuteTestsCmd config idleProcess) = None
  ∧ (exists err,
       runner.sent (runner.ExecuteTestsCmd config idleProcess)
       = [runner.TestRunCompleteMsg (Some err)])
  ∧ Forall (fun m => runner.isOutputLine m = false)
      (runner.sent (runner.ExecuteTestsCmd config idleProcess)).
Proof.
  apply (C9_configuration_error (runner.mkConfig runner.SingleTest "./pkg" "" "/src")).
  left. split; [reflexivity|]. right. reflexivity.
Defined.

(** ** C10 *)

(** Output without package and test, then a test of a package that is
    named like the bucket. *)
Definition bucketNamedByEvent : list Line :=
  [ev "output" "" "" 0 "x"; ev "run" "_orphaned_output_" "T" 0 ""].

(** C10 as stated fails: an event without package and test and with
    action output occurs, and the returned list holds no package
    "_orphaned_output_" with status UNKNOWN and no tests. *)
Lemma C10_counterexample :
  ¬ exists p, p ∈ (Parse (H := stableRuntime) bucketNamedByEvent None).1
              ∧ PackageResult.PackageName p = orphanedOutputPackage
              ∧ PackageResult.Status p = StatusUnknown
              ∧ PackageResult.Tests p = [].
Proof.
  assert (Parse (H := stableRuntime) bucketNamedByEvent None =
          ([PackageResult.mk "_orphaned_output_" StatusFail ["x"]
              [TestResult.mk "_orphaned_output_" "T" StatusFail [incompleteLine] 0] 0], None))
    as -> by by vm_compute.
  cbn. intros (p & Hin & _ & Hs & _).
  apply list_elem_of_singleton in Hin. subst p. done.
Qed.

(** Of two such events the returned bucket holds the output of the
    second only: the bucket is made anew for each. *)
Lemma orphaned_output_replaced :
  Parse (H := stableRuntime) [ev "output" "" "" 0 "first"; ev "output" "" "" 0 "second"] None
  = ([PackageResult.mk "_orphaned_output_" StatusUnknown ["second"] [] 0], None).
Proof. by vm_compute. Qed.

(** C10 (amended): in a stream in which no event names
    "_orphaned_output_" as its package, let [event] be the last event
    without package and test and with action output.  Then the returned
    list holds the package "_orphaned_output_" once, at the place of its
    first sight, with status UNKNOWN, without tests, and with the output
    of [event] in its summary. *)
Theorem C10_orphaned_output_bucket `{GoRuntime}
    (l1 : list Line) (event : TestEvent.t) (l2 : list Line) :
  isOrphanOutput event ->
  Forall (fun line => ¬ isOrphanOutputLine line) l2 ->
  Forall (fun line => ¬ namesBucket line) (l1 ++ EventLine event :: l2)%list ->
  map PackageResult.PackageName (Parse (l1 ++ EventLine event :: l2)%list None).1
    = firstSeen (omap packageOf (l1 ++ EventLine event :: l2)%list)
  ∧ exists p,
      filter (fun q => PackageResult.PackageName q = orphanedOutputPackage)
        (Parse (l1 ++ EventLine event :: l2)%list None).1 = [p]
      ∧ PackageResult.Status p = StatusUnknown
      ∧ PackageResult.Tests p = []
      ∧ gostrings.TrimRightNewlines (TestEvent.Output event) ∈ PackageResult.SummaryOutput p.
Proof.
  intros Ho Hl2 Hn. cbn [Parse fst].
  split; [by rewrite finalResults_names, scanLoop_ordered|].
  assert (scanLoop (l1 ++ EventLine event :: l2)
          = fold_left processLine l2 (processLine (scanLoop l1) (EventLine event))) as Heq.
  { by rewrite scanLoop_app. }
  destruct (bucket_at_end (gostrings.TrimRightNewlines (TestEvent.Output event))
              (l1 ++ EventLine event :: l2)) as (p & rest & Hf & Hs & Ht & Hsum).
  - rewrite Heq. apply fold_bucket; [|by apply Forall_app in Hn as [_ [_ ?]%Forall_cons]|done].
    apply orphan_recorded; [apply scanLoop_Inv|done].
  - unfold scanLoop. by apply fold_untracked.
  - exists p. rewrite Hsum. repeat split; try done. left.
Qed.

(** The theorem at a stream with two such events, a line that does not
    decode and a passing test. *)
Lemma C10_orphaned_output_bucket_witness :
  let lines := ([ev "output" "" "" 0 "preamble"] ++
               EventLine (TestEvent.mk "output" "" "" 0 "go: downloading") ::
               [BadLine "not json"; ev "run" "pkgA" "TestX" 0 ""; ev "pass" "pkgA" "TestX" 0 ""])%list
  in
  map PackageResult.PackageName (Parse (H := stableRuntime) lines None).1
    = firstSeen (omap packageOf lines)
  ∧ exists p,
      filter (fun q => PackageResult.PackageName q = orphanedOutputPackage)
        (Parse (H := stableRuntime) lines None).1 = [p]
      ∧ PackageResult.Status p = StatusUnknown
      ∧ PackageResult.Tests p = []
      ∧ "go: downloading" ∈ PackageResult.SummaryOutput p.
Proof.
  apply (C10_orphaned_output_bucket (H := stableRuntime)
           [ev "output" "" "" 0 "preamble"]
           (TestEvent.mk "output" "" "" 0 "go: downloading")
           [BadLine "not json"; ev "run" "pkgA" "TestX" 0 ""; ev "pass" "pkgA" "TestX" 0 ""]).
  - repeat split.
  - repeat (apply Forall_cons; split); try apply Forall_nil;
      cbn; unfold isOrphanOutput; cbn; intuition discriminate.
  - repeat (apply Forall_cons; split); try apply Forall_nil;
      cbn; intuition discriminate.
Defined.

(** * Further properties of the code *)

Module TrackedOutput.

Import gostrings.

(** *** The output of a test while it is tracked *)

(** What a line adds to the output of the test tracked under the key of
    [P] and [T]. *)
Definition outputFor (P T : string) (line : Line) : list string :=
  match line with
  | EventLine event =>
      if bool_decide (TestEvent.Action event = "output" ∧ TestEvent.Test event ≠ ""
                      ∧ TestEvent.Package event ≠ ""
                      ∧ TestEvent.Package event ++ "/" ++ TestEvent.Test event = P ++ "/" ++ T)
      then [TrimRightNewlines (TestEvent.Output event)] else []
  | EmptyLine | BadLine _ => []
  end.

Definition trackingOutput (P T : string) (out : list string) (st : State) : Prop :=
  currentTestResults st !! (P ++ "/" ++ T) = Some (TestResult.mk P T StatusRunning out 0).

Lemma Step_output `{GoRuntime} (P T : string) (out : list string) (st : State)
    (line : Line) (st' : State) :
  Inv st -> trackingOutput P T out st -> ¬ hitsKey P T line -> Step st line st' ->
  trackingOutput P T (out ++ outputFor P T line) st'.
Proof.
  intros HI Hk Hhit HS. unfold trackingOutput in *.
  destruct HS as [|raw|event Hnone Hpkg Hno|event st1 event' p st' He HD].
  - cbn. by rewrite app_nil_r.
  - cbn. rewrite app_nil_r. unfold onBadLine. cbn.
    destruct (last _); [|done]. by destruct (packageResults st !! _).
  - cbn. rewrite bool_decide_eq_false_2 by tauto. by rewrite app_nil_r.
  - pose proof (Ensured_fields _ _ _ _ _ He) as (Hcur & _ & Hact & Htest).
    destruct (Ensured_Inv _ _ _ _ _ (Inv_lineNumber _ _ HI) He) as (HI1 & Hp & Hne).
    cbn in Hcur. rewrite <- Hcur in Hk.
    assert (¬ hitsKey P T (EventLine event')
            ∧ outputFor P T (EventLine event) = outputFor P T (EventLine event')) as [Hhit' ->].
    { destruct He as [q Hq|Hnone Hpkg Ht Ha|Hnone Hpkg]; try done.
      split.
      - cbn. rewrite Ht, Ha. intros [(? & _)|(_ & _ & Hd)]; [done|].
        by destruct (isDone_not_run _ Hd).
      - cbn. rewrite !bool_decide_eq_false_2; [done| |]; rewrite ?Ht; tauto. }
    clear Hhit He Hcur Hact Htest. cbn in Hhit'. cbn [outputFor].
    destruct HD as [Ha Ht|Ha Ht|Ha Ht|tr0 Ha Ht Hk0|tests Ha Ht Hk0 Hap|Ha Ht Hk0 Hap
                   |tr0 Ha Ht Hk0|Ha Ht Hk0|Ha Ht|Ha1 Ha2 Ha3].
    + rewrite bool_decide_eq_false_2 by (intros (? & _); congruence).
      by rewrite app_nil_r.
    + rewrite bool_decide_eq_false_2 by (intros (? & _); congruence).
      rewrite app_nil_r. cbn. rewrite lookup_insert_ne; [done|].
      intros Heq. apply Hhit'. left. auto.
    + rewrite bool_decide_eq_false_2 by tauto. by rewrite app_nil_r.
    + destruct (decide (TestEvent.Package event' ++ "/" ++ TestEvent.Test event' = P ++ "/" ++ T))
        as [Heq|Hneq].
      * rewrite bool_decide_eq_true_2 by done. rewrite Heq in Hk0.
        assert (tr0 = TestResult.mk P T StatusRunning out 0) as -> by congruence.
        cbn. rewrite Heq. by rewrite lookup_insert_eq.
      * rewrite bool_decide_eq_false_2 by tauto. rewrite app_nil_r.
        cbn. by rewrite lookup_insert_ne.
    + rewrite bool_decide_eq_false_2; [by rewrite app_nil_r|].
      intros (_ & _ & _ & Heq). rewrite Heq in Hk0. congruence.
    + rewrite bool_decide_eq_false_2; [by rewrite app_nil_r|].
      intros (_ & _ & _ & Heq). rewrite Heq in Hk0. congruence.
    + rewrite bool_decide_eq_false_2 by (intros (? & _); by destruct (isDone_not_run _ Ha)).
      rewrite app_nil_r. cbn. rewrite lookup_delete_ne; [done|].
      intros Heq. apply Hhit'. left. auto.
    + rewrite bool_decide_eq_false_2 by (intros (? & _); by destruct (isDone_not_run _ Ha)).
      rewrite app_nil_r. cbn. rewrite lookup_delete_ne; [done|].
      intros Heq. apply Hhit'. left. auto.
    + rewrite bool_decide_eq_false_2 by tauto. rewrite app_nil_r.
      cbn. apply map_lookup_filter_Some. split; [done|].
      cbn. intros Heq. apply Hhit'. right. auto.
    + rewrite bool_decide_eq_false_2 by tauto. by rewrite app_nil_r.
Qed.

Lemma fold_output `{GoRuntime} (P T : string) (lines : list Line) (out : list string)
    (st : State) :
  Inv st -> trackingOutput P T out st -> Forall (fun line => ¬ hitsKey P T line) lines ->
  trackingOutput P T (out ++ concat (map (outputFor P T) lines)) (fold_left processLine lines st).
Proof.
  revert st out. induction lines as [|line lines IH]; intros st out HI Hk Hall; cbn [fold_left].
  { cbn. by rewrite app_nil_r. }
  apply Forall_cons in Hall as [Hline Hall].
  pose proof (processLine_cases st line) as HS.
  cbn [map concat]. rewrite app_assoc. apply IH; [by eapply Step_Inv| |done].
  by apply (Step_output P T out st line).
Qed.

(** The state after the pass, fail or skip event of a tracked test. *)
Lemma done_tracked `{GoRuntime} (P T action : string) (elapsed : float) (o : string)
    (out : list string) (st : State) :
  Inv st -> trackingOutput P T out st -> T ≠ "" -> isDone action ->
  exists p,
    packageResults st !! P = Some p
    ∧ processLine st (ev action P T elapsed o)
      = with_currentTestResults (delete (P ++ "/" ++ T) (currentTestResults st))
          (storePackage P
             (PackageResult.with_Tests
                (PackageResult.Tests p ++
                 [TestResult.mk P T (statusOfAction action) out (durationOf elapsed)]) p)
             (with_lineNumber (S (lineNumber st)) st)).
Proof.
  intros HI Hk HT Hd. unfold trackingOutput in Hk.
  destruct (inv_current _ HI _ _ Hk) as (_ & _ & _ & [p Hp]). cbn in Hp.
  exists p. split; [done|].
  unfold ev. cbn [processLine]. unfold processEvent, ensurePackage.
  cbn [packageResults with_lineNumber TestEvent.Package]. rewrite Hp.
  unfold dispatch. cbn [TestEvent.Action TestEvent.Test TestEvent.Elapsed].
  destruct (isDone_not_run _ Hd) as [Hnr Hno].
  rewrite (bool_decide_eq_false_2 _ Hnr), (bool_decide_eq_false_2 _ Hno).
  assert (bool_decide (action = "pass") || bool_decide (action = "fail")
          || bool_decide (action = "skip") = true) as ->.
  { destruct Hd as [-> | [-> | ->]]; done. }
  rewrite (bool_decide_eq_false_2 _ HT).
  unfold onTestDone, testKeyOf. cbn [TestEvent.Test TestEvent.Package currentTestResults
    with_lineNumber]. rewrite (bool_decide_eq_false_2 _ HT), Hk. done.
Qed.

Lemma finalOf_tests `{GoRuntime} (st : State) (name : string) (p0 : PackageResult.t)
    (t : TestResult.t) :
  t ∈ PackageResult.Tests p0 -> t ∈ PackageResult.Tests (finalOf st name p0).
Proof.
  intros Hin. unfold finalOf. cbn. rewrite sortSlice_perm.
  unfold finishedPackage. destruct (runningOf _ _); [done|].
  cbn. apply elem_of_app. by left.
Qed.

(** *** A record that is filed stays *)

Definition filedUnder (P : string) (r : TestResult.t) (st : State) : Prop :=
  exists p, packageResults st !! P = Some p ∧ r ∈ PackageResult.Tests p.

(** A line that may change a record named [T] that is filed under [P]:
    output of that test, which lines 503-508 append to a completed test
    of that name; and, when [P] is the package of orphaned output, output
    without package and test, for which lines 450-467 make that package
    anew. *)
Definition lateOutput (P T : string) (line : Line) : Prop :=
  match line with
  | EventLine event =>
      TestEvent.Action event = "output"
      ∧ ((TestEvent.Package event = P ∧ TestEvent.Test event = T)
         ∨ (P = orphanedOutputPackage ∧ TestEvent.Package event = ""
            ∧ TestEvent.Test event = ""))
  | EmptyLine | BadLine _ => False
  end.

Lemma appendToCompleted_keeps (tests tests' : list TestResult.t) (name outputLine : string)
    (r : TestResult.t) :
  appendToCompleted tests name outputLine = Some tests' ->
  r ∈ tests -> TestResult.Name r ≠ name -> r ∈ tests'.
Proof.
  revert tests'. induction tests as [|t tests IH]; intros tests'; cbn; [done|].
  case_bool_decide as Hname.
  - intros [= <-] Hin Hne. apply elem_of_cons in Hin as [->|Hin]; [done|].
    apply elem_of_cons. by right.
  - destruct (appendToCompleted tests name outputLine) as [tl|]; [|done].
    cbn. intros [= <-] Hin Hne. apply elem_of_cons in Hin as [->|Hin].
    + apply elem_of_cons. by left.
    + apply elem_of_cons. right. by apply IH.
Qed.

Lemma sweptPackage_keeps (pkg : string) (q : PackageResult.t)
    (entries : list (string * TestResult.t)) (r : TestResult.t) :
  r ∈ PackageResult.Tests q -> r ∈ PackageResult.Tests (sweptPackage pkg q entries).
Proof.
  intros Hin. unfold sweptPackage. destruct (ofPackage pkg entries); [done|].
  cbn [PackageResult.Tests]. apply elem_of_app. by left.
Qed.

Lemma placeholder_keeps (event : TestEvent.t) (status : TestStatus) (q : PackageResult.t)
    (r : TestResult.t) :
  r ∈ PackageResult.Tests q -> r ∈ PackageResult.Tests (placeholder event status q).
Proof.
  intros Hin. unfold placeholder. destruct (_ && _); [|done].
  destruct (classifySummary _ _) as [[] b]; cbn; [apply elem_of_app; by left|].
  destruct (b && _); cbn; [apply elem_of_app; by left|done].
Qed.

Lemma filedUnder_current (P : string) (r : TestResult.t) (st : State)
    (current : gmap string TestResult.t) :
  filedUnder P r (with_currentTestResults current st) ↔ filedUnder P r st.
Proof. done. Qed.

Lemma filedUnder_store (P : string) (r : TestResult.t) (st : State) (name : string)
    (p p' : PackageResult.t) :
  packageResults st !! name = Some p ->
  (name = P -> r ∈ PackageResult.Tests p -> r ∈ PackageResult.Tests p') ->
  filedUnder P r st -> filedUnder P r (storePackage name p' st).
Proof.
  intros Hp Hkeep (q & Hq & Hin). unfold filedUnder. cbn.
  destruct (decide (name = P)) as [->|Hne].
  - rewrite lookup_insert_eq. exists p'. split; [done|]. apply Hkeep; [done|]. congruence.
  - rewrite lookup_insert_ne by done. by exists q.
Qed.

Lemma Dispatch_keeps `{GoRuntime} (st : State) (event : TestEvent.t)
    (pkgResult : PackageResult.t) (st' : State) (P : string) (r : TestResult.t) :
  packageResults st !! TestEvent.Package event = Some pkgResult ->
  ¬ (TestEvent.Action event = "output" ∧ TestEvent.Package event = P
     ∧ TestEvent.Test event = TestResult.Name r) ->
  Dispatch st event pkgResult st' -> filedUnder P r st -> filedUnder P r st'.
Proof.
  intros Hp Hlate HD Hf.
  destruct HD as [Ha Ht|Ha Ht|Ha Ht|tr Ha Ht Hk|tests Ha Ht Hk Hap|Ha Ht Hk Hap
                 |tr Ha Ht Hk|Ha Ht Hk|Ha Ht|Ha1 Ha2 Ha3];
    rewrite ?filedUnder_current; try done;
    try (apply (filedUnder_store P r st _ pkgResult); [exact Hp| |exact Hf]; cbn;
         intros HP Hin; try done; try (apply elem_of_app; by left)).
  - (* output for a completed test *)
    apply (appendToCompleted_keeps _ _ _ _ _ Hap Hin). intros Hname. apply Hlate. auto.
  - by apply placeholder_keeps, sweptPackage_keeps.
Qed.

Lemma Step_keeps `{GoRuntime} (st : State) (line : Line) (st' : State) (P : string)
    (r : TestResult.t) :
  Inv st -> ¬ lateOutput P (TestResult.Name r) line -> Step st line st' ->
  filedUnder P r st -> filedUnder P r st'.
Proof.
  intros HI Hlate HS Hf.
  destruct HS as [|raw|event Hnone Hpkg Hno|event st1 event' p st' He HD]; [done| |done|].
  - unfold onBadLine. cbn. destruct (last _) as [name|]; [|done].
    destruct (packageResults st !! name) as [q|] eqn:Hq; [|done].
    by apply (filedUnder_store P r (with_lineNumber (S (lineNumber st)) st) name q).
  - destruct (Ensured_Inv _ _ _ _ _ (Inv_lineNumber _ _ HI) He) as (HI1 & Hp & Hne).
    pose proof (Ensured_fields _ _ _ _ _ He) as (_ & _ & Hact & Htest).
    cbn in Hlate.
    eapply (Dispatch_keeps st1 event' p st' P r Hp); [|exact HD|].
    + intros (Ha & HP & HT). apply Hlate. rewrite <- Hact, <- Htest.
      split; [done|]. destruct He as [q Hq|Hnone Hpkg Ht Hao|Hnone Hpkg]; cbn in *; auto.
    + destruct Hf as (q & Hq & Hin).
      destruct He as [q' Hq'|Hnone Hpkg Ht Ha|Hnone Hpkg].
      * by exists q.
      * exists q. split; [|done]. unfold createPackage. cbn.
        destruct (containsString _ _); cbn; rewrite lookup_insert_ne; try done.
        all: intros <-; apply Hlate; auto.
      * exists q. split; [|done]. cbn in Hnone. unfold createPackage. cbn.
        destruct (containsString _ _); cbn; rewrite lookup_insert_ne; try done.
        all: intros Heq; rewrite Heq in Hnone; congruence.
Qed.

Lemma fold_keeps `{GoRuntime} (lines : list Line) (st : State) (P : string)
    (r : TestResult.t) :
  Inv st -> Forall (fun line => ¬ lateOutput P (TestResult.Name r) line) lines ->
  filedUnder P r st -> filedUnder P r (fold_left processLine lines st).
Proof.
  revert st. induction lines as [|line lines IH]; intros st HI Hall Hf; [done|].
  apply Forall_cons in Hall as [Hline Hall]. cbn [fold_left].
  pose proof (processLine_cases st line) as HS.
  apply IH; [by eapply Step_Inv|done|]. by apply (Step_keeps st line).
Qed.

End TrackedOutput.

(** X1: a test that is run and reports: its record holds, in order, the
    output of the output events under its key between the two, and it is
    among the tests of its package in the result, whatever follows its
    report but output of that test (and, for the package of orphaned
    output, output without package and test). *)
Theorem tracked_test_finalized `{GoRuntime} (l1 l2 l3 : list Line) (P T action : string)
    (e0 e1 : float) (o0 o1 : string) :
  P ≠ "" -> T ≠ "" -> ParseProofs.isDone action ->
  Forall (fun line => ¬ ParseProofs.hitsKey P T line) l2 ->
  Forall (fun line => ¬ TrackedOutput.lateOutput P T line) l3 ->
  exists p,
    filter (fun q => PackageResult.PackageName q = P)
      (Parse (l1 ++ ev "run" P T e0 o0 :: l2 ++ ev action P T e1 o1 :: l3) None).1 = [p]
    ∧ TestResult.mk P T (statusOfAction action)
        (concat (map (TrackedOutput.outputFor P T) l2)) (durationOf e1)
      ∈ PackageResult.Tests p.
Proof.
  intros HP HT Hd Hall Hlate. cbn [Parse fst].
  set (r := TestResult.mk P T (statusOfAction action)
              (concat (map (TrackedOutput.outputFor P T) l2)) (durationOf e1)).
  set (lines := (l1 ++ ev "run" P T e0 o0 :: l2 ++ ev action P T e1 o1 :: l3)%list).
  set (upto := (((l1 ++ [ev "run" P T e0 o0]) ++ l2) ++ [ev action P T e1 o1])%list).
  assert (lines = upto ++ l3)%list as Hl.
  { unfold lines, upto. by rewrite <- !app_assoc. }
  pose proof (scanLoop_Inv (l1 ++ [ev "run" P T e0 o0])) as HI1.
  assert (TrackedOutput.trackingOutput P T [] (scanLoop (l1 ++ [ev "run" P T e0 o0]))) as Hk1.
  { rewrite scanLoop_app. cbn [fold_left].
    by destruct (run_tracking (scanLoop l1) (TestEvent.mk "run" P T e0 o0) (scanLoop_Inv l1)). }
  pose proof (TrackedOutput.fold_output P T l2 [] _ HI1 Hk1 Hall) as Hk2.
  rewrite <- scanLoop_app in Hk2. cbn [app] in Hk2.
  destruct (TrackedOutput.done_tracked P T action e1 o1 _ _ (scanLoop_Inv _) Hk2 HT Hd)
    as (p & Hp & Hst).
  assert (scanLoop upto = processLine (scanLoop ((l1 ++ [ev "run" P T e0 o0]) ++ l2))
                            (ev action P T e1 o1)) as Hlast.
  { unfold upto. by rewrite scanLoop_app. }
  rewrite Hst in Hlast.
  assert (TrackedOutput.filedUnder P r (scanLoop upto)) as Hf.
  { rewrite Hlast. eexists. split; [cbn; apply lookup_insert_eq|].
    cbn. apply elem_of_app. right. by left. }
  destruct (TrackedOutput.fold_keeps l3 (scanLoop upto) P r (scanLoop_Inv upto) Hlate Hf)
    as (q & Hq & Hin).
  rewrite <- scanLoop_app, <- Hl in Hq.
  eexists. split.
  - by apply finalResults_package.
  - by apply TrackedOutput.finalOf_tests.
Qed.

Module PackageSweep.

Import gostrings.

Lemma placeholder_tests (event : TestEvent.t) (status : TestStatus) (p : PackageResult.t) :
  PackageResult.Tests p ≠ [] -> placeholder event status p = p.
Proof.
  intros Hne. unfold placeholder.
  rewrite (bool_decide_eq_false_2 (length (PackageResult.Tests p) = 0)).
  - by rewrite andb_false_r.
  - by destruct (PackageResult.Tests p).
Qed.

(** The package after the sweep of lines 557-569 found [tr]. *)
Lemma sweptPackage_found (pkg : string) (q : PackageResult.t)
    (entries : list (string * TestResult.t)) (key : string) (tr : TestResult.t) :
  (key, tr) ∈ entries -> TestResult.PackageName tr = pkg ->
  markUnreported tr ∈ PackageResult.Tests (sweptPackage pkg q entries)
  ∧ PackageResult.Status (sweptPackage pkg q entries)
    = (if bool_decide (PackageResult.Status q = StatusPass)
       then StatusFail else PackageResult.Status q).
Proof.
  intros Hin Hpkg.
  assert ((key, tr) ∈ ofPackage pkg entries) as Hof.
  { unfold ofPackage. by apply list_elem_of_filter. }
  unfold sweptPackage. destruct (ofPackage pkg entries) as [|e swept] eqn:Heq.
  { by apply elem_of_nil in Hof. }
  cbn. split; [|done]. apply elem_of_app. right.
  change (markUnreported tr ∈ map (fun e0 => markUnreported e0.2) (e :: swept)).
  apply list_elem_of_fmap. by exists (key, tr).
Qed.

Lemma Dispatch_package_event `{GoRuntime} (st : State) (event : TestEvent.t)
    (pkgResult : PackageResult.t) (st' : State) :
  isDone (TestEvent.Action event) -> TestEvent.Test event = "" ->
  Dispatch st event pkgResult st' ->
  st' = with_currentTestResults
         (filter (fun kv => TestResult.PackageName kv.2 ≠ TestEvent.Package event)
            (currentTestResults st))
         (storePackage (TestEvent.Package event)
            (placeholder event (statusOfAction (TestEvent.Action event))
               (sweptPackage (TestEvent.Package event)
                  (PackageResult.mk (PackageResult.PackageName pkgResult)
                     (statusOfAction (TestEvent.Action event))
                     (PackageResult.SummaryOutput pkgResult) (PackageResult.Tests pkgResult)
                     (durationOf (TestEvent.Elapsed event)))
                  (mapRange (lineNumber st) (map_to_list (currentTestResults st))))) st).
Proof.
  intros Hd Ht HD. destruct (isDone_not_run _ Hd) as [Hnr Hno].
  destruct HD as [Ha' Ht'|Ha' Ht'|Ha' Ht'|tr Ha' Ht' Hk|tests Ha' Ht' Hk Hap|Ha' Ht' Hk Hap
                 |tr Ha' Ht' Hk|Ha' Ht' Hk|Ha' Ht'|Ha1 Ha2 Ha3]; done.
Qed.

End PackageSweep.

(** X2: when a package reports pass, fail or skip, the tests of that
    package that are still tracked are taken out of the map of tracked
    tests and filed under the package with status FAIL and one more line
    of output; the tests of other packages stay tracked.  A package that
    had such a test is FAIL, unless it reported skip. *)
Theorem package_event_sweeps `{GoRuntime} (l1 : list Line) (P action : string)
    (elapsed : float) (o : string) :
  P ≠ "" -> ParseProofs.isDone action ->
  currentTestResults (scanLoop (l1 ++ [ev action P "" elapsed o]))
    = filter (fun kv => TestResult.PackageName kv.2 ≠ P) (currentTestResults (scanLoop l1))
  ∧ exists p,
      packageResults (scanLoop (l1 ++ [ev action P "" elapsed o])) !! P = Some p
      ∧ forall key tr,
          currentTestResults (scanLoop l1) !! key = Some tr ->
          TestResult.PackageName tr = P ->
          TestResult.mk (TestResult.PackageName tr) (TestResult.Name tr) StatusFail
            (TestResult.Output tr ++ ["Test did not report completion before package finished."])
            (TestResult.Duration tr) ∈ PackageResult.Tests p
          ∧ PackageResult.Status p
            = (if bool_decide (action = "skip") then StatusSkip else StatusFail).
Proof.
  intros HP Hd. rewrite scanLoop_app. cbn [fold_left].
  pose proof (scanLoop_Inv l1) as HI.
  pose proof (processLine_cases (scanLoop l1) (ev action P "" elapsed o)) as HS.
  remember (processLine (scanLoop l1) (ev action P "" elapsed o)) as st' eqn:Hst'.
  clear Hst'. unfold ev in HS.
  inversion HS as [| |event Hnone Hpkg Hno|event st1 event' q st'' He HD]; subst; [done|].
  pose proof (Ensured_fields _ _ _ _ _ He) as (Hcur & Hln & Hact & Htest).
  destruct (Ensured_Inv _ _ _ _ _ (Inv_lineNumber _ _ HI) He) as (HI1 & Hq & Hne).
  assert (event' = TestEvent.mk action P "" elapsed o) as ->.
  { destruct He as [q0 Hq0|Hnone Hpkg Ht Ha|Hnone Hpkg]; done. }
  cbn in Hcur, Hln, Hq.
  rewrite (PackageSweep.Dispatch_package_event st1 (TestEvent.mk action P "" elapsed o) q st' Hd eq_refl HD).
  cbn [currentTestResults with_currentTestResults packageResults storePackage
       with_packageResults TestEvent.Package TestEvent.Action TestEvent.Elapsed].
  rewrite Hcur. split; [done|].
  eexists. split; [apply lookup_insert_eq|].
  intros key tr Hk Hpkg.
  assert ((key, tr) ∈ mapRange (lineNumber st1) (map_to_list (currentTestResults (scanLoop l1))))
    as Hin.
  { rewrite mapRange_perm. by apply elem_of_map_to_list. }
  destruct (PackageSweep.sweptPackage_found P
              (PackageResult.mk (PackageResult.PackageName q) (statusOfAction action)
                 (PackageResult.SummaryOutput q) (PackageResult.Tests q) (durationOf elapsed))
              _ key tr Hin Hpkg) as [Htest' Hstatus].
  rewrite PackageSweep.placeholder_tests.
  - split; [exact Htest'|]. rewrite Hstatus. cbn.
    destruct Hd as [-> | [-> | ->]]; done.
  - intros Hnil. rewrite Hnil in Htest'. by apply elem_of_nil in Htest'.
Qed.

Module PackageOutput.

Import gostrings.

Lemma elem_of_firstSeen (names : list string) (name : string) :
  name ∈ firstSeen names ↔ name ∈ names.
Proof.
  induction names as [|x names IH]; cbn; [done|].
  rewrite !elem_of_cons, list_elem_of_filter, IH.
  destruct (decide (name = x)); tauto.
Qed.

(** A package whose name no line has brought up is not in the map. *)
Lemma unseen_unknown `{GoRuntime} (lines : list Line) (P : string) :
  P ∉ omap packageOf lines -> packageResults (scanLoop lines) !! P = None.
Proof.
  intros Hnot. pose proof (scanLoop_Inv lines) as HI.
  destruct (packageResults (scanLoop lines) !! P) as [p|] eqn:Hp; [|done].
  exfalso. apply Hnot. apply elem_of_firstSeen. rewrite <- scanLoop_ordered.
  apply (inv_dom _ HI). by eexists.
Qed.

(** The package that a line finds or creates. *)
Definition packageAt (st : State) (P : string) : PackageResult.t :=
  default (newPackage P) (packageResults st !! P).

Lemma package_output `{GoRuntime} (st : State) (P : string) (e : float) (o : string) :
  Inv st -> P ≠ "" ->
  packageResults (processLine st (ev "output" P "" e o)) !! P
    = Some (PackageResult.with_SummaryOutput
              (PackageResult.SummaryOutput (packageAt st P) ++ [TrimRightNewlines o])
              (packageAt st P))
  ∧ currentTestResults (processLine st (ev "output" P "" e o)) = currentTestResults st.
Proof.
  intros HI HP. unfold ev, packageAt. cbn [processLine]. unfold processEvent, ensurePackage.
  cbn [packageResults with_lineNumber TestEvent.Package TestEvent.Test TestEvent.Action].
  destruct (packageResults st !! P) as [p|] eqn:Hp; cbn [default].
  - unfold dispatch, onOutput. cbn [TestEvent.Action TestEvent.Test TestEvent.Package].
    rewrite (bool_decide_eq_false_2 ("output" = "run")) by done.
    rewrite !bool_decide_eq_true_2 by done. cbn. by rewrite lookup_insert_eq.
  - rewrite (bool_decide_eq_false_2 (P = "")) by done. cbn [andb].
    unfold createPackage, dispatch, onOutput.
    cbn [TestEvent.Action TestEvent.Test TestEvent.Package].
    rewrite (bool_decide_eq_false_2 ("output" = "run")) by done.
    rewrite !bool_decide_eq_true_2 by done. cbn.
    split; [by rewrite lookup_insert_eq|]. by destruct (containsString _ _).
Qed.

Lemma fold_package_output `{GoRuntime} (outs : list string) (st : State) (P : string)
    (e : float) :
  Inv st -> P ≠ "" -> outs ≠ [] ->
  packageResults (fold_left processLine (map (fun o => ev "output" P "" e o) outs) st) !! P
    = Some (PackageResult.with_SummaryOutput
              (PackageResult.SummaryOutput (packageAt st P) ++ map TrimRightNewlines outs)
              (packageAt st P))
  ∧ currentTestResults (fold_left processLine (map (fun o => ev "output" P "" e o) outs) st)
    = currentTestResults st.
Proof.
  intros HI HP Hne. revert st HI.
  induction outs as [|o outs IH]; intros st HI; [done|]. cbn [map fold_left].
  destruct (package_output st P e o HI HP) as [Hp Hc].
  assert (Inv (processLine st (ev "output" P "" e o))) as HI'.
  { eapply Step_Inv; [exact HI|apply processLine_cases]. }
  destruct outs as [|o' outs].
  { cbn. done. }
  destruct (IH ltac:(done) _ HI') as [Hp' Hc'].
  rewrite Hp', Hc'. split; [|done].
  unfold packageAt at 1 2. rewrite Hp. cbn [default].
  destruct (packageAt st P). cbn. by rewrite <- app_assoc.
Qed.

Lemma classifySummary_found (summary : list string) (b : bool) :
  Exists (fun line => isNoTestFilesLine line = true) summary ->
  (classifySummary summary b).1 = true.
Proof.
  intros Hex. revert b. induction Hex as [line rest Hl|line rest _ IH]; intros b; cbn.
  - by rewrite Hl.
  - destruct (isNoTestFilesLine line); [done|]. apply IH.
Qed.

Lemma package_done `{GoRuntime} (st : State) (P action : string) (e : float) (o : string)
    (q : PackageResult.t) :
  Inv st -> packageResults st !! P = Some q -> isDone action ->
  processLine st (ev action P "" e o)
  = with_currentTestResults
      (filter (fun kv => TestResult.PackageName kv.2 ≠ P) (currentTestResults st))
      (storePackage P
         (placeholder (TestEvent.mk action P "" e o) (statusOfAction action)
            (sweptPackage P
               (PackageResult.mk (PackageResult.PackageName q) (statusOfAction action)
                  (PackageResult.SummaryOutput q) (PackageResult.Tests q) (durationOf e))
               (mapRange (S (lineNumber st)) (map_to_list (currentTestResults st)))))
         (with_lineNumber (S (lineNumber st)) st)).
Proof.
  intros HI Hq Hd.
  pose proof (processLine_cases st (ev action P "" e o)) as HS.
  remember (processLine st (ev action P "" e o)) as st' eqn:Hst'. clear Hst'.
  unfold ev in HS.
  assert (P ≠ "") as HP.
  { intros ->. by rewrite (inv_noempty _ HI) in Hq. }
  inversion HS as [| |event Hnone Hpkg Hno|event st1 event' q' st'' He HD]; subst; [done|].
  inversion He as [q0 Hq0|Hnone Hpkg Ht Ha|Hnone Hpkg]; subst; cbn in *; try congruence.
  assert (q' = q) as -> by congruence.
  by rewrite (PackageSweep.Dispatch_package_event _ (TestEvent.mk action P "" e o) q st' Hd eq_refl HD).
Qed.

End PackageOutput.

Module QuietPackage.

Import gostrings PackageOutput.

Lemma sweptPackage_none (P : string) (q : PackageResult.t)
    (entries : list (string * TestResult.t)) :
  (forall e, e ∈ entries -> TestResult.PackageName e.2 ≠ P) -> sweptPackage P q entries = q.
Proof.
  intros Hno. unfold sweptPackage, ofPackage. rewrite filter_none; [done|].
  intros e He. by apply Hno.
Qed.

(** No tracked test belongs to a package that is not in the map. *)
Lemma unknown_untracked `{GoRuntime} (st : State) (P : string) (n : nat) :
  Inv st -> packageResults st !! P = None ->
  forall e, e ∈ mapRange n (map_to_list (currentTestResults st)) ->
            TestResult.PackageName e.2 ≠ P.
Proof.
  intros HI Hnone [k t] Hin Heq. rewrite mapRange_perm in Hin.
  apply elem_of_map_to_list in Hin.
  destruct (inv_current _ HI _ _ Hin) as (_ & _ & _ & [p Hp]).
  cbn in Heq. congruence.
Qed.

(** The returned package when no test of it is tracked at the end. *)
Lemma finalOf_quiet `{GoRuntime} (st : State) (P : string) (p : PackageResult.t) :
  (forall key t, currentTestResults st !! key = Some t -> TestResult.PackageName t ≠ P) ->
  finalOf st P p = PackageResult.with_Tests (sortSlice (PackageResult.Tests p)) p.
Proof.
  intros Hno. unfold finalOf, finishedPackage, runningOf. rewrite filter_none; [done|].
  intros [k t] Hin [_ Hp]. rewrite mapRange_perm in Hin. apply elem_of_map_to_list in Hin.
  by apply (Hno _ _ Hin).
Qed.

Lemma sortSlice_singleton `{GoRuntime} (t : TestResult.t) : sortSlice [t] = [t].
Proof. apply Permutation_length_1_inv. symmetry. apply sortSlice_perm. Qed.

(** *** A package that the following lines do not name *)

(** No tracked test is of package [P]. *)
Definition untrackedPackage (P : string) (st : State) : Prop :=
  forall key t, currentTestResults st !! key = Some t -> TestResult.PackageName t ≠ P.

(** The note that lines 437-447 leave of a malformed line. *)
Definition malformedNote (line : string) : Prop :=
  exists n raw, line = "[Malformed JSON line " ++ itoa n ++ "]: " ++ raw.

Definition isBadLine (line : Line) : Prop :=
  match line with
  | BadLine _ => True
  | EmptyLine | EventLine _ => False
  end.

(** [p] with [notes] at the end of its summary. *)
Definition withNotes (notes : list string) (p : PackageResult.t) : PackageResult.t :=
  PackageResult.with_SummaryOutput (PackageResult.SummaryOutput p ++ notes) p.

Lemma withNotes_nil (p : PackageResult.t) : withNotes [] p = p.
Proof. destruct p. unfold withNotes. cbn. by rewrite app_nil_r. Qed.

Lemma withNotes_app (n1 n2 : list string) (p : PackageResult.t) :
  withNotes n2 (withNotes n1 p) = withNotes (n1 ++ n2) p.
Proof. destruct p. unfold withNotes. cbn. by rewrite app_assoc. Qed.

Lemma Dispatch_untrackedPackage `{GoRuntime} (st : State) (event : TestEvent.t)
    (pkgResult : PackageResult.t) (st' : State) (P : string) :
  untrackedPackage P st -> TestEvent.Package event ≠ P ->
  Dispatch st event pkgResult st' -> untrackedPackage P st'.
Proof.
  intros Hun Hne HD. unfold untrackedPackage in *.
  destruct HD as [Ha Ht|Ha Ht|Ha Ht|tr Ha Ht Hk|tests Ha Ht Hk Hap|Ha Ht Hk Hap
                 |tr Ha Ht Hk|Ha Ht Hk|Ha Ht|Ha1 Ha2 Ha3]; cbn; try done.
  - intros key t. destruct (decide (key = TestEvent.Package event ++ "/" ++ TestEvent.Test event))
      as [->|Hkey].
    + rewrite lookup_insert_eq. by intros [= <-].
    + rewrite lookup_insert_ne by done. apply Hun.
  - intros key t. destruct (decide (key = TestEvent.Package event ++ "/" ++ TestEvent.Test event))
      as [->|Hkey].
    + rewrite lookup_insert_eq. intros [= <-]. cbn. by apply (Hun _ _ Hk).
    + rewrite lookup_insert_ne by done. apply Hun.
  - intros key t [_ Hlook]%lookup_delete_Some. by apply (Hun _ _ Hlook).
  - intros key t [_ Hlook]%lookup_delete_Some. by apply (Hun _ _ Hlook).
  - intros key t [Hlook _]%map_lookup_filter_Some. by apply (Hun _ _ Hlook).
Qed.

Lemma Step_elsewhere `{GoRuntime} (st : State) (line : Line) (st' : State) (P : string)
    (p : PackageResult.t) :
  Inv st -> packageOf line ≠ Some P -> Step st line st' ->
  untrackedPackage P st -> packageResults st !! P = Some p ->
  untrackedPackage P st'
  ∧ exists notes,
      packageResults st' !! P = Some (withNotes notes p)
      ∧ Forall malformedNote notes ∧ (¬ isBadLine line -> notes = []).
Proof.
  intros HI Hother HS Hun Hp.
  destruct HS as [|raw|event Hnone Hpkg Hno|event st1 event' q st' He HD].
  - split; [done|]. exists []. by rewrite withNotes_nil.
  - split.
    { unfold onBadLine. cbn. destruct (last _) as [name|]; [|done].
      by destruct (packageResults st !! name). }
    unfold onBadLine. cbn. destruct (last _) as [name|].
    2:{ exists []. rewrite withNotes_nil. cbn. done. }
    destruct (packageResults st !! name) as [q|] eqn:Hq.
    2:{ exists []. rewrite withNotes_nil. cbn. done. }
    destruct (decide (name = P)) as [->|Hne].
    + eexists [_]. cbn. rewrite lookup_insert_eq. assert (q = p) as -> by congruence.
      split; [done|]. split; [|tauto]. constructor; [|done]. by eexists _, _.
    + exists []. rewrite withNotes_nil. cbn. rewrite lookup_insert_ne by done.
      split; [done|]. by split.
  - split; [done|]. exists []. by rewrite withNotes_nil.
  - destruct (Ensured_Inv _ _ _ _ _ (Inv_lineNumber _ _ HI) He) as (HI1 & Hq & Hne).
    pose proof (Ensured_fields _ _ _ _ _ He) as (Hcur & _ & _ & _).
    assert (TestEvent.Package event' ≠ P ∧ packageResults st1 !! P = Some p) as [HneP Hp1].
    { cbn in Hother. destruct He as [q' Hq'|Hnone Hpkg Ht Ha|Hnone Hpkg].
      - split; [|done]. rewrite bool_decide_eq_false_2 in Hother by done. congruence.
      - rewrite Hpkg, Ht, Ha in Hother. rewrite !bool_decide_eq_true_2 in Hother by done.
        cbn in Hother. assert (orphanedOutputPackage ≠ P) as HneP by congruence.
        split; [done|]. unfold createPackage. cbn.
        destruct (containsString _ _); cbn; by rewrite lookup_insert_ne.
      - rewrite bool_decide_eq_false_2 in Hother by done.
        assert (TestEvent.Package event ≠ P) as HneP by congruence.
        split; [done|]. unfold createPackage. cbn.
        destruct (containsString _ _); cbn; by rewrite lookup_insert_ne. }
    split.
    + apply (Dispatch_untrackedPackage st1 event' q st' P); [|done|done].
      unfold untrackedPackage. rewrite Hcur. exact Hun.
    + exists []. rewrite withNotes_nil.
      rewrite (Dispatch_other_package st1 event' q st' P HD) by done. by split.
Qed.

Lemma fold_elsewhere `{GoRuntime} (lines : list Line) (st : State) (P : string)
    (p : PackageResult.t) :
  Inv st -> Forall (fun line => packageOf line ≠ Some P) lines ->
  untrackedPackage P st -> packageResults st !! P = Some p ->
  untrackedPackage P (fold_left processLine lines st)
  ∧ exists notes,
      packageResults (fold_left processLine lines st) !! P = Some (withNotes notes p)
      ∧ Forall malformedNote notes
      ∧ (Forall (fun line => ¬ isBadLine line) lines -> notes = []).
Proof.
  revert st p. induction lines as [|line lines IH]; intros st p HI Hall Hun Hp.
  { split; [done|]. exists []. by rewrite withNotes_nil. }
  apply Forall_cons in Hall as [Hline Hall]. cbn [fold_left].
  pose proof (processLine_cases st line) as HS.
  destruct (Step_elsewhere st line _ P p HI Hline HS Hun Hp)
    as (Hun1 & n1 & Hp1 & Hn1 & Hnil1).
  destruct (IH _ _ (Step_Inv _ _ _ HI HS) Hall Hun1 Hp1) as (Hun2 & n2 & Hp2 & Hn2 & Hnil2).
  split; [done|]. exists (n1 ++ n2)%list. rewrite <- withNotes_app.
  split; [done|]. split; [by apply Forall_app|].
  intros [Hb Hbs]%Forall_cons. by rewrite Hnil1, Hnil2.
Qed.

End QuietPackage.

(** X3: a package of which nothing is known but package-level output,
    one line of it saying that there are no test files, and which then
    reports pass, fail or skip, is returned with the status it reported
    and one test "Package P Status" with status SKIP that holds the output
    lines, whatever follows that is no event of the package.  Its summary
    holds nothing but the notes of malformed lines that follow; it is
    empty when none does. *)
Theorem no_test_files_placeholder `{GoRuntime} (l1 l3 : list Line) (P action : string)
    (outs : list string) (e0 e1 : float) (o1 : string) :
  P ≠ "" -> ParseProofs.isDone action ->
  P ∉ omap ParseProofs.packageOf l1 ->
  Exists (fun o => isNoTestFilesLine (gostrings.TrimRightNewlines o) = true) outs ->
  Forall (fun line => ParseProofs.packageOf line ≠ Some P) l3 ->
  exists notes,
    filter (fun q => PackageResult.PackageName q = P)
      (Parse (l1 ++ map (fun o => ev "output" P "" e0 o) outs
              ++ ev action P "" e1 o1 :: l3) None).1
    = [PackageResult.mk P (statusOfAction action) notes
         [TestResult.mk P ("Package " ++ P ++ " Status") StatusSkip
            (map gostrings.TrimRightNewlines outs) (durationOf e1)]
         (durationOf e1)]
    ∧ Forall QuietPackage.malformedNote notes
    ∧ (Forall (fun line => ¬ QuietPackage.isBadLine line) l3 -> notes = []).
Proof.
  intros HP Hd Hunseen Hex Hother. cbn [Parse fst].
  set (outputs := map (fun o => ev "output" P "" e0 o) outs).
  set (upto := (l1 ++ outputs ++ [ev action P "" e1 o1])%list).
  assert ((l1 ++ outputs ++ ev action P "" e1 o1 :: l3)%list = (upto ++ l3)%list) as ->.
  { unfold upto. by rewrite <- !app_assoc. }
  pose proof (scanLoop_Inv l1) as HI0.
  pose proof (PackageOutput.unseen_unknown l1 P Hunseen) as Hnone.
  assert (outs ≠ []) as Hne by (intros ->; by apply Exists_nil in Hex).
  destruct (PackageOutput.fold_package_output outs (scanLoop l1) P e0 HI0 HP Hne) as [Hp1 Hc1].
  fold outputs in Hp1, Hc1. rewrite <- scanLoop_app in Hp1, Hc1.
  unfold PackageOutput.packageAt in Hp1. rewrite Hnone in Hp1. cbn in Hp1.
  pose proof (scanLoop_Inv (l1 ++ outputs)) as HI1.
  pose proof (PackageOutput.package_done _ P action e1 o1 _ HI1 Hp1 Hd) as Hst.
  assert (scanLoop upto = processLine (scanLoop (l1 ++ outputs)) (ev action P "" e1 o1))
    as Hlast.
  { unfold upto. by rewrite app_assoc, scanLoop_app. }
  rewrite <- Hlast in Hst. clear Hlast.
  rewrite QuietPackage.sweptPackage_none in Hst.
  2:{ rewrite Hc1. intros e He.
      apply (QuietPackage.unknown_untracked (scanLoop l1) P 0 HI0 Hnone e).
      rewrite mapRange_perm in He. by rewrite mapRange_perm. }
  assert (QuietPackage.untrackedPackage P (scanLoop upto)) as Hun.
  { rewrite Hst. cbn. intros key t [_ Hne']%map_lookup_filter_Some. exact Hne'. }
  assert (packageResults (scanLoop upto) !! P
          = Some (PackageResult.mk P (statusOfAction action) []
                    [TestResult.mk P ("Package " ++ P ++ " Status") StatusSkip
                       (map gostrings.TrimRightNewlines outs) (durationOf e1)]
                    (durationOf e1))) as Hp.
  { rewrite Hst. cbn. rewrite lookup_insert_eq. f_equal.
    unfold placeholder. cbn [PackageResult.Tests PackageResult.SummaryOutput length].
    assert (bool_decide (statusOfAction action = StatusFail)
            || bool_decide (statusOfAction action = StatusSkip)
            || bool_decide (statusOfAction action = StatusPass) = true) as ->.
    { destruct (statusOfAction_terminal action) as [-> | [-> | ->]]; done. }
    rewrite (bool_decide_eq_true_2 (0 = 0)) by done.
    rewrite bool_decide_eq_true_2.
    2:{ destruct outs; [done|]. cbn. lia. }
    cbn [andb].
    pose proof (PackageOutput.classifySummary_found (map gostrings.TrimRightNewlines outs)
                  false) as Hc.
    destruct (classifySummary _ _) as [isNoTestFiles isBuildFailed].
    cbn in Hc. rewrite Hc; [done|]. apply Exists_fmap. exact Hex. }
  destruct (QuietPackage.fold_elsewhere l3 (scanLoop upto) P _ (scanLoop_Inv upto)
              Hother Hun Hp) as (Hun' & notes & Hp' & Hnotes & Hnil).
  rewrite <- scanLoop_app in Hun', Hp'.
  exists notes. split; [|done].
  erewrite finalResults_package by exact Hp'.
  rewrite QuietPackage.finalOf_quiet by exact Hun'.
  unfold QuietPackage.withNotes. cbn.
  by rewrite QuietPackage.sortSlice_singleton.
Qed.

Module TaggedOutput.

Import gostrings.

Lemma prefix_app (a b : string) : String.prefix a (a ++ b) = true.
Proof.
  induction a as [|c a IH]; [by destruct b|].
  change (String.prefix (String c a) (String c (a ++ b)) = true). cbn [String.prefix].
  destruct (ascii_dec c c); [exact IH|done].
Qed.

Lemma substring_whole (s : string) : String.substring 0 (String.length s) s = s.
Proof. induction s as [|c s IH]; cbn; [done|]. by rewrite IH. Qed.

Lemma substring_app_r (a b : string) :
  String.substring (String.length a) (String.length (a ++ b) - String.length a) (a ++ b) = b.
Proof.
  induction a as [|c a IH].
  - change ("" ++ b) with b. cbn [String.length]. rewrite Nat.sub_0_r. apply substring_whole.
  - change (String c a ++ b) with (String c (a ++ b)). exact IH.
Qed.

Lemma TrimPrefix_app (a b : string) : TrimPrefix (a ++ b) a = b.
Proof. unfold TrimPrefix. rewrite prefix_app. apply substring_app_r. Qed.

(** One leading blank is trimmed like none. *)
Lemma TrimSpace_blank (s : string) : TrimSpace (" " ++ s) = TrimSpace s.
Proof.
  unfold TrimSpace. f_equal. unfold TrimLeftSpace.
  change (String.length (" " ++ s)) with (S (String.length s)).
  cbn [trimLeftFuel].
  assert (stripOne spaceRunes (" " ++ s) = Some s) as ->; [|done].
  change (" " ++ s) with (String " " s). cbn.
  do 5 (destruct (ascii_dec _ " ") as [Heq|_]; [vm_compute in Heq; discriminate Heq|]).
  destruct (ascii_dec _ " ") as [_|Hne]; [|by vm_compute in Hne].
  assert (String.prefix "" s = true) as -> by (by destruct s).
  rewrite Nat.sub_0_r. by rewrite substring_whole.
Qed.

Lemma tagged_line (T line : string) :
  "[" ++ T ++ "] " ++ line = ("[" ++ T ++ "]") ++ " " ++ line.
Proof.
  change ("[" ++ T ++ "] " ++ line) with (String "[" (T ++ "] " ++ line)).
  change (("[" ++ T ++ "]") ++ " " ++ line) with (String "[" ((T ++ "]") ++ " " ++ line)).
  f_equal. induction T as [|c T IH]; [done|].
  change (String c (T ++ "] " ++ line) = String c ((T ++ "]") ++ " " ++ line)).
  by rewrite IH.
Qed.

Lemma moveTagged_last (tag line : string) (summary : list string) :
  Forall (fun l => HasPrefix l tag = false) summary -> HasPrefix line tag = true ->
  moveTagged tag (summary ++ [line]) = ([TrimSpace (TrimPrefix line tag)], summary).
Proof.
  intros Hall Hl. induction Hall as [|l summary Hno _ IH]; cbn.
  - by rewrite Hl.
  - rewrite IH, Hno. done.
Qed.

End TaggedOutput.

(** X4: output of a test that is neither tracked nor completed is kept
    in the package's summary under the tag of the test's name; when the
    test then reports pass, fail or skip the line leaves the summary and
    becomes the output of the test's record, white space at its ends
    removed. *)
Theorem early_output_returns `{GoRuntime} (l1 : list Line) (P T action text : string)
    (e0 e1 : float) (o1 : string) (p : PackageResult.t) :
  T ≠ "" -> ParseProofs.isDone action ->
  packageResults (scanLoop l1) !! P = Some p ->
  currentTestResults (scanLoop l1) !! (P ++ "/" ++ T) = None ->
  Forall (fun t => TestResult.Name t ≠ T) (PackageResult.Tests p) ->
  Forall (fun line => gostrings.HasPrefix line ("[" ++ T ++ "]") = false)
    (PackageResult.SummaryOutput p) ->
  packageResults (scanLoop (l1 ++ [ev "output" P T e0 text])) !! P
    = Some (PackageResult.with_SummaryOutput
              (PackageResult.SummaryOutput p ++
               ["[" ++ T ++ "] " ++ gostrings.TrimRightNewlines text]) p)
  ∧ packageResults (scanLoop (l1 ++ [ev "output" P T e0 text; ev action P T e1 o1])) !! P
    = Some (PackageResult.with_Tests
              (PackageResult.Tests p ++
               [TestResult.mk P T (statusOfAction action)
                  [gostrings.TrimSpace (gostrings.TrimRightNewlines text)] (durationOf e1)])
              p).
Proof.
  intros HT Hd Hp Hk Htests Hsum.
  assert (scanLoop (l1 ++ [ev "output" P T e0 text])
          = storePackage P
              (PackageResult.with_SummaryOutput
                 (PackageResult.SummaryOutput p ++
                  ["[" ++ T ++ "] " ++ gostrings.TrimRightNewlines text]) p)
              (with_lineNumber (S (lineNumber (scanLoop l1))) (scanLoop l1))) as Hst1.
  { rewrite scanLoop_app. cbn [fold_left]. unfold ev. cbn [processLine].
    unfold processEvent, ensurePackage.
    cbn [packageResults with_lineNumber TestEvent.Package]. rewrite Hp.
    unfold dispatch, onOutput, testKeyOf.
    cbn [TestEvent.Action TestEvent.Test TestEvent.Package TestEvent.Output
         currentTestResults with_lineNumber].
    rewrite (bool_decide_eq_false_2 ("output" = "run")) by done.
    rewrite (bool_decide_eq_true_2 ("output" = "output")) by done.
    rewrite !(bool_decide_eq_false_2 (T = "")) by done.
    rewrite Hk.
    assert (appendToCompleted (PackageResult.Tests p) T (gostrings.TrimRightNewlines text) = None)
      as ->; [|done].
    apply appendToCompleted_None. unfold sameNamed. apply filter_none.
    intros t Ht. by apply (proj1 (Forall_forall _ _) Htests). }
  split; [rewrite Hst1; cbn; apply lookup_insert_eq|].
  change (l1 ++ [ev "output" P T e0 text; ev action P T e1 o1])%list
    with (l1 ++ [ev "output" P T e0 text] ++ [ev action P T e1 o1])%list.
  rewrite app_assoc, scanLoop_app, Hst1. cbn [fold_left]. unfold ev. cbn [processLine].
  unfold processEvent, ensurePackage.
  cbn [packageResults with_lineNumber storePackage with_packageResults TestEvent.Package].
  rewrite lookup_insert_eq.
  unfold dispatch. cbn [TestEvent.Action TestEvent.Test TestEvent.Elapsed].
  destruct (isDone_not_run _ Hd) as [Hnr Hno].
  rewrite (bool_decide_eq_false_2 _ Hnr), (bool_decide_eq_false_2 _ Hno).
  assert (bool_decide (action = "pass") || bool_decide (action = "fail")
          || bool_decide (action = "skip") = true) as ->.
  { destruct Hd as [-> | [-> | ->]]; done. }
  rewrite (bool_decide_eq_false_2 _ HT).
  unfold onTestDone, testKeyOf.
  cbn [TestEvent.Test TestEvent.Package currentTestResults with_lineNumber
       storePackage with_packageResults
       PackageResult.SummaryOutput PackageResult.with_SummaryOutput].
  rewrite (bool_decide_eq_false_2 _ HT), Hk.
  rewrite TaggedOutput.tagged_line.
  rewrite TaggedOutput.moveTagged_last; [|done|apply TaggedOutput.prefix_app].
  rewrite TaggedOutput.TrimPrefix_app, TaggedOutput.TrimSpace_blank.
  cbn. rewrite lookup_insert_eq. done.
Qed.

(** X5: the packages of the returned list have distinct names, none of
    them empty. *)
Theorem packages_named_once `{GoRuntime} (lines : list Line) (scanErr : option string) :
  NoDup (map PackageResult.PackageName (Parse lines scanErr).1)
  ∧ Forall (fun p => PackageResult.PackageName p ≠ "") (Parse lines scanErr).1.
Proof.
  unfold Parse. destruct scanErr; cbn [fst]; [split; constructor|].
  pose proof (scanLoop_Inv lines) as HI.
  pose proof (finalResults_names lines) as Hnames.
  split; [rewrite Hnames; apply (inv_nodup _ HI)|].
  apply Forall_forall. intros p Hp Hempty.
  assert ("" ∈ orderedPackageNames (scanLoop lines)) as Hin.
  { rewrite <- Hnames, <- Hempty. apply list_elem_of_fmap. by exists p. }
  apply (inv_dom _ HI) in Hin as [q Hq]. by rewrite (inv_noempty _ HI) in Hq.
Qed.

(** X6: an event without package, other than output without test, and an
    event of a known package whose action is none of run, output, pass,
    fail and skip, change the result no more than an empty line does. *)
Theorem ignored_event `{GoRuntime} (l1 l2 : list Line) (event : TestEvent.t)
    (scanErr : option string) :
  (TestEvent.Package event = ""
   ∧ ¬ (TestEvent.Test event = "" ∧ TestEvent.Action event = "output"))
  ∨ (TestEvent.Package event ∈ omap ParseProofs.packageOf l1
     ∧ TestEvent.Action event ≠ "run" ∧ TestEvent.Action event ≠ "output"
     ∧ ¬ ParseProofs.isDone (TestEvent.Action event)) ->
  Parse (l1 ++ EventLine event :: l2) scanErr = Parse (l1 ++ EmptyLine :: l2) scanErr.
Proof.
  intros Hcase. unfold Parse. destruct scanErr; [done|]. f_equal.
  unfold finalResults.
  assert (scanLoop (l1 ++ EventLine event :: l2) = scanLoop (l1 ++ EmptyLine :: l2)) as ->;
    [|done].
  rewrite !scanLoop_app. cbn [fold_left]. f_equal.
  pose proof (scanLoop_Inv l1) as HI.
  cbn [processLine]. unfold processEvent, ensurePackage.
  cbn [packageResults with_lineNumber].
  destruct Hcase as [[Hp Hno]|(Hin & Hnr & Hno & Hnd)].
  - rewrite Hp, (inv_noempty _ HI). rewrite (bool_decide_eq_true_2 ("" = "")) by done.
    destruct (bool_decide (TestEvent.Test event = "")) eqn:Ht;
      destruct (bool_decide (TestEvent.Action event = "output")) eqn:Ha; try done.
    apply bool_decide_eq_true in Ht, Ha. tauto.
  - assert (is_Some (packageResults (scanLoop l1) !! TestEvent.Package event)) as [p Hp].
    { apply (inv_dom _ HI). rewrite scanLoop_ordered.
      by apply PackageOutput.elem_of_firstSeen. }
    rewrite Hp. unfold dispatch.
    rewrite (bool_decide_eq_false_2 _ Hnr), (bool_decide_eq_false_2 _ Hno).
    unfold isDone in Hnd.
    rewrite !bool_decide_eq_false_2 by tauto. done.
Qed.

Module FiledTests.

Import gostrings.

(** Whether the line is the pass, fail or skip event of a test of
    package [P]. *)
Definition reportsTest (P : string) (line : Line) : Prop :=
  match line with
  | EventLine event =>
      isDone (TestEvent.Action event) ∧ TestEvent.Test event ≠ ""
      ∧ TestEvent.Package event = P
  | EmptyLine | BadLine _ => False
  end.

#[global] Instance reportsTest_dec (P : string) (line : Line) : Decision (reportsTest P line).
Proof. destruct line; unfold reportsTest, isDone; apply _. Defined.

(** The number of tests filed under [P]. *)
Definition filed (st : State) (P : string) : nat :=
  from_option (fun p => length (PackageResult.Tests p)) 0 (packageResults st !! P).

Lemma filed_store (st : State) (name : string) (p : PackageResult.t) (P : string) :
  filed (storePackage name p st) P
  = if decide (name = P) then length (PackageResult.Tests p) else filed st P.
Proof.
  unfold filed. cbn. destruct (decide (name = P)) as [->|Hne].
  - by rewrite lookup_insert_eq.
  - by rewrite lookup_insert_ne.
Qed.

Lemma appendToCompleted_length (tests tests' : list TestResult.t) (name outputLine : string) :
  appendToCompleted tests name outputLine = Some tests' -> length tests' = length tests.
Proof.
  revert tests'. induction tests as [|t tests IH]; intros tests'; cbn; [done|].
  case_bool_decide.
  - by intros [= <-].
  - destruct (appendToCompleted tests name outputLine) as [tl|]; [|done].
    cbn. intros [= <-]. cbn. by rewrite (IH tl).
Qed.

Lemma sweptPackage_length (pkg : string) (p : PackageResult.t)
    (entries : list (string * TestResult.t)) :
  (length (PackageResult.Tests p) <= length (PackageResult.Tests (sweptPackage pkg p entries)))%nat.
Proof.
  unfold sweptPackage. destruct (ofPackage pkg entries); [done|].
  cbn [PackageResult.Tests]. rewrite length_app. lia.
Qed.

Lemma placeholder_length (event : TestEvent.t) (status : TestStatus) (p : PackageResult.t) :
  (length (PackageResult.Tests p)
   <= length (PackageResult.Tests (placeholder event status p)))%nat.
Proof.
  unfold placeholder. destruct (_ && _); [|done].
  destruct (classifySummary _ _) as [[] b]; cbn; [rewrite length_app; lia|].
  destruct (b && _); cbn; [rewrite length_app; lia|done].
Qed.

Lemma filed_current (st : State) (current : gmap string TestResult.t) (P : string) :
  filed (with_currentTestResults current st) P = filed st P.
Proof. done. Qed.

Lemma Dispatch_filed `{GoRuntime} (st : State) (event : TestEvent.t)
    (pkgResult : PackageResult.t) (st' : State) (P : string) :
  packageResults st !! TestEvent.Package event = Some pkgResult ->
  Dispatch st event pkgResult st' ->
  (filed st P + (if decide (reportsTest P (EventLine event)) then 1 else 0) <= filed st' P)%nat.
Proof.
  intros Hp HD.
  assert (TestEvent.Package event = P -> filed st P = length (PackageResult.Tests pkgResult))
    as Hf.
  { intros <-. unfold filed. by rewrite Hp. }
  destruct (decide (reportsTest P (EventLine event))) as [(Hd & Hte & Hpk)|Hr].
  - (* the event reports a test of [P] *)
    destruct (isDone_not_run _ Hd) as [Hnr Hno].
    destruct HD as [Ha Ht|Ha Ht|Ha Ht|tr Ha Ht Hk|tests Ha Ht Hk Hap|Ha Ht Hk Hap
                   |tr Ha Ht Hk|Ha Ht Hk|Ha Ht|Ha1 Ha2 Ha3]; try done.
    + rewrite filed_current, filed_store, decide_True by done.
      cbn. rewrite length_app, (Hf Hpk). cbn. lia.
    + rewrite filed_current, filed_store, decide_True by done.
      cbn. rewrite length_app, (Hf Hpk). cbn. lia.
  - rewrite Nat.add_0_r.
    destruct HD as [Ha Ht|Ha Ht|Ha Ht|tr Ha Ht Hk|tests Ha Ht Hk Hap|Ha Ht Hk Hap
                   |tr Ha Ht Hk|Ha Ht Hk|Ha Ht|Ha1 Ha2 Ha3];
      rewrite ?filed_current, ?filed_store; try done;
      destruct (decide (TestEvent.Package event = P)) as [Heq|Hne]; try done;
      rewrite (Hf Heq); cbn [PackageResult.Tests PackageResult.with_Status
                             PackageResult.with_SummaryOutput PackageResult.with_Tests];
      rewrite ?length_app; try lia.
    + by rewrite (appendToCompleted_length _ _ _ _ Hap).
    + etransitivity; [|apply placeholder_length].
      etransitivity; [|apply sweptPackage_length]. done.
Qed.

Lemma Step_filed `{GoRuntime} (st : State) (line : Line) (st' : State) (P : string) :
  Inv st -> P ≠ "" -> P ≠ orphanedOutputPackage -> Step st line st' ->
  (filed st P + (if decide (reportsTest P line) then 1 else 0) <= filed st' P)%nat.
Proof.
  intros HI HP0 HP HS.
  destruct HS as [|raw|event Hnone Hpkg Hno|event st1 event' p st' He HD].
  - rewrite decide_False by (cbn; tauto). unfold filed. cbn. lia.
  - rewrite decide_False by (cbn; tauto). rewrite Nat.add_0_r. unfold onBadLine. cbn.
    destruct (last _) as [name|]; [|done].
    destruct (packageResults st !! name) as [q|] eqn:Hq; [|done].
    rewrite filed_store. destruct (decide (name = P)) as [->|Hne]; [|done].
    unfold filed. cbn. by rewrite Hq.
  - rewrite decide_False by (cbn; intros (_ & _ & HpP); congruence).
    unfold filed. cbn. lia.
  - destruct (Ensured_Inv _ _ _ _ _ (Inv_lineNumber _ _ HI) He) as (HI1 & Hp & Hne).
    pose proof (Dispatch_filed st1 event' p st' P Hp HD) as Hle.
    assert (filed st P <= filed st1 P
            ∧ (reportsTest P (EventLine event) -> reportsTest P (EventLine event')))%nat
      as [Hle1 Himp].
    { destruct He as [q Hq|Hnone Hpkg Ht Ha|Hnone Hpkg].
      - done.
      - split; [|cbn; intros (_ & ? & _); done].
        unfold createPackage. cbn. unfold filed.
        destruct (containsString _ _); cbn; rewrite lookup_insert_ne by done; done.
      - split; [|done]. cbn in Hnone. unfold createPackage. cbn. unfold filed.
        destruct (containsString _ _); cbn;
          (destruct (decide (TestEvent.Package event = P)) as [<-|Hn];
           [rewrite Hnone; cbn; lia|by rewrite lookup_insert_ne]). }
    destruct (decide (reportsTest P (EventLine event))) as [Hr|Hr]; [|lia].
    rewrite decide_True in Hle by auto. lia.
Qed.

Lemma fold_filed `{GoRuntime} (lines : list Line) (st : State) (P : string) :
  Inv st -> P ≠ "" -> P ≠ orphanedOutputPackage ->
  (filed st P + length (filter (reportsTest P) lines)
   <= filed (fold_left processLine lines st) P)%nat.
Proof.
  intros HI HP0 HP. revert st HI.
  induction lines as [|line lines IH]; intros st HI; cbn [fold_left]; [cbn; lia|].
  pose proof (processLine_cases st line) as HS.
  pose proof (Step_filed st line _ P HI HP0 HP HS) as Hle.
  pose proof (IH _ (Step_Inv _ _ _ HI HS)) as Hle'.
  rewrite filter_cons. destruct (decide (reportsTest P line)); cbn [length]; lia.
Qed.

End FiledTests.

(** X7: every pass, fail and skip event of a test adds a record to the
    tests of the event's package, and no record is taken away again:
    the returned package holds at least as many tests as the stream
    holds such events for it. *)
Theorem no_result_dropped `{GoRuntime} (lines : list Line) (P : string) :
  P ≠ "" -> P ≠ orphanedOutputPackage ->
  Exists (FiledTests.reportsTest P) lines ->
  exists p,
    filter (fun q => PackageResult.PackageName q = P) (Parse lines None).1 = [p]
    ∧ (length (filter (FiledTests.reportsTest P) lines) <= length (PackageResult.Tests p))%nat.
Proof.
  intros HP0 HP Hex. cbn [Parse fst].
  pose proof (FiledTests.fold_filed lines initState P Inv_init HP0 HP) as Hle.
  fold (scanLoop lines) in Hle. unfold FiledTests.filed at 1 in Hle. cbn in Hle.
  assert (0 < length (filter (FiledTests.reportsTest P) lines))%nat as Hpos.
  { apply Exists_exists in Hex as (line & Hin & Hr).
    assert (line ∈ filter (FiledTests.reportsTest P) lines) as Hf
      by (by apply list_elem_of_filter).
    destruct (filter _ lines); [by apply elem_of_nil in Hf|cbn; lia]. }
  unfold FiledTests.filed in Hle.
  destruct (packageResults (scanLoop lines) !! P) as [p0|] eqn:Hp0; [|cbn in Hle; lia].
  cbn in Hle. exists (finalOf (scanLoop lines) P p0).
  split; [by apply finalResults_package|].
  unfold finalOf. cbn. rewrite sortSlice_perm.
  unfold finishedPackage. destruct (runningOf _ _); [done|].
  cbn. rewrite length_app. lia.
Qed.

(** A test that prints a line and passes. *)
Definition printedLine : list Line := [ev "output" "pkgA" "TestX" 0 "ok"].

(** After the report of TestX another test of pkgA prints and passes.
    No line of it is output of TestX. *)
Definition afterReport : list Line :=
  [ev "run" "pkgA" "TestY" 0 ""; ev "output" "pkgA" "TestY" 0 "ok";
   ev "pass" "pkgA" "TestY" 0.5 ""; ev "pass" "pkgA" "" 1 ""].

(** An instance: TestX of pkgA is run, prints a line and passes; TestY and the package follow. *)
Lemma tracked_test_finalized_witness :
  exists p,
    filter (fun q => PackageResult.PackageName q = "pkgA")
      (Parse (H := stableRuntime)
         ([] ++ ev "run" "pkgA" "TestX" 0 "" :: printedLine
          ++ ev "pass" "pkgA" "TestX" 0.5 "" :: afterReport) None).1 = [p]
    ∧ TestResult.mk "pkgA" "TestX" (statusOfAction "pass")
        (concat (map (TrackedOutput.outputFor "pkgA" "TestX") printedLine))
        (durationOf (H := stableRuntime) 0.5)
      ∈ PackageResult.Tests p.
Proof.
  apply (tracked_test_finalized (H := stableRuntime) [] printedLine afterReport
           "pkgA" "TestX" "pass" 0 0.5 "" "").
  - discriminate.
  - discriminate.
  - left. reflexivity.
  - repeat constructor. unfold ParseProofs.hitsKey, ParseProofs.isDone. simpl.
    intros [(_ & _ & [Hr|[Hd|[Hd|Hd]]])|(Ht & _)]; discriminate.
  - repeat constructor; unfold TrackedOutput.lateOutput; simpl;
      intros (Ha & [(_ & Ht)|(Hp & _)]); discriminate.
Defined.

(** The stream before package pkgA fails: TestX is run and has not
    reported. *)
Definition runningTest : list Line := [ev "run" "pkgA" "TestX" 0 ""].

(** An instance: pkgA fails while TestX is still tracked. *)
Lemma package_event_sweeps_witness :
  currentTestResults (scanLoop (H := stableRuntime) (runningTest ++ [ev "fail" "pkgA" "" 0.5 ""]))
  = filter (fun kv => TestResult.PackageName kv.2 ≠ "pkgA")
      (currentTestResults (scanLoop (H := stableRuntime) runningTest)).
Proof.
  refine (proj1 (package_event_sweeps (H := stableRuntime) runningTest "pkgA" "fail" 0.5 ""
                   _ _)).
  - discriminate.
  - right. left. reflexivity.
Defined.

(** What [go test] prints for a package without test files. *)
Definition noTestFilesOutput : list string := ["?   pkgB [no test files]"].

(** After pkgB another package runs a test. *)
Definition nextPackage : list Line :=
  [ev "run" "pkgC" "TestZ" 0 ""; ev "pass" "pkgC" "TestZ" 0.5 ""; ev "pass" "pkgC" "" 0.5 ""].

(** An instance: pkgB prints that it has no test files and is skipped; pkgC follows. *)
Lemma no_test_files_placeholder_witness :
  exists notes,
    filter (fun q => PackageResult.PackageName q = "pkgB")
      (Parse (H := stableRuntime)
         ([] ++ map (fun o => ev "output" "pkgB" "" 0 o) noTestFilesOutput
          ++ ev "skip" "pkgB" "" 0 "" :: nextPackage) None).1
    = [PackageResult.mk "pkgB" (statusOfAction "skip") notes
         [TestResult.mk "pkgB" ("Package " ++ "pkgB" ++ " Status") StatusSkip
            (map gostrings.TrimRightNewlines noTestFilesOutput)
            (durationOf (H := stableRuntime) 0)]
         (durationOf (H := stableRuntime) 0)]
    ∧ Forall QuietPackage.malformedNote notes
    ∧ (Forall (fun line => ¬ QuietPackage.isBadLine line) nextPackage -> notes = []).
Proof.
  apply (no_test_files_placeholder (H := stableRuntime) [] nextPackage "pkgB" "skip"
           noTestFilesOutput 0 0 "").
  - discriminate.
  - right. right. reflexivity.
  - simpl. apply not_elem_of_nil.
  - constructor. vm_compute. reflexivity.
  - repeat constructor; vm_compute; discriminate.
Defined.

(** Package pkgA has printed a line of its own. *)
Definition packageLine : list Line := [ev "output" "pkgA" "" 0 "hello"].

(** An instance: TestX of pkgA prints before it is known, then passes. *)
Lemma early_output_returns_witness :
  let p := PackageResult.mk "pkgA" StatusUnknown ["hello"] [] 0 in
  packageResults
    (scanLoop (H := stableRuntime) (packageLine ++ [ev "output" "pkgA" "TestX" 0 " early "]))
    !! "pkgA"
  = Some (PackageResult.with_SummaryOutput
            (PackageResult.SummaryOutput p ++
             ["[" ++ "TestX" ++ "] " ++ gostrings.TrimRightNewlines " early "]) p)
  ∧ packageResults
      (scanLoop (H := stableRuntime)
         (packageLine ++ [ev "output" "pkgA" "TestX" 0 " early ";
                          ev "pass" "pkgA" "TestX" 0.5 ""]))
      !! "pkgA"
    = Some (PackageResult.with_Tests
              (PackageResult.Tests p ++
               [TestResult.mk "pkgA" "TestX" (statusOfAction "pass")
                  [gostrings.TrimSpace (gostrings.TrimRightNewlines " early ")]
                  (durationOf (H := stableRuntime) 0.5)])
              p).
Proof.
  apply (early_output_returns (H := stableRuntime) packageLine "pkgA" "TestX" "pass" " early "
           0 0.5 "" (PackageResult.mk "pkgA" StatusUnknown ["hello"] [] 0)).
  - discriminate.
  - left. reflexivity.
  - vm_compute. reflexivity.
  - vm_compute. reflexivity.
  - constructor.
  - constructor; [vm_compute; reflexivity|constructor].
Defined.

(** An event without package is of no package. *)
(** An instance: a pause event without package between the run and the pass of TestX. *)
Lemma ignored_event_witness :
  Parse (H := stableRuntime)
    (runningTest ++ EventLine (TestEvent.mk "pause" "" "TestX" 0 "")
     :: [ev "pass" "pkgA" "TestX" 0.5 ""]) None
  = Parse (H := stableRuntime)
      (runningTest ++ EmptyLine :: [ev "pass" "pkgA" "TestX" 0.5 ""]) None.
Proof.
  apply (ignored_event (H := stableRuntime) runningTest [ev "pass" "pkgA" "TestX" 0.5 ""]
           (TestEvent.mk "pause" "" "TestX" 0 "") None).
  left. split; [reflexivity|]. simpl. intros [Ht _]. discriminate.
Defined.

(** Two tests of pkgA report. *)
Definition twoReports : list Line :=
  [ev "run" "pkgA" "TestX" 0 ""; ev "pass" "pkgA" "TestX" 0.5 "";
   ev "skip" "pkgA" "TestY" 0 ""; ev "pass" "pkgA" "" 0.5 ""].

(** An instance: pkgA, of which TestX and TestY report. *)
Lemma no_result_dropped_witness :
  exists p,
    filter (fun q => PackageResult.PackageName q = "pkgA")
      (Parse (H := stableRuntime) twoReports None).1 = [p]
    ∧ (length (filter (FiledTests.reportsTest "pkgA") twoReports)
       <= length (PackageResult.Tests p))%nat.
Proof.
  apply (no_result_dropped (H := stableRuntime) twoReports "pkgA").
  - discriminate.
  - discriminate.
  - apply Exists_cons_tl, Exists_cons_hd. simpl.
    split; [left; reflexivity|]. split; [discriminate|reflexivity].
Defined.

Module StringLemmas.

Lemma length_append (a b : string) :
  String.length (a ++ b) = String.length a + String.length b.
Proof.
  induction a as [|c a IH]; [done|].
  change (String c a ++ b) with (String c (a ++ b)). cbn. by rewrite IH.
Qed.

Lemma length_substring (n : nat) (s : string) :
  n <= String.length s -> String.length (String.substring 0 n s) = n.
Proof.
  revert s. induction n as [|n IH]; intros s Hn.
  - by destruct s.
  - destruct s as [|c s]; cbn in *; [lia|]. rewrite IH; lia.
Qed.

End StringLemmas.

(** X8: [limitString] returns at most [limit] bytes and never more than
    it was given: the length of the result is the smaller of the length
    of [s] and [limit], 0 for a negative [limit]. *)
Theorem limitString_length (s : string) (limit : Z) :
  Z.of_nat (String.length (tui.limitString s limit))
  = Z.min (Z.of_nat (String.length s)) (Z.max 0 limit).
Proof.
  unfold tui.limitString. repeat case_bool_decide.
  - lia.
  - cbn. lia.
  - rewrite StringLemmas.length_substring; lia.
  - rewrite StringLemmas.length_append, StringLemmas.length_substring; cbn; lia.
Qed.

(** X9: a string that [limitString] returned for a limit is returned
    unchanged for that limit. *)
Theorem limitString_idempotent (s : string) (limit : Z) :
  tui.limitString (tui.limitString s limit) limit = tui.limitString s limit.
Proof.
  unfold tui.limitString at 2 3. repeat case_bool_decide.
  - unfold tui.limitString. by rewrite bool_decide_eq_true_2.
  - unfold tui.limitString. cbn [String.length].
    rewrite bool_decide_eq_false_2 by lia. by rewrite !bool_decide_eq_true_2 by lia.
  - unfold tui.limitString. rewrite bool_decide_eq_true_2; [done|].
    rewrite StringLemmas.length_substring; lia.
  - unfold tui.limitString. rewrite bool_decide_eq_true_2; [done|].
    rewrite StringLemmas.length_append, StringLemmas.length_substring; cbn; lia.
Qed.

Module CompleteLemmas.

Lemma no_event_no_package `{GoRuntime} (lines : list Line) :
  Forall (fun line => forall event, line ≠ EventLine event) lines -> finalResults lines = [].
Proof.
  intros Hall.
  assert (orderedPackageNames (scanLoop lines) = []) as Hnames.
  { rewrite scanLoop_ordered.
    assert (omap packageOf lines = []) as ->; [|done].
    induction Hall as [|line rest Hl _ IH]; [done|]. cbn.
    destruct line as [| |event]; [done|done|]. by destruct (Hl event). }
  pose proof (finalResults_names lines) as Hn. rewrite Hnames in Hn.
  by destruct (finalResults lines).
Qed.

End CompleteLemmas.

(** X10: when the scanner reports an error, and not both the buffer is
    empty and the run failed, the report is the one package "JSON Parsing
    Error" with status FAIL and no test; its summary names the error and
    ends with the accumulated output, cut to 1021 bytes and "..." when it
    is longer than 1024 bytes. *)
Theorem parse_error_report `{GoRuntime} (scan : string -> list Line * option string)
    (accumulatedJSONOutput : string) (err : option string) (scanErr : string) :
  (scan accumulatedJSONOutput).2 = Some scanErr ->
  accumulatedJSONOutput ≠ "" ∨ err = None ->
  exists raw,
    tui.updateOnTestsComplete scan accumulatedJSONOutput err
    = [PackageResult.mk "JSON Parsing Error" StatusFail
         ["Failed to parse `go test -json` output.";
          "Error: error reading test output stream: " ++ scanErr;
          "Raw output (first 1KB):"; raw] [] 0]
    ∧ String.length raw <= 1024
    ∧ (String.length accumulatedJSONOutput <= 1024 -> raw = accumulatedJSONOutput)
    ∧ (1024 < String.length accumulatedJSONOutput ->
       raw = String.substring 0 1021 accumulatedJSONOutput ++ "...").
Proof.
  intros Hscan Hcase. exists (tui.limitString accumulatedJSONOutput 1024).
  split; [|split; [|split]].
  - unfold tui.updateOnTestsComplete, Parse. rewrite Hscan.
    destruct err as [errText|]; [|done].
    rewrite bool_decide_eq_false_2; [done|].
    destruct Hcase as [Hne|?]; [|done]. by destruct accumulatedJSONOutput.
  - unfold tui.limitString. repeat case_bool_decide; try lia.
    rewrite StringLemmas.length_append, StringLemmas.length_substring; cbn; lia.
  - intros Hle. unfold tui.limitString. rewrite bool_decide_eq_true_2; [done|lia].
  - intros Hlt. unfold tui.limitString. rewrite bool_decide_eq_false_2 by lia.
    rewrite bool_decide_eq_false_2 by lia. done.
Qed.

(** X11: when output was accumulated but no line of it decodes as an
    event, the report is empty, also when the run ended with an error:
    the error is used only when the buffer is empty. *)
Theorem undecodable_output_empty_report `{GoRuntime}
    (scan : string -> list Line * option string)
    (accumulatedJSONOutput : string) (err : option string) :
  accumulatedJSONOutput ≠ "" ->
  (scan accumulatedJSONOutput).2 = None ->
  Forall (fun line => forall event, line ≠ EventLine event) (scan accumulatedJSONOutput).1 ->
  tui.updateOnTestsComplete scan accumulatedJSONOutput err = [].
Proof.
  intros Hne Hscan Hall. unfold tui.updateOnTestsComplete, Parse. rewrite Hscan.
  rewrite (CompleteLemmas.no_event_no_package _ Hall).
  destruct err as [errText|]; [|done].
  rewrite bool_decide_eq_false_2; [done|]. by destruct accumulatedJSONOutput.
Qed.

(** A scanner that gives up on its input. *)
Definition failingScan (buffer : string) : list Line * option string :=
  ([], Some "bufio.Scanner: token too long").

(** An instance: a buffer of one byte on which the scanner fails. *)
Lemma parse_error_report_witness :
  exists raw,
    tui.updateOnTestsComplete (H := stableRuntime) failingScan "{" None
    = [PackageResult.mk "JSON Parsing Error" StatusFail
         ["Failed to parse `go test -json` output.";
          "Error: error reading test output stream: " ++ "bufio.Scanner: token too long";
          "Raw output (first 1KB):"; raw] [] 0]
    ∧ String.length raw <= 1024
    ∧ (String.length "{" <= 1024 -> raw = "{")
    ∧ (1024 < String.length "{" -> raw = String.substring 0 1021 "{" ++ "...").
Proof.
  apply (parse_error_report (H := stableRuntime) failingScan "{" None
           "bufio.Scanner: token too long").
  - reflexivity.
  - right. reflexivity.
Defined.

(** A scanner that finds one line, which is not JSON. *)
Definition plainTextScan (buffer : string) : list Line * option string :=
  ([BadLine buffer], None).

(** An instance: a line of plain text and a run that failed. *)
Lemma undecodable_output_empty_report_witness :
  tui.updateOnTestsComplete (H := stableRuntime) plainTextScan "go: no such tool"
    (Some "exit status 2") = [].
Proof.
  apply (undecodable_output_empty_report (H := stableRuntime) plainTextScan
           "go: no such tool" (Some "exit status 2")).
  - discriminate.
  - reflexivity.
  - constructor; [|constructor]. intros event. discriminate.
Defined.

Module RunnerProofs.

Import runner.

(** A configuration that passes the checks of [ExecuteTestsCmd]. *)
Definition validConfig (config : TestRunConfig) : Prop :=
  (Type_ config = SingleTest ∧ PackagePath config ≠ "" ∧ TestName config ≠ "")
  ∨ (Type_ config = PackageTests ∧ PackagePath config ≠ "")
  ∨ Type_ config = AllTests.

(** The pipes and the process can be made. *)
Definition startable (proc : Process) : Prop :=
  stdoutPipeErr proc = None ∧ stderrPipeErr proc = None ∧ startErr proc = None.


(** The completion message of line 294, if [cmd.Wait()] returns. *)
Definition completion (proc : Process) : list Msg :=
  match waitErr proc with
  | Some err => [TestRunCompleteMsg err]
  | None => []
  end.

(** A line that [bufio.Scanner] takes as a token. *)
Definition fits (line : string) : Prop :=
  (Z.of_nat (String.length line) < MaxScanTokenSize)%Z.


(** The scan takes the lines before the first one that does not fit. *)
Lemma scanLines_split (lines : list string) :
  exists before after,
    lines = (before ++ after)%list ∧ Forall fits before
    ∧ (forall long, head after = Some long -> ¬ fits long)
    ∧ scanLines lines = map dropCR before.
Proof.
  induction lines as [|line rest (before & after & -> & Hfit & Hlong & Hscan)].
  { exists [], []. by repeat split. }
  cbn [scanLines]. case_bool_decide as Hline.
  - exists (line :: before), after. repeat split; [by constructor|done|].
    cbn [map]. by rewrite Hscan.
  - exists [], (line :: before ++ after)%list. repeat split; [done|].
    intros long [= <-]. exact Hline.
Qed.

Lemma launch_started (config : TestRunConfig) (args : list string) (proc : Process) :
  startable proc ->
  launch config args proc
  = mkRun (Some (args, if bool_decide (WorkingDir config = "") then "." else WorkingDir config))
      (map TestOutputLineMsg (scanLines (stdoutLines proc)) ++ completion proc).
Proof. intros (H1 & H2 & H3). unfold launch. by rewrite H1, H2, H3. Qed.

Lemma launch_not_started (config : TestRunConfig) (args : list string) (proc : Process) :
  ¬ startable proc -> started (launch config args proc) = None.
Proof.
  intros Hno. unfold launch.
  destruct (stdoutPipeErr proc) eqn:H1; [done|].
  destruct (stderrPipeErr proc) eqn:H2; [done|].
  destruct (startErr proc) eqn:H3; [done|].
  by destruct Hno.
Qed.

#[global] Instance startable_dec (proc : Process) : Decision (startable proc).
Proof. unfold startable. apply _. Defined.

Lemma launch_started_iff (config : TestRunConfig) (args : list string) (proc : Process) :
  is_Some (started (launch config args proc)) ↔ startable proc.
Proof.
  split.
  - intros [x Hx]. destruct (decide (startable proc)) as [|Hno]; [done|].
    by rewrite (launch_not_started _ _ _ Hno) in Hx.
  - intros Hs. rewrite launch_started by done. by eexists.
Qed.

Lemma targets_differ :
  SingleTest ≠ PackageTests ∧ SingleTest ≠ AllTests ∧ PackageTests ≠ AllTests.
Proof. done. Qed.

Lemma launch_failed (config : TestRunConfig) (args : list string) (proc : Process) :
  started (launch config args proc) = None ->
  exists errText, sent (launch config args proc) = [TestRunCompleteMsg (Some errText)].
Proof.
  unfold launch.
  destruct (stdoutPipeErr proc); [by eexists|].
  destruct (stderrPipeErr proc); [by eexists|].
  destruct (startErr proc); [by eexists|done].
Qed.

(** When no command is started the one message is a completion message
    with an error. *)
Lemma not_started_sent (config : TestRunConfig) (proc : Process) :
  started (ExecuteTestsCmd config proc) = None ->
  exists errText, sent (ExecuteTestsCmd config proc) = [TestRunCompleteMsg (Some errText)].
Proof.
  unfold ExecuteTestsCmd.
  repeat case_bool_decide; try apply launch_failed.
  all: destruct (_ || _) || idtac; try apply launch_failed.
  all: by eexists.
Qed.

(** The messages of a command that is started. *)
Lemma started_sent (config : TestRunConfig) (proc : Process) :
  is_Some (started (ExecuteTestsCmd config proc)) ->
  sent (ExecuteTestsCmd config proc)
  = (map TestOutputLineMsg (scanLines (stdoutLines proc)) ++ completion proc)%list.
Proof.
  unfold ExecuteTestsCmd.
  assert (forall args, is_Some (started (launch config args proc)) ->
            sent (launch config args proc)
            = (map TestOutputLineMsg (scanLines (stdoutLines proc)) ++ completion proc)%list)
    as Hl.
  { intros args Hs. apply launch_started_iff in Hs. by rewrite launch_started. }
  repeat case_bool_decide; try apply Hl.
  all: destruct (_ || _) || idtac; try apply Hl.
  all: by intros [? [=]].
Qed.

End RunnerProofs.

(** X12: the messages of a run.  Either no command is started, and the
    one message is a completion message with an error; or a command is
    started, and the messages are the lines of its standard output before
    the first line of 64 KiB or more, each without its final carriage
    return, in order, and then the completion message with what
    [cmd.Wait] returned, if it returns: when the process does not exit no
    completion message is sent. *)
Theorem run_messages (config : runner.TestRunConfig) (proc : runner.Process) :
  (runner.started (runner.ExecuteTestsCmd config proc) = None
   ∧ exists errText,
       runner.sent (runner.ExecuteTestsCmd config proc)
       = [runner.TestRunCompleteMsg (Some errText)])
  ∨ (is_Some (runner.started (runner.ExecuteTestsCmd config proc))
     ∧ exists before after,
         runner.stdoutLines proc = (before ++ after)%list
         ∧ Forall RunnerProofs.fits before
         ∧ (forall long, head after = Some long -> ¬ RunnerProofs.fits long)
         ∧ runner.sent (runner.ExecuteTestsCmd config proc)
           = (map runner.TestOutputLineMsg (map runner.dropCR before)
              ++ match runner.waitErr proc with
                 | Some err => [runner.TestRunCompleteMsg err]
                 | None => []
                 end)%list).
Proof.
  destruct (runner.started (runner.ExecuteTestsCmd config proc)) as [cmd|] eqn:Hs.
  - right. split; [by eexists|].
    destruct (RunnerProofs.scanLines_split (runner.stdoutLines proc))
      as (before & after & Hlines & Hfit & Hlong & Hscan).
    exists before, after. repeat split; try done.
    rewrite RunnerProofs.started_sent by (rewrite Hs; by eexists). by rewrite Hscan.
  - left. split; [done|]. by apply RunnerProofs.not_started_sent.
Qed.

(** X13: a command is started exactly when the configuration passes the
    checks and the pipes and the process can be made. *)
Theorem command_started_iff (config : runner.TestRunConfig) (proc : runner.Process) :
  is_Some (runner.started (runner.ExecuteTestsCmd config proc))
  ↔ RunnerProofs.validConfig config ∧ RunnerProofs.startable proc.
Proof.
  destruct RunnerProofs.targets_differ as (Hsp & Hsa & Hpa).
  unfold runner.ExecuteTestsCmd, RunnerProofs.validConfig.
  case_bool_decide as HS.
  { destruct (bool_decide (runner.PackagePath config = "")) eqn:Hp;
      [|destruct (bool_decide (runner.TestName config = "")) eqn:Hn]; cbn [orb].
    - apply bool_decide_eq_true in Hp. split; [by intros [? [=]]|].
      intros [[(_ & ? & _)|[(Ht & _)|Ht]] _]; congruence.
    - apply bool_decide_eq_true in Hn. split; [by intros [? [=]]|].
      intros [[(_ & _ & ?)|[(Ht & _)|Ht]] _]; congruence.
    - apply bool_decide_eq_false in Hp, Hn. rewrite RunnerProofs.launch_started_iff.
      split; [|tauto]. intros Hs. split; [by left|done]. }
  case_bool_decide as HP.
  { case_bool_decide as Hp.
    - split; [by intros [? [=]]|].
      intros [[(Ht & _)|[(_ & ?)|Ht]] _]; congruence.
    - rewrite RunnerProofs.launch_started_iff.
      split; [|tauto]. intros Hs. split; [right; by left|done]. }
  case_bool_decide as HA.
  { rewrite RunnerProofs.launch_started_iff.
    split; [|tauto]. intros Hs. split; [right; by right|done]. }
  split; [by intros [? [=]]|].
  intros [[(Ht & _)|[(Ht & _)|Ht]] _]; congruence.
Qed.


(** A process that starts, prints two lines and exits with status 1. *)
Definition failingProcess : runner.Process :=
  runner.mkProcess None None None ["{}"; "{}"] ["FAIL"] (Some (Some "exit status 1")).


Module ReportProofs.

Import parser report_model.

(** All tests of a result list. *)
Definition allTests (results : list PackageResult.t) : list TestResult.t :=
  concat (map PackageResult.Tests results).

Definition withStatus (s : TestStatus) (tests : list TestResult.t) : list TestResult.t :=
  filter (fun t => TestResult.Status t = s) tests.

Definition count (s : TestStatus) (tests : list TestResult.t) : Z :=
  Z.of_nat (length (withStatus s tests)).

Lemma count_cons (s : TestStatus) (t : TestResult.t) (tests : list TestResult.t) :
  count s (t :: tests)
  = ((if decide (TestResult.Status t = s) then 1 else 0) + count s tests)%Z.
Proof.
  unfold count, withStatus. rewrite filter_cons.
  destruct (decide (TestResult.Status t = s)); cbn [length]; lia.
Qed.

Lemma count_app (s : TestStatus) (l1 l2 : list TestResult.t) :
  count s (l1 ++ l2) = (count s l1 + count s l2)%Z.
Proof. unfold count, withStatus. rewrite filter_app, length_app. lia. Qed.

Definition failing (p : PackageResult.t) : Prop :=
  PackageResult.Status p = StatusFail
  ∨ Exists (fun t => TestResult.Status t = StatusFail) (PackageResult.Tests p).

(** The counters after the tests of one package. *)
Lemma countTests (tests : list TestResult.t) (m : Tally) :
  let m' := fold_left countTest tests m in
  totalDuration m' = totalDuration m
  ∧ totalTests m' = (totalTests m + Z.of_nat (length tests))%Z
  ∧ passedCount m' = (passedCount m + count StatusPass tests)%Z
  ∧ failedCount m' = (failedCount m + count StatusFail tests)%Z
  ∧ skippedCount m'
    = (skippedCount m + (Z.of_nat (length tests) - count StatusPass tests
                         - count StatusFail tests))%Z
  ∧ overallPackageStatus m'
    = (if decide (Exists (fun t => TestResult.Status t = StatusFail) tests)
       then StatusFail else overallPackageStatus m).
Proof.
  revert m. induction tests as [|t tests IH]; intros m; cbn zeta.
  { unfold count, withStatus. cbn.
    rewrite decide_False by (by intros ?%Exists_nil). repeat split; lia || done. }
  cbn [fold_left]. destruct (IH (countTest m t)) as (Hd & Ht & Hp & Hf & Hs & Ho).
  rewrite Hd, Ht, Hp, Hf, Hs, Ho, !count_cons. cbn [length].
  unfold countTest.
  destruct (TestResult.Status t) eqn:Hst; cbn;
    repeat match goal with
           | |- context [decide (?a = ?b :> TestStatus)] => destruct (decide (a = b)); try done
           end;
    (repeat split; try lia).
  all: destruct (decide (Exists _ tests)) as [He|He].
  all: try (rewrite decide_True by (by right); done).
  all: try (rewrite decide_False; [done|]; intros [?|?]%Exists_cons; [congruence|done]).
  rewrite decide_True by (by left).
  case_bool_decide as Hne; [done|].
  destruct (overallPackageStatus m); try done; by destruct Hne.
Qed.

Definition sumDurations (results : list PackageResult.t) : Z :=
  fold_right Z.add 0%Z (map PackageResult.Duration results).

Lemma wrap64_add (a b : Z) : wrap64 (wrap64 a + b) = wrap64 (a + b).
Proof.
  unfold wrap64. f_equal.
  replace ((a + 2 ^ 63) mod 2 ^ 64 - 2 ^ 63 + b + 2 ^ 63)%Z
    with ((a + 2 ^ 63) mod 2 ^ 64 + b)%Z by lia.
  rewrite Zplus_mod_idemp_l. f_equal. lia.
Qed.

(** What one package does to the status. *)
Definition statusAfter (o : TestStatus) (p : PackageResult.t) : TestStatus :=
  if decide (failing p) then StatusFail
  else if decide (PackageResult.Status p = StatusSkip ∧ o = StatusPass) then StatusSkip
  else o.

Lemma countPackage_spec (m : Tally) (p : PackageResult.t) :
  countPackage m p
  = mkTally (statusAfter (overallPackageStatus m) p)
      (wrap64 (totalDuration m + PackageResult.Duration p))
      (totalTests m + Z.of_nat (length (PackageResult.Tests p)))
      (passedCount m + count StatusPass (PackageResult.Tests p))
      (failedCount m + count StatusFail (PackageResult.Tests p))
      (skippedCount m
       + (Z.of_nat (length (PackageResult.Tests p)) - count StatusPass (PackageResult.Tests p)
          - count StatusFail (PackageResult.Tests p))).
Proof.
  unfold countPackage.
  destruct (countTests (PackageResult.Tests p)
              (mkTally (overallPackageStatus m)
                 (wrap64 (totalDuration m + PackageResult.Duration p))
                 (totalTests m) (passedCount m) (failedCount m) (skippedCount m)))
    as (Hd & Ht & Hp & Hf & Hs & Ho).
  cbn zeta in *. rewrite Hd, Ht, Hp, Hf, Hs, Ho. cbn. f_equal.
  unfold statusAfter, failing.
  destruct (decide (Exists _ (PackageResult.Tests p))) as [He|He].
  - rewrite decide_True by (by right).
    rewrite (bool_decide_eq_false_2 (StatusFail ≠ StatusFail)) by (by intros []).
    rewrite andb_false_r. by rewrite (bool_decide_eq_false_2 (StatusFail = StatusPass)), andb_false_r.
  - destruct (decide (PackageResult.Status p = StatusFail)) as [Hs'|Hs'].
    + rewrite decide_True by (by left). rewrite (bool_decide_eq_true_2 _ Hs'). cbn [andb].
      case_bool_decide as Hne; [done|].
      rewrite Hs'. rewrite (bool_decide_eq_false_2 (StatusFail = StatusSkip)) by done. cbn.
      destruct (overallPackageStatus m); try done; by destruct Hne.
    + rewrite decide_False by tauto. rewrite (bool_decide_eq_false_2 _ Hs'). cbn [andb].
      destruct (decide (PackageResult.Status p = StatusSkip ∧ overallPackageStatus m = StatusPass))
        as [[H1 H2]|Hno].
      * by rewrite (bool_decide_eq_true_2 _ H1), (bool_decide_eq_true_2 _ H2).
      * destruct (bool_decide (PackageResult.Status p = StatusSkip)) eqn:B1;
          destruct (bool_decide (overallPackageStatus m = StatusPass)) eqn:B2; try done.
        apply bool_decide_eq_true in B1, B2. tauto.
Qed.

Lemma tally_fold (results : list PackageResult.t) (m : Tally) :
  totalTests (fold_left countPackage results m)
    = (totalTests m + Z.of_nat (length (allTests results)))%Z
  ∧ passedCount (fold_left countPackage results m)
    = (passedCount m + count StatusPass (allTests results))%Z
  ∧ failedCount (fold_left countPackage results m)
    = (failedCount m + count StatusFail (allTests results))%Z
  ∧ skippedCount (fold_left countPackage results m)
    = (skippedCount m + (Z.of_nat (length (allTests results))
                         - count StatusPass (allTests results)
                         - count StatusFail (allTests results)))%Z
  ∧ overallPackageStatus (fold_left countPackage results m)
    = fold_left statusAfter results (overallPackageStatus m)
  ∧ wrap64 (totalDuration (fold_left countPackage results m))
    = wrap64 (totalDuration m + sumDurations results).
Proof.
  revert m. induction results as [|p results IH]; intros m.
  { unfold allTests, count, withStatus, sumDurations. cbn.
    repeat split; try lia. f_equal. lia. }
  cbn [fold_left]. destruct (IH (countPackage m p)) as (Ht & Hp & Hf & Hs & Ho & Hd).
  rewrite Ht, Hp, Hf, Hs, Ho, Hd. rewrite countPackage_spec. cbn.
  unfold allTests, sumDurations. cbn [map concat fold_right].
  rewrite !count_app, length_app.
  repeat split; try lia.
  rewrite wrap64_add. f_equal. lia.
Qed.

Lemma wrap64_wrap64 (z : Z) : wrap64 (wrap64 z) = wrap64 z.
Proof. pose proof (wrap64_add z 0) as Hz. by rewrite !Z.add_0_r in Hz. Qed.

Lemma totalDuration_wrapped (results : list PackageResult.t) (m : Tally) :
  wrap64 (totalDuration m) = totalDuration m ->
  wrap64 (totalDuration (fold_left countPackage results m))
  = totalDuration (fold_left countPackage results m).
Proof.
  revert m. induction results as [|p results IH]; intros m Hm; [done|].
  cbn [fold_left]. apply IH. rewrite countPackage_spec. cbn. apply wrap64_wrap64.
Qed.

Lemma statusAfter_fold (results : list PackageResult.t) (o : TestStatus) :
  fold_left statusAfter results o
  = if decide (Exists failing results) then StatusFail
    else if decide (o = StatusPass)
         then if decide (Exists (fun p => PackageResult.Status p = StatusSkip) results)
              then StatusSkip else StatusPass
         else o.
Proof.
  revert o. induction results as [|p results IH]; intros o; cbn [fold_left].
  { rewrite decide_False by (by intros ?%Exists_nil).
    rewrite (decide_False (P := Exists _ [])) by (by intros ?%Exists_nil).
    by destruct (decide (o = StatusPass)). }
  rewrite IH.
  destruct (decide (failing p)) as [Hf|Hf].
  { assert (statusAfter o p = StatusFail) as ->.
    { unfold statusAfter. by rewrite decide_True. }
    rewrite (decide_True (P := Exists failing (p :: results))) by (by left).
    rewrite (decide_False (P := StatusFail = StatusPass)) by done.
    by destruct (decide (Exists failing results)). }
  destruct (decide (Exists failing results)) as [He|He].
  { by rewrite decide_True by (by right). }
  rewrite (decide_False (P := Exists failing (p :: results))).
  2:{ intros [?|?]%Exists_cons; done. }
  destruct (decide (PackageResult.Status p = StatusSkip ∧ o = StatusPass)) as [[Hs Ho]|Hno].
  - assert (statusAfter o p = StatusSkip) as ->.
    { unfold statusAfter. rewrite decide_False by done. by rewrite decide_True. }
    rewrite (decide_False (P := StatusSkip = StatusPass)) by done.
    rewrite (decide_True (P := o = StatusPass)) by done.
    by rewrite decide_True by (by left).
  - assert (statusAfter o p = o) as ->.
    { unfold statusAfter. rewrite decide_False by done. by rewrite decide_False. }
    destruct (decide (o = StatusPass)) as [Ho|Ho]; [|done].
    destruct (decide (Exists _ results)) as [Hs|Hs].
    + by rewrite decide_True by (by right).
    + rewrite decide_False; [done|]. intros [?|?]%Exists_cons; tauto.
Qed.

Lemma terminal_counts (tests : list TestResult.t) :
  Forall (fun t => ParseProofs.isTerminal (TestResult.Status t)) tests ->
  (Z.of_nat (length tests) - count StatusPass tests - count StatusFail tests)%Z
  = count StatusSkip tests.
Proof.
  induction 1 as [|t tests Ht _ IH]; [done|].
  rewrite !count_cons. cbn [length].
  destruct Ht as [Ht | [Ht | Ht]]; rewrite Ht;
    repeat match goal with
           | |- context [decide (?a = ?b :> TestStatus)] => destruct (decide (a = b)); try done
           end; lia.
Qed.

End ReportProofs.

(** X15: the counters that the report shows: the total is the number of
    tests of all packages; passed and failed count the tests with status
    PASS and FAIL; every other test counts as skipped, so that the three
    add up to the total; the total duration is the sum of the packages'
    durations (the tests' own are not added) as an int64. *)
Theorem report_counts (results : list PackageResult.t) :
  report_model.totalTests (report_model.tally results)
    = Z.of_nat (length (ReportProofs.allTests results))
  ∧ report_model.passedCount (report_model.tally results)
    = ReportProofs.count StatusPass (ReportProofs.allTests results)
  ∧ report_model.failedCount (report_model.tally results)
    = ReportProofs.count StatusFail (ReportProofs.allTests results)
  ∧ (report_model.passedCount (report_model.tally results)
     + report_model.failedCount (report_model.tally results)
     + report_model.skippedCount (report_model.tally results)
     = report_model.totalTests (report_model.tally results))%Z
  ∧ report_model.totalDuration (report_model.tally results)
    = report_model.wrap64 (ReportProofs.sumDurations results).
Proof.
  unfold report_model.tally.
  set (m0 := report_model.mkTally _ 0 0 0 0 0).
  destruct (ReportProofs.tally_fold results m0) as (Ht & Hp & Hf & Hs & _ & Hd).
  rewrite Ht, Hp, Hf, Hs. cbn. repeat split; try lia.
  rewrite <- (ReportProofs.totalDuration_wrapped results m0) by done.
  rewrite Hd. done.
Qed.

(** X16: the overall status of the report is FAIL when a package or a
    test has status FAIL; otherwise SKIP when there is no result or a
    package has status SKIP; otherwise PASS. *)
Theorem report_overall_status (results : list PackageResult.t) :
  report_model.overallPackageStatus (report_model.tally results)
  = if decide (Exists ReportProofs.failing results) then StatusFail
    else if decide (results = []
                    ∨ Exists (fun p => PackageResult.Status p = StatusSkip) results)
         then StatusSkip else StatusPass.
Proof.
  unfold report_model.tally.
  destruct (ReportProofs.tally_fold results
              (report_model.mkTally
                 (if bool_decide (length results = 0) then StatusSkip else StatusPass)
                 0 0 0 0 0)) as (_ & _ & _ & _ & Ho & _).
  rewrite Ho, ReportProofs.statusAfter_fold. cbn.
  destruct (decide (Exists ReportProofs.failing results)); [done|].
  destruct results as [|p results].
  - rewrite (decide_True (P := [] = [] ∨ _)) by (by left).
    rewrite (bool_decide_eq_true_2 (length [] = 0)) by done.
    by rewrite (decide_False (P := StatusSkip = StatusPass)).
  - rewrite (bool_decide_eq_false_2 (length (p :: results) = 0)) by done.
    rewrite (decide_True (P := StatusPass = StatusPass)) by done.
    destruct (decide (Exists _ (p :: results))) as [Hs|Hs].
    + by rewrite decide_True by (by right).
    + rewrite decide_False; [done|]. intros [?|?]; done.
Qed.

(** X17: in the report of what [Parse] returns no test falls under the
    default of the switch: the skipped counter counts the tests with
    status SKIP. *)
Theorem report_of_parse_counts `{GoRuntime} (lines : list Line) (scanErr : option string) :
  report_model.skippedCount (report_model.tally (Parse lines scanErr).1)
  = ReportProofs.count StatusSkip (ReportProofs.allTests (Parse lines scanErr).1).
Proof.
  assert (Forall (fun t => isTerminal (TestResult.Status t))
            (ReportProofs.allTests (Parse lines scanErr).1)) as Hall.
  { unfold Parse. destruct scanErr; cbn [fst]; [constructor|].
    pose proof (finalResults_OK (fun _ => True) I lines) as Hok.
    unfold ReportProofs.allTests. apply Forall_concat, Forall_fmap.
    eapply Forall_impl; [apply Hok|].
    - apply Forall_forall. intros [| |event] _; cbn; done.
    - intros p [Hp _]. cbn. eapply Forall_impl; [exact Hp|]. by intros t [? _]. }
  unfold report_model.tally.
  set (m0 := report_model.mkTally _ 0 0 0 0 0).
  destruct (ReportProofs.tally_fold (Parse lines scanErr).1 m0) as (_ & _ & _ & Hs & _).
  rewrite Hs. cbn.
  rewrite (ReportProofs.terminal_counts _ Hall). lia.
Qed.

Module FinderProofs.

Import gostrings finder.

(** Induction on the tree, the entries of a directory included. *)
Fixpoint Node_nested_ind (P : Node -> Prop)
    (Hfile : forall name, P (FileNode name))
    (Hdir : forall name entries, Forall P entries -> P (DirNode name entries))
    (Hbroken : forall name err, P (BrokenNode name err))
    (node : Node) {struct node} : P node :=
  match node with
  | FileNode name => Hfile name
  | DirNode name entries =>
      Hdir name entries
        ((fix all (l : list Node) : Forall P l :=
            match l with
            | [] => @List.Forall_nil _ P
            | n :: rest =>
                @List.Forall_cons _ P n rest (Node_nested_ind P Hfile Hdir Hbroken n) (all rest)
            end) entries)
  | BrokenNode name err => Hbroken name err
  end.

Section Sound.

Variable parseFile : string -> option File.
Variable Join : string -> string -> string.
Variable absRootDir : string.

(** A test as [FindTests] reports it: a function of a file that parses,
    named "Test..." and taking one [*testing.T]; the file is named
    "..._test.go" and lies below directories, none of them skipped, whose
    names make the package directory. *)
Definition sound (t : TestInfo) : Prop :=
  exists dirs fname file fn,
    Forall (fun d => skippedName d = false) dirs
    ∧ HasSuffix fname "_test.go" = true
    ∧ FilePath t = fold_left Join (dirs ++ [fname])%list absRootDir
    ∧ PackageDir t = packageDirOf dirs
    ∧ parseFile (FilePath t) = Some file
    ∧ PackageName t = File_Name file
    ∧ FuncDeclOf fn ∈ Decls file
    ∧ Name t = FuncDecl_Name fn
    ∧ HasPrefix (Name t) "Test" = true
    ∧ isValidTestFunc fn = true.

Lemma testsOfFile_elem (path packageDir : string) (file : File) (t : TestInfo) :
  t ∈ testsOfFile path packageDir file ->
  exists fn,
    FuncDeclOf fn ∈ Decls file
    ∧ t = mkTestInfo (FuncDecl_Name fn) (File_Name file) packageDir path
    ∧ HasPrefix (FuncDecl_Name fn) "Test" = true ∧ isValidTestFunc fn = true.
Proof.
  unfold testsOfFile. intros Hin. apply list_elem_of_In, in_flat_map in Hin as (decl & Hd & Ht).
  destruct decl as [fn|]; cbn in Ht; [|done].
  destruct (HasPrefix (FuncDecl_Name fn) "Test") eqn:Hp; cbn in Ht; [|done].
  destruct (isValidTestFunc fn) eqn:Hv; cbn in Ht; [|done].
  destruct Ht as [<-|[]]. exists fn. by rewrite <- list_elem_of_In in Hd.
Qed.

Lemma walkFn_sound (path : string) (dirs : list string) (name : string) (dir : bool)
    (walkErr : option string) (tests : list TestInfo) :
  (dir = false ->
   path = fold_left Join (dirs ++ [name])%list absRootDir
   ∧ Forall (fun d => skippedName d = false) dirs) ->
  Forall sound tests ->
  Forall sound (walkFn parseFile path dirs name dir walkErr tests).1.
Proof.
  intros Hfile Hall. unfold walkFn. destruct walkErr; [done|].
  destruct dir; cbn [andb negb].
  { by destruct (skippedName name). }
  destruct (Hfile eq_refl) as [-> Hdirs].
  destruct (HasSuffix name "_test.go") eqn:Hs; [|done].
  destruct (parseFile _) as [file|] eqn:Hp; [|done]. cbn.
  apply Forall_app. split; [done|]. apply Forall_forall. intros t Ht.
  apply testsOfFile_elem in Ht as (fn & Hfn & -> & Hpre & Hv).
  exists dirs, name, file, fn. cbn. repeat split; done.
Qed.

Lemma walkEntries_sound (walk1 : Node -> list TestInfo -> list TestInfo * Outcome)
    (entries : list Node) (tests : list TestInfo) :
  Forall (fun entry => forall tests, Forall sound tests -> Forall sound (walk1 entry tests).1)
    entries ->
  Forall sound tests -> Forall sound (walkEntries walk1 entries tests).1.
Proof.
  intros Hall. revert tests. induction Hall as [|entry rest Hentry _ IH]; intros tests Ht.
  { done. }
  cbn [walkEntries]. specialize (Hentry tests Ht).
  destruct (walk1 entry tests) as [tests' [| |err]]; cbn in Hentry.
  - by apply IH.
  - destruct (isDir entry || isBroken entry); [by apply IH|done].
  - done.
Qed.

Lemma walk_sound (node : Node) :
  forall (path : string) (dirs inside : list string) (tests : list TestInfo),
    (isDir node = false ->
     path = fold_left Join (dirs ++ [nodeName node])%list absRootDir
     ∧ Forall (fun d => skippedName d = false) dirs) ->
    (isDir node = true ->
     path = fold_left Join inside absRootDir
     ∧ (skippedName (nodeName node) = false ->
        Forall (fun d => skippedName d = false) inside)) ->
    Forall sound tests ->
    Forall sound (walk parseFile Join path dirs inside node tests).1.
Proof.
  induction node as [name|name entries IH|name err] using Node_nested_ind;
    intros path dirs inside tests Hfile Hdir Ht; cbn [walk].
  - apply walkFn_sound; [|done]. intros _. by apply Hfile.
  - destruct (Hdir eq_refl) as [-> Hinside]. cbn in Hinside.
    unfold walkFn. cbn [andb negb].
    destruct (skippedName name) eqn:Hskip; [done|]. specialize (Hinside eq_refl).
    apply walkEntries_sound; [|done].
    eapply Forall_impl; [exact IH|]. intros entry Hentry tests' Ht'. cbn beta.
    apply Hentry; [| |done].
    + intros _. split; [by rewrite fold_left_app|done].
    + intros _. split; [by rewrite fold_left_app|].
      intros Hne. apply Forall_app. split; [done|]. by constructor.
  - apply walkFn_sound; [|done]. intros _. by apply Hfile.
Qed.

End Sound.

End FinderProofs.

(** X18: every test that [FindTests] reports for a root directory is a
    function of a file "..._test.go" that parses; the function is named
    "Test..." and takes one parameter field of type [*testing.T]; the file
    lies below directories none of which, the root included, is "vendor"
    or hidden; the names of the directories below the root make the test's
    PackageDir, and the package clause of the file its PackageName. *)
Theorem found_tests_sound (parseFile : string -> option finder.File)
    (Join : string -> string -> string) (quote : string -> string)
    (rootDir absRootDir name : string) (entries : list finder.Node) (t : finder.TestInfo) :
  t ∈ (finder.FindTests parseFile Join quote rootDir (inl absRootDir)
         (finder.DirNode name entries)).1 ->
  finder.skippedName name = false
  ∧ FinderProofs.sound parseFile Join absRootDir t.
Proof.
  unfold finder.FindTests.
  pose proof (FinderProofs.walk_sound parseFile Join absRootDir (finder.DirNode name entries)
                absRootDir [] [] []) as Hsound.
  destruct (finder.skippedName name) eqn:Hskip.
  { cbn. rewrite Hskip. cbn. by intros ?%elem_of_nil. }
  intros Hin. split; [done|].
  assert (Forall (FinderProofs.sound parseFile Join absRootDir)
            (finder.walk parseFile Join absRootDir [] [] (finder.DirNode name entries) []).1)
    as Hall.
  { apply Hsound; [done| |constructor]. intros _. split; [done|]. intros _. constructor. }
  destruct (finder.walk _ _ _ _ _ _ _) as [tests [| |err]]; cbn in *.
  - by apply (proj1 (Forall_forall _ _) Hall).
  - by apply (proj1 (Forall_forall _ _) Hall).
  - by apply elem_of_nil in Hin.
Qed.

Module FinderComplete.

Import gostrings finder.

(** A file named [fname] lies below the directories [dirs] of a
    directory with the entries [entries]. *)
Inductive FileAt : list string -> string -> list Node -> Prop :=
| FileAt_here fname entries :
    FileNode fname ∈ entries -> FileAt [] fname entries
| FileAt_below d sub dirs fname entries :
    DirNode d sub ∈ entries -> FileAt dirs fname sub -> FileAt (d :: dirs) fname entries.

Section Complete.

Variable parseFile : string -> option File.
Variable Join : string -> string -> string.

Definition failed (o : Outcome) : Prop :=
  match o with
  | Failed _ => True
  | Done | SkipDir => False
  end.

Lemma walkFn_mono (path : string) (dirs : list string) (name : string) (dir : bool)
    (walkErr : option string) (tests : list TestInfo) :
  tests ⊆ (walkFn parseFile path dirs name dir walkErr tests).1.
Proof.
  unfold walkFn. destruct walkErr; [done|].
  destruct (dir && skippedName name); [done|].
  destruct (negb dir && HasSuffix name "_test.go"); [|done].
  destruct (parseFile path); [|done]. cbn. intros t Ht. apply elem_of_app. by left.
Qed.

Lemma walkEntries_mono (walk1 : Node -> list TestInfo -> list TestInfo * Outcome)
    (entries : list Node) (tests : list TestInfo) :
  Forall (fun entry => forall tests, tests ⊆ (walk1 entry tests).1) entries ->
  tests ⊆ (walkEntries walk1 entries tests).1.
Proof.
  intros Hmono. revert tests. induction Hmono as [|entry rest Hm _ IH]; intros tests; [done|].
  cbn [walkEntries]. specialize (Hm tests).
  destruct (walk1 entry tests) as [tests' [| |err]]; cbn in Hm.
  - etransitivity; [exact Hm|apply IH].
  - destruct (isDir entry || isBroken entry); [|done]. etransitivity; [exact Hm|apply IH].
  - done.
Qed.

Lemma walk_mono (node : Node) :
  forall (path : string) (dirs inside : list string) (tests : list TestInfo),
    tests ⊆ (walk parseFile Join path dirs inside node tests).1.
Proof.
  induction node as [name|name entries IH|name err] using FinderProofs.Node_nested_ind;
    intros path dirs inside tests; cbn [walk].
  - apply walkFn_mono.
  - unfold walkFn. cbn [andb negb]. destruct (skippedName name); [done|].
    apply walkEntries_mono. eapply Forall_impl; [exact IH|].
    intros entry Hentry tests'. apply Hentry.
  - apply walkFn_mono.
Qed.

(** The walk of a file does not return [SkipDir]. *)
Lemma walk_file_no_skip (path : string) (dirs inside : list string) (node : Node)
    (tests : list TestInfo) :
  isDir node = false -> (walk parseFile Join path dirs inside node tests).2 ≠ SkipDir.
Proof.
  destruct node as [name|name entries|name err]; [|done|done].
  intros _. cbn. unfold walkFn. cbn.
  destruct (HasSuffix name "_test.go"); [|done]. by destruct (parseFile path).
Qed.

(** When the walk of the entries does not fail every entry is walked,
    without failure, and what its walk found stays. *)
Lemma walkEntries_visits (walk1 : Node -> list TestInfo -> list TestInfo * Outcome)
    (entries : list Node) (tests : list TestInfo) (entry : Node) :
  Forall (fun e => forall tests, tests ⊆ (walk1 e tests).1) entries ->
  Forall (fun e => isDir e = false -> forall tests, (walk1 e tests).2 ≠ SkipDir) entries ->
  ¬ failed (walkEntries walk1 entries tests).2 ->
  entry ∈ entries ->
  exists tests0,
    ¬ failed (walk1 entry tests0).2
    ∧ (walk1 entry tests0).1 ⊆ (walkEntries walk1 entries tests).1.
Proof.
  intros Hmono Hskip. revert tests.
  induction entries as [|e rest IH]; intros tests Hok Hin; [by apply elem_of_nil in Hin|].
  apply Forall_cons in Hmono as [Hm Hmono]. apply Forall_cons in Hskip as [Hs Hskip].
  cbn [walkEntries] in *.
  assert (rest_ok : forall tests',
            (walk1 e tests').1 ⊆ (walkEntries walk1 rest (walk1 e tests').1).1).
  { intros tests'. by apply walkEntries_mono. }
  destruct (walk1 e tests) as [tests' o] eqn:Hw.
  assert (tests' = (walk1 e tests).1) as Htests' by (by rewrite Hw).
  assert (o = (walk1 e tests).2) as Ho by (by rewrite Hw).
  apply elem_of_cons in Hin as [->|Hin].
  - exists tests. rewrite <- Ho, <- Htests'. destruct o as [| |err]; cbn in *.
    + split; [tauto|]. apply walkEntries_mono; done.
    + split; [tauto|]. destruct (isDir e || isBroken e); [|done].
      apply walkEntries_mono; done.
    + done.
  - destruct o as [| |err]; cbn in *.
    + by apply IH.
    + destruct (isDir e) eqn:Hd; cbn in *; [by apply IH|].
      destruct (isBroken e); [by apply IH|].
      exfalso. by apply (Hs eq_refl tests).
    + done.
Qed.

Lemma testsOfFile_intro (path packageDir : string) (file : File) (fn : FuncDecl) :
  FuncDeclOf fn ∈ Decls file -> HasPrefix (FuncDecl_Name fn) "Test" = true ->
  isValidTestFunc fn = true ->
  mkTestInfo (FuncDecl_Name fn) (File_Name file) packageDir path
    ∈ testsOfFile path packageDir file.
Proof.
  intros Hin Hp Hv. unfold testsOfFile. apply list_elem_of_In, in_flat_map.
  exists (FuncDeclOf fn). split; [by apply list_elem_of_In|].
  cbn. rewrite Hp, Hv. by left.
Qed.

Lemma entries_complete (dirs : list string) (fname : string) (entries : list Node)
    (file : File) (fn : FuncDecl) :
  FileAt dirs fname entries ->
  forall (path : string) (inside : list string) (tests : list TestInfo),
    Forall (fun d => skippedName d = false) dirs ->
    HasSuffix fname "_test.go" = true ->
    parseFile (fold_left Join (dirs ++ [fname])%list path) = Some file ->
    FuncDeclOf fn ∈ Decls file -> HasPrefix (FuncDecl_Name fn) "Test" = true ->
    isValidTestFunc fn = true ->
    ¬ failed
        (walkEntries
           (fun entry =>
              walk parseFile Join (Join path (nodeName entry)) inside
                (inside ++ [nodeName entry])%list entry)
           entries tests).2 ->
    mkTestInfo (FuncDecl_Name fn) (File_Name file) (packageDirOf (inside ++ dirs)%list)
      (fold_left Join (dirs ++ [fname])%list path)
    ∈ (walkEntries
         (fun entry =>
            walk parseFile Join (Join path (nodeName entry)) inside
              (inside ++ [nodeName entry])%list entry)
         entries tests).1.
Proof.
  induction 1 as [fname entries Hin|d sub dirs fname entries Hin HF IH];
    intros path inside tests Hdirs Hsuf Hparse Hfn Hpre Hvalid Hok;
    set (walk1 := fun entry =>
                    walk parseFile Join (Join path (nodeName entry)) inside
                      (inside ++ [nodeName entry])%list entry) in *.
  - destruct (walkEntries_visits walk1 entries tests (FileNode fname)) as (tests0 & _ & Hsub);
      [| |exact Hok|exact Hin|].
    + apply Forall_forall. intros e _ tests'. apply walk_mono.
    + apply Forall_forall. intros e _ Hd tests'. by apply walk_file_no_skip.
    + apply Hsub. unfold walk1. cbn [walk nodeName]. unfold walkFn. cbn [andb negb].
      rewrite Hsuf. cbn in Hparse. rewrite Hparse. cbn [fst].
      apply elem_of_app. right. rewrite app_nil_r. by apply testsOfFile_intro.
  - apply Forall_cons in Hdirs as [Hd Hdirs].
    destruct (walkEntries_visits walk1 entries tests (DirNode d sub)) as (tests0 & Hok0 & Hsub);
      [| |exact Hok|exact Hin|].
    + apply Forall_forall. intros e _ tests'. apply walk_mono.
    + apply Forall_forall. intros e _ Hd' tests'. by apply walk_file_no_skip.
    + apply Hsub. unfold walk1 in *. cbn [walk nodeName] in *. unfold walkFn in *.
      cbn [andb negb] in *. rewrite Hd in *.
      replace (inside ++ d :: dirs)%list with ((inside ++ [d]) ++ dirs)%list
        by (by rewrite <- app_assoc).
      by apply IH.
Qed.

(** An entry for which [os.Lstat] fails lies among [entries] or below
    directories of them that are not skipped. *)
Inductive BrokenAt : list Node -> Prop :=
| BrokenAt_here name err entries :
    BrokenNode name err ∈ entries -> BrokenAt entries
| BrokenAt_below d sub entries :
    DirNode d sub ∈ entries -> skippedName d = false -> BrokenAt sub -> BrokenAt entries.

Lemma entries_broken (entries : list Node) :
  BrokenAt entries ->
  forall (path : string) (inside : list string) (tests : list TestInfo),
    failed
      (walkEntries
         (fun entry =>
            walk parseFile Join (Join path (nodeName entry)) inside
              (inside ++ [nodeName entry])%list entry)
         entries tests).2.
Proof.
  induction 1 as [name err entries Hin|d sub entries Hin Hd _ IH]; intros path inside tests;
    set (walk1 := fun entry =>
                    walk parseFile Join (Join path (nodeName entry)) inside
                      (inside ++ [nodeName entry])%list entry) in *.
  - destruct (walkEntries walk1 entries tests) as [tests' o] eqn:Hw.
    destruct o as [| |err']; cbn; [| |done].
    all: destruct (walkEntries_visits walk1 entries tests (BrokenNode name err))
           as (tests0 & Hok0 & _); [| |rewrite Hw; cbn; tauto|exact Hin|].
    all: try (apply Forall_forall; intros e _ tests''; apply walk_mono).
    all: try (apply Forall_forall; intros e _ He tests''; by apply walk_file_no_skip).
    all: apply Hok0; by cbn.
  - destruct (walkEntries walk1 entries tests) as [tests' o] eqn:Hw.
    destruct o as [| |err']; cbn; [| |done].
    all: destruct (walkEntries_visits walk1 entries tests (DirNode d sub))
           as (tests0 & Hok0 & _); [| |rewrite Hw; cbn; tauto|exact Hin|].
    all: try (apply Forall_forall; intros e _ tests''; apply walk_mono).
    all: try (apply Forall_forall; intros e _ He tests''; by apply walk_file_no_skip).
    all: apply Hok0; unfold walk1; cbn [walk nodeName]; unfold walkFn; cbn [andb negb];
      rewrite Hd; apply IH.
Qed.

End Complete.

End FinderComplete.

(** X19: when [FindTests] returns no error, every function named
    "Test..." that takes one [*testing.T], in a file "..._test.go" that
    parses and lies below a root and directories that are neither
    "vendor" nor hidden, is among the tests it reports, with the
    directories' names as its PackageDir. *)
Theorem found_tests_complete (parseFile : string -> option finder.File)
    (Join : string -> string -> string) (quote : string -> string)
    (rootDir absRootDir name : string) (entries : list finder.Node)
    (dirs : list string) (fname : string) (file : finder.File) (fn : finder.FuncDecl) :
  (finder.FindTests parseFile Join quote rootDir (inl absRootDir)
     (finder.DirNode name entries)).2 = None ->
  finder.skippedName name = false ->
  FinderComplete.FileAt dirs fname entries ->
  Forall (fun d => finder.skippedName d = false) dirs ->
  finder.HasSuffix fname "_test.go" = true ->
  parseFile (fold_left Join (dirs ++ [fname])%list absRootDir) = Some file ->
  finder.FuncDeclOf fn ∈ finder.Decls file ->
  gostrings.HasPrefix (finder.FuncDecl_Name fn) "Test" = true ->
  finder.isValidTestFunc fn = true ->
  finder.mkTestInfo (finder.FuncDecl_Name fn) (finder.File_Name file)
    (finder.packageDirOf dirs) (fold_left Join (dirs ++ [fname])%list absRootDir)
  ∈ (finder.FindTests parseFile Join quote rootDir (inl absRootDir)
       (finder.DirNode name entries)).1.
Proof.
  intros Hnoerr Hroot HF Hdirs Hsuf Hparse Hfn Hpre Hvalid.
  pose proof (FinderComplete.entries_complete parseFile Join dirs fname entries file fn HF
                absRootDir [] [] Hdirs Hsuf Hparse Hfn Hpre Hvalid) as Hc.
  unfold finder.FindTests in *. cbn [finder.walk] in *. unfold finder.walkFn in *.
  cbn [andb negb] in *. rewrite Hroot in *. cbn [app] in *.
  destruct (finder.walkEntries _ entries []) as [tests [| |err]]; cbn in *;
    try done; apply Hc; tauto.
Qed.

(** X20: one entry for which [os.Lstat] fails, in the root or below
    directories that are not skipped, makes [FindTests] return an error
    and no test at all, whatever else the walk has found. *)
Theorem broken_entry_fails_discovery (parseFile : string -> option finder.File)
    (Join : string -> string -> string) (quote : string -> string)
    (rootDir absRootDir name : string) (entries : list finder.Node) :
  finder.skippedName name = false ->
  FinderComplete.BrokenAt entries ->
  exists err,
    finder.FindTests parseFile Join quote rootDir (inl absRootDir)
      (finder.DirNode name entries)
    = ([], Some ("error walking directory " ++ quote rootDir ++ ": " ++ err)).
Proof.
  intros Hroot HB.
  pose proof (FinderComplete.entries_broken parseFile Join entries HB absRootDir [] []) as Hf.
  unfold finder.FindTests. cbn [finder.walk]. unfold finder.walkFn.
  cbn [andb negb]. rewrite Hroot. cbn [app] in *.
  destruct (finder.walkEntries _ entries []) as [tests [| |err]]; cbn in Hf; try done.
  by exists err.
Qed.

(** A project with one test file, in the directory pkg. *)
Definition sampleEntries : list finder.Node :=
  [finder.FileNode "main.go";
   finder.DirNode "pkg" [finder.FileNode "a.go"; finder.FileNode "a_test.go"];
   finder.DirNode "vendor" [finder.FileNode "v_test.go"]].

Definition sampleJoin (dir name : string) : string := dir ++ "/" ++ name.

Definition sampleTestFunc : finder.FuncDecl :=
  finder.mkFuncDecl "TestA"
    (Some [finder.mkField ["t"]
             (finder.StarExpr (finder.SelectorExpr (finder.Ident "testing") "T"))]).

Definition sampleFile : finder.File :=
  finder.mkFile "pkg"
    [finder.OtherDecl; finder.FuncDeclOf (finder.mkFuncDecl "helper" (Some []));
     finder.FuncDeclOf sampleTestFunc].

Definition sampleParse (path : string) : option finder.File :=
  if bool_decide (path = "/proj/pkg/a_test.go") then Some sampleFile else None.

Definition sampleQuote (s : string) : string := "'" ++ s ++ "'".

Definition sampleTest : finder.TestInfo :=
  finder.mkTestInfo "TestA" "pkg" "pkg" "/proj/pkg/a_test.go".

(** An instance: TestA of pkg/a_test.go. *)
Lemma found_tests_sound_witness :
  finder.skippedName "proj" = false
  ∧ FinderProofs.sound sampleParse sampleJoin "/proj" sampleTest.
Proof.
  apply (found_tests_sound sampleParse sampleJoin sampleQuote "." "/proj" "proj"
           sampleEntries sampleTest).
  vm_compute. left.
Defined.

(** An instance: TestA of pkg/a_test.go. *)
Lemma found_tests_complete_witness :
  finder.mkTestInfo (finder.FuncDecl_Name sampleTestFunc) (finder.File_Name sampleFile)
    (finder.packageDirOf ["pkg"]) (fold_left sampleJoin (["pkg"] ++ ["a_test.go"])%list "/proj")
  ∈ (finder.FindTests sampleParse sampleJoin sampleQuote "." (inl "/proj")
       (finder.DirNode "proj" sampleEntries)).1.
Proof.
  apply (found_tests_complete sampleParse sampleJoin sampleQuote "." "/proj" "proj"
           sampleEntries ["pkg"] "a_test.go" sampleFile sampleTestFunc).
  - vm_compute. reflexivity.
  - vm_compute. reflexivity.
  - apply FinderComplete.FileAt_below
      with (sub := [finder.FileNode "a.go"; finder.FileNode "a_test.go"]).
    + right. left.
    + apply FinderComplete.FileAt_here. right. left.
  - constructor; [vm_compute; reflexivity|constructor].
  - vm_compute. reflexivity.
  - vm_compute. reflexivity.
  - right. right. left.
  - vm_compute. reflexivity.
  - vm_compute. reflexivity.
Defined.

(** The project with an entry that cannot be read in pkg. *)
Definition brokenEntries : list finder.Node :=
  [finder.FileNode "main.go";
   finder.DirNode "pkg"
     [finder.FileNode "a_test.go"; finder.BrokenNode "b_test.go" "permission denied"]].

(** An instance: an entry of pkg that cannot be read. *)
Lemma broken_entry_fails_discovery_witness :
  exists err,
    finder.FindTests sampleParse sampleJoin sampleQuote "." (inl "/proj")
      (finder.DirNode "proj" brokenEntries)
    = ([], Some ("error walking directory " ++ sampleQuote "." ++ ": " ++ err)).
Proof.
  apply (broken_entry_fails_discovery sampleParse sampleJoin sampleQuote "." "/proj" "proj"
           brokenEntries).
  - vm_compute. reflexivity.
  - apply FinderComplete.BrokenAt_below
      with (d := "pkg")
           (sub := [finder.FileNode "a_test.go";
                    finder.BrokenNode "b_test.go" "permission denied"]).
    + right. left.
    + vm_compute. reflexivity.
    + apply FinderComplete.BrokenAt_here with (name := "b_test.go") (err := "permission denied").
      right. left.
Defined.

Module UpdateProofs.

Import parser main_model.

Lemma append_assoc (a b c : string) : (a ++ b) ++ c = a ++ b ++ c.
Proof.
  induction a as [|x a IH]; [done|].
  change (String x ((a ++ b) ++ c) = String x (a ++ b ++ c)). by rewrite IH.
Qed.

Lemma append_empty_r (a : string) : a ++ "" = a.
Proof.
  induction a as [|x a IH]; [done|]. change (String x (a ++ "") = String x a). by rewrite IH.
Qed.

(** The lines, each followed by a newline. *)
Definition joined (lines : list string) : string :=
  fold_right (fun line rest => line ++ String gostrings.newline "" ++ rest) "" lines.

Definition isTrigger (msg : Msg) : Prop :=
  msg = triggerRunAllTestsMsg ∨ msg = triggerRunPackageTestsMsg
  ∨ msg = triggerRunSelectedTestMsg.

(** The message of the model for a message of the runner's channel. *)
Definition ofRunner (msg : runner.Msg) : Msg :=
  match msg with
  | runner.TestOutputLineMsg Line => TestOutputLineMsg Line
  | runner.TestRunCompleteMsg Err => TestRunCompleteMsg Err
  end.

Section Replay.

Context `{GoRuntime}.
Variable scan : string -> list Line * option string.
Variable env : Env.

(** [Update] on one message after the other: the commands that each
    call returns, and the last model. *)
Fixpoint replay (m : MainModel) (msgs : list Msg) : list (list Cmd) * MainModel :=
  match msgs with
  | [] => ([], m)
  | msg :: rest =>
      let '(m', cmds) := Update scan env m msg in
      let '(out, final) := replay m' rest in
      (cmds :: out, final)
  end.

Lemma replay_app (m : MainModel) (l1 l2 : list Msg) :
  replay m (l1 ++ l2)
  = ((replay m l1).1 ++ (replay (replay m l1).2 l2).1, (replay (replay m l1).2 l2).2)%list.
Proof.
  revert m. induction l1 as [|msg l1 IH]; intros m; cbn [replay app fst snd].
  { by destruct (replay m l2). }
  destruct (Update scan env m msg) as [m' cmds]. rewrite IH.
  destruct (replay m' l1) as [out1 m1]. cbn. by destruct (replay m1 l2).
Qed.

Lemma replay_lines (lines : list string) (m : MainModel) (ch : Chan) :
  state m = stateRunningTests -> testOutputChan m = Some ch ->
  replay m (map TestOutputLineMsg lines)
  = (replicate (length lines) [WaitForStreamMsgCmd ch],
     with_accumulatedJSONOutput (accumulatedJSONOutput m ++ joined lines) m).
Proof.
  revert m. induction lines as [|line lines IH]; intros m Hs Hc; cbn [replay map].
  { cbn. rewrite append_empty_r. by destruct m. }
  cbn [Update]. cbn [testOutputChan with_accumulatedJSONOutput]. rewrite Hc.
  unfold routeByState. cbn [state with_accumulatedJSONOutput]. rewrite Hs.
  rewrite IH by done. cbn [length replicate]. f_equal.
  unfold with_accumulatedJSONOutput. cbn. f_equal.
  unfold tui.onTestOutputLine. by rewrite !append_assoc.
Qed.

Lemma replay_run (m : MainModel) (ch : Chan) (lines : list string) (err : option string) :
  state m = stateRunningTests -> accumulatedJSONOutput m = "" ->
  replay m (StreamMsg ch :: map TestOutputLineMsg lines ++ [TestRunCompleteMsg err])
  = ((replicate (S (length lines)) [WaitForStreamMsgCmd ch]
      ++ [[DisplayReport (tui.updateOnTestsComplete scan (joined lines) err)]])%list,
     (updateOnTestsComplete scan
        (with_accumulatedJSONOutput (joined lines) (with_testOutputChan (Some ch) m)) err).1).
Proof.
  intros Hs Hb. cbn [replay Update]. unfold routeByState at 1.
  cbn [state with_testOutputChan]. rewrite Hs.
  rewrite replay_app. rewrite (replay_lines lines _ ch) by done.
  cbn [fst snd replay Update].
  cbn [accumulatedJSONOutput with_testOutputChan]. rewrite Hb.
  change ("" ++ joined lines) with (joined lines).
  unfold updateOnTestsComplete, routeByState.
  cbn [state with_testOutputChan with_accumulatedJSONOutput with_currentTestRunConfig
       currentTestRunConfig accumulatedJSONOutput].
  destruct (currentTestRunConfig m); cbn; rewrite Hs; done.
Qed.


End Replay.



End UpdateProofs.

(** X21: the messages of one run, in the order of the channel: for the
    stream message and for every output line [Update] returns the command
    that waits for the next message of that channel; the lines accumulate
    in the buffer, each followed by a newline; for the completion message
    [Update] returns the command that shows the report made of the buffer
    and the error, and the channel is forgotten.  The model stays in
    stateRunningTests. *)
Theorem run_session `{GoRuntime} (scan : string -> list Line * option string)
    (env : main_model.Env) (m : main_model.MainModel) (ch : main_model.Chan)
    (lines : list string) (err : option string) :
  main_model.state m = main_model.stateRunningTests ->
  main_model.accumulatedJSONOutput m = "" ->
  exists final,
    UpdateProofs.replay scan env m
      (main_model.StreamMsg ch :: map main_model.TestOutputLineMsg lines
       ++ [main_model.TestRunCompleteMsg err])
    = ((replicate (S (length lines)) [main_model.WaitForStreamMsgCmd ch]
        ++ [[main_model.DisplayReport
               (tui.updateOnTestsComplete scan (UpdateProofs.joined lines) err)]])%list,
       final)
    ∧ main_model.state final = main_model.stateRunningTests
    ∧ main_model.accumulatedJSONOutput final = UpdateProofs.joined lines
    ∧ main_model.testOutputChan final = None
    ∧ is_Some (main_model.currentTestRunConfig final).
Proof.
  intros Hs Hb. eexists. split; [by apply UpdateProofs.replay_run|].
  unfold main_model.updateOnTestsComplete. cbn.
  destruct (main_model.currentTestRunConfig m) eqn:Hc; cbn; rewrite ?Hc; by eauto.
Qed.


(** The package that [updateOnTestsComplete] makes of an error of a run
    without output. *)
Definition executionError (errText : string) : PackageResult.t :=
  PackageResult.mk "Test Execution Error" StatusFail
    ["Execution failed to produce JSON output.";
     "Error from `go test`: " ++ errText;
     "Check GDD log for `go test stderr` details."]
    [TestResult.mk "Test Execution Error" "Overall Execution" StatusFail
       ["Command `go test` failed: " ++ errText] 0]
    0.

(** X22: a run for which no command is started, the model being in
    stateRunningTests with an empty buffer: the one message of the channel
    makes [Update] return the command that shows the report "Test
    Execution Error" with the error's text; when that report is displayed
    the model is in stateReportView, one test is counted, as failed, and
    the overall status is FAIL. *)
Theorem failed_start_report `{GoRuntime} (scan : string -> list Line * option string)
    (env : main_model.Env) (m : main_model.MainModel) (ch : main_model.Chan)
    (config : runner.TestRunConfig) (proc : runner.Process) :
  main_model.state m = main_model.stateRunningTests ->
  main_model.accumulatedJSONOutput m = "" ->
  runner.started (runner.ExecuteTestsCmd config proc) = None ->
  exists errText final,
    UpdateProofs.replay scan env m
      (main_model.StreamMsg ch
       :: map UpdateProofs.ofRunner (runner.sent (runner.ExecuteTestsCmd config proc)))
    = ([[main_model.WaitForStreamMsgCmd ch];
        [main_model.DisplayReport [executionError errText]]], final)
    ∧ forall runConfig,
        exists shown,
          main_model.Update scan env final
            (main_model.displayReportMsg [executionError errText] runConfig)
          = (shown, [])
          ∧ main_model.state shown = main_model.stateReportView
          ∧ main_model.overallStatus (main_model.reportModel shown) = StatusFail
          ∧ main_model.totalTests (main_model.reportModel shown) = 1%Z
          ∧ main_model.failedCount (main_model.reportModel shown) = 1%Z.
Proof.
  intros Hs Hb Hnot.
  destruct (RunnerProofs.not_started_sent config proc Hnot) as (errText & Hsent).
  rewrite Hsent. cbn [map UpdateProofs.ofRunner].
  exists errText. eexists. split.
  - rewrite (UpdateProofs.replay_run scan env m ch [] (Some errText) Hs Hb). cbn.
    reflexivity.
  - intros runConfig. eexists. split; [reflexivity|]. cbn. done.
Qed.

(** X23: while tests are running, a key other than ctrl+c and a message
    that asks for a run change nothing: no command is returned, no second
    run is started, and the model, the accumulated output included, stays
    as it is. *)
Theorem run_not_disturbed `{GoRuntime} (scan : string -> list Line * option string)
    (env : main_model.Env) (m : main_model.MainModel) (msg : main_model.Msg) :
  main_model.state m = main_model.stateRunningTests ->
  UpdateProofs.isTrigger msg ∨ (exists key, msg = main_model.KeyMsg key ∧ key ≠ "ctrl+c") ->
  main_model.Update scan env m msg = (m, []).
Proof.
  intros Hs [[-> | [-> | ->]] | (key & -> & Hkey)].
  1-3: cbn; unfold main_model.updateOnRunTests; by rewrite bool_decide_eq_true_2.
  unfold main_model.Update, main_model.routeByState. rewrite Hs.
  rewrite (bool_decide_eq_false_2 _ Hkey).
  rewrite (bool_decide_eq_false_2 (main_model.stateRunningTests = main_model.stateTestList))
    by done.
  rewrite (bool_decide_eq_false_2 (main_model.stateRunningTests = main_model.stateError))
    by done.
  by rewrite andb_false_r.
Qed.

(** X24: when [FindTests] returns an error the message of [updateOnInit]
    puts the model in stateError with the error "test discovery failed:
    ..." and no command; from then on every key quits. *)
Theorem failed_discovery_quits `{GoRuntime} (scan : string -> list Line * option string)
    (env : main_model.Env) (m : main_model.MainModel)
    (found : list finder.TestInfo * option string) (err : string) :
  found.2 = Some err ->
  exists failed,
    main_model.Update scan env m (main_model.updateOnInit found) = (failed, [])
    ∧ main_model.state failed = main_model.stateError
    ∧ main_model.fatalErr failed = Some ("test discovery failed: " ++ err)
    ∧ forall key,
        key ≠ "" ->
        main_model.Update scan env failed (main_model.KeyMsg key)
        = (failed, [main_model.Quit]).
Proof.
  destruct found as [tests e]. cbn. intros ->. eexists. split; [reflexivity|].
  split; [done|]. split; [done|]. intros key Hkey.
  unfold main_model.Update. cbn [main_model.state main_model.with_statusMessage
    main_model.with_state main_model.with_fatalErr].
  rewrite (bool_decide_eq_true_2 (main_model.stateError = main_model.stateError)) by done.
  rewrite (bool_decide_eq_false_2 (main_model.stateError = main_model.stateTestList)) by done.
  rewrite (bool_decide_eq_false_2 _ Hkey). rewrite andb_false_r. cbn [andb negb].
  by case_bool_decide.
Qed.

(** X25: a run asked for on a test that [FindTests] reported, the model
    not being in stateRunningTests: whichever of the three messages asks,
    [Update] returns the command [ExecuteTestsCmd] with a configuration
    that passes the checks of the runner, so that a command is started
    whenever the pipes and the process can be made; the model is in
    stateRunningTests, its buffer empty, its channel nil. *)
Theorem discovered_test_run_starts `{GoRuntime}
    (scan : string -> list Line * option string)
    (env : main_model.Env) (m : main_model.MainModel) (msg : main_model.Msg)
    (item : finder.TestInfo)
    (parseFile : string -> option finder.File) (Join : string -> string -> string)
    (quote : string -> string) (rootDir absRootDir name : string)
    (entries : list finder.Node) :
  UpdateProofs.isTrigger msg ->
  main_model.state m ≠ main_model.stateRunningTests ->
  main_model.selected env = Some item ->
  item ∈ (finder.FindTests parseFile Join quote rootDir (inl absRootDir)
            (finder.DirNode name entries)).1 ->
  exists config started,
    main_model.Update scan env m msg
    = (started, [main_model.ExecuteTestsCmd config; main_model.SpinnerTick])
    ∧ RunnerProofs.validConfig config
    ∧ (forall proc,
         RunnerProofs.startable proc ->
         is_Some (runner.started (runner.ExecuteTestsCmd config proc)))
    ∧ main_model.state started = main_model.stateRunningTests
    ∧ main_model.accumulatedJSONOutput started = ""
    ∧ main_model.testOutputChan started = None.
Proof.
  intros Ht Hs Hsel Hin.
  assert (finder.Name item ≠ "") as Hname.
  { assert (FinderProofs.sound parseFile Join absRootDir item) as Hsound.
    { unfold finder.FindTests in Hin.
      pose proof (FinderProofs.walk_sound parseFile Join absRootDir
                    (finder.DirNode name entries) absRootDir [] [] []) as Hall.
      destruct (finder.skippedName name) eqn:Hskip.
      { cbn in Hin. rewrite Hskip in Hin. cbn in Hin. by apply elem_of_nil in Hin. }
      assert (Forall (FinderProofs.sound parseFile Join absRootDir)
                (finder.walk parseFile Join absRootDir [] [] (finder.DirNode name entries)
                   []).1) as Hall'.
      { apply Hall; [done| |constructor]. intros _. split; [done|]. intros _. constructor. }
      destruct (finder.walk _ _ _ _ _ _ _) as [tests [| |err]]; cbn in *.
      - by apply (proj1 (Forall_forall _ _) Hall').
      - by apply (proj1 (Forall_forall _ _) Hall').
      - by apply elem_of_nil in Hin. }
    destruct Hsound as (_ & _ & _ & _ & _ & _ & _ & _ & _ & _ & _ & _ & Hpre & _).
    intros Hempty. rewrite Hempty in Hpre. done. }
  assert (forall config, RunnerProofs.validConfig config ->
            forall proc, RunnerProofs.startable proc ->
                         is_Some (runner.started (runner.ExecuteTestsCmd config proc))) as Hstart.
  { intros config Hv proc Hp. unfold runner.ExecuteTestsCmd.
    destruct RunnerProofs.targets_differ as (Hsp & Hsa & Hpa).
    destruct Hv as [(Hty & Hp1 & Hn1)|[(Hty & Hp1)|Hty]]; rewrite Hty.
    - rewrite (bool_decide_eq_true_2 (runner.SingleTest = runner.SingleTest)) by done.
      rewrite (bool_decide_eq_false_2 _ Hp1), (bool_decide_eq_false_2 _ Hn1). cbn [orb].
      by apply RunnerProofs.launch_started_iff.
    - rewrite (bool_decide_eq_false_2 (runner.PackageTests = runner.SingleTest)) by done.
      rewrite (bool_decide_eq_true_2 (runner.PackageTests = runner.PackageTests)) by done.
      rewrite (bool_decide_eq_false_2 _ Hp1). by apply RunnerProofs.launch_started_iff.
    - rewrite (bool_decide_eq_false_2 (runner.AllTests = runner.SingleTest)) by done.
      rewrite (bool_decide_eq_false_2 (runner.AllTests = runner.PackageTests)) by done.
      rewrite (bool_decide_eq_true_2 (runner.AllTests = runner.AllTests)) by done.
      by apply RunnerProofs.launch_started_iff. }
  destruct Ht as [-> | [-> | ->]]; cbn [main_model.Update];
    unfold main_model.updateOnRunTests; rewrite (bool_decide_eq_false_2 _ Hs), ?Hsel;
    eexists _, _; (split; [reflexivity|]).
  - split; [right; by right|]. split; [|done]. apply Hstart. right. by right.
  - assert (RunnerProofs.validConfig
              (runner.mkConfig runner.PackageTests ("./" ++ finder.PackageDir item) ""
                 (main_model.getwd env))) as Hv.
    { right. left. done. }
    split; [exact Hv|]. split; [by apply Hstart|done].
  - assert (RunnerProofs.validConfig
              (runner.mkConfig runner.SingleTest ("./" ++ finder.PackageDir item)
                 (finder.Name item) (main_model.getwd env))) as Hv.
    { left. done. }
    split; [exact Hv|]. split; [by apply Hstart|done].
Qed.

(** X26: in the report view the keys esc, q and b make [Update] return
    the command that sends backToListMsg, and leave the model as it is;
    that message brings the list view back and clears the report. *)
Theorem report_view_back `{GoRuntime} (scan : string -> list Line * option string)
    (env : main_model.Env) (m : main_model.MainModel) (key : string) :
  main_model.state m = main_model.stateReportView ->
  key = "esc" ∨ key = "q" ∨ key = "b" ->
  main_model.Update scan env m (main_model.KeyMsg key)
    = (m, [main_model.Send main_model.backToListMsg])
  ∧ exists list,
      main_model.Update scan env m main_model.backToListMsg = (list, [])
      ∧ main_model.state list = main_model.stateTestList
      ∧ main_model.reportModel list = main_model.Reset
      ∧ main_model.accumulatedJSONOutput list = main_model.accumulatedJSONOutput m.
Proof.
  intros Hs Hkey. split.
  - unfold main_model.Update, main_model.routeByState, main_model.ReportModel_Update.
    rewrite Hs.
    destruct Hkey as [-> | [-> | ->]];
      repeat (case_bool_decide; try done; cbn [andb orb negb app option_list]).
  - eexists. split; [reflexivity|]. done.
Qed.

(** A scanner that finds no line. *)
Definition emptyScan (buffer : string) : list Line * option string := ([], None).

(** The list is shown, [sampleTest] selected. *)
Definition listEnv : main_model.Env := main_model.mkEnv false (Some sampleTest) "/proj".

Definition listModel : main_model.MainModel :=
  main_model.mkMainModel main_model.stateTestList None main_model.NewReportModel 80 24
    None "" None "".

(** A run of all tests has been asked for. *)
Definition runningModel : main_model.MainModel :=
  main_model.mkMainModel main_model.stateRunningTests None main_model.NewReportModel 80 24
    (Some (runner.mkConfig runner.AllTests "./..." "" "/proj")) "" None
    "Running all project tests...".

Definition reportShown : main_model.MainModel :=
  main_model.mkMainModel main_model.stateReportView None main_model.NewReportModel 80 24
    None "{}" None main_model.HelpView.

(** An instance: a run that prints two lines and succeeds. *)
Lemma run_session_witness :
  exists final,
    UpdateProofs.replay (H := stableRuntime) emptyScan listEnv runningModel
      (main_model.StreamMsg 1 :: map main_model.TestOutputLineMsg ["{}"; "{}"]
       ++ [main_model.TestRunCompleteMsg None])
    = ((replicate (S (length ["{}"; "{}"])) [main_model.WaitForStreamMsgCmd 1]
        ++ [[main_model.DisplayReport
               (tui.updateOnTestsComplete (H := stableRuntime) emptyScan
                  (UpdateProofs.joined ["{}"; "{}"]) None)]])%list,
       final)
    ∧ main_model.state final = main_model.stateRunningTests
    ∧ main_model.accumulatedJSONOutput final = UpdateProofs.joined ["{}"; "{}"]
    ∧ main_model.testOutputChan final = None
    ∧ is_Some (main_model.currentTestRunConfig final).
Proof.
  apply (run_session (H := stableRuntime) emptyScan listEnv runningModel 1 ["{}"; "{}"] None);
    reflexivity.
Defined.

(** An instance: a SingleTest configuration without test name. *)
Lemma failed_start_report_witness :
  exists errText final,
    UpdateProofs.replay (H := stableRuntime) emptyScan listEnv runningModel
      (main_model.StreamMsg 1
       :: map UpdateProofs.ofRunner
            (runner.sent
               (runner.ExecuteTestsCmd (runner.mkConfig runner.SingleTest "./pkg" "" "/proj")
                  failingProcess)))
    = ([[main_model.WaitForStreamMsgCmd 1];
        [main_model.DisplayReport [executionError errText]]], final)
    ∧ forall runConfig,
        exists shown,
          main_model.Update (H := stableRuntime) emptyScan listEnv final
            (main_model.displayReportMsg [executionError errText] runConfig)
          = (shown, [])
          ∧ main_model.state shown = main_model.stateReportView
          ∧ main_model.overallStatus (main_model.reportModel shown) = StatusFail
          ∧ main_model.totalTests (main_model.reportModel shown) = 1%Z
          ∧ main_model.failedCount (main_model.reportModel shown) = 1%Z.
Proof.
  apply (failed_start_report (H := stableRuntime) emptyScan listEnv runningModel 1
           (runner.mkConfig runner.SingleTest "./pkg" "" "/proj") failingProcess);
    reflexivity.
Defined.

(** An instance: the key enter during a run. *)
Lemma run_not_disturbed_witness :
  main_model.Update (H := stableRuntime) emptyScan listEnv runningModel
    (main_model.KeyMsg "enter")
  = (runningModel, []).
Proof.
  apply (run_not_disturbed (H := stableRuntime) emptyScan listEnv runningModel
           (main_model.KeyMsg "enter")).
  - reflexivity.
  - right. exists "enter". split; [reflexivity|discriminate].
Defined.

(** An instance: a discovery that failed on an entry. *)
Lemma failed_discovery_quits_witness :
  exists failed,
    main_model.Update (H := stableRuntime) emptyScan listEnv main_model.NewMainModel
      (main_model.updateOnInit ([], Some "lstat /proj/x: permission denied"))
    = (failed, [])
    ∧ main_model.state failed = main_model.stateError
    ∧ main_model.fatalErr failed
      = Some ("test discovery failed: " ++ "lstat /proj/x: permission denied")
    ∧ forall key,
        key ≠ "" ->
        main_model.Update (H := stableRuntime) emptyScan listEnv failed (main_model.KeyMsg key)
        = (failed, [main_model.Quit]).
Proof.
  apply (failed_discovery_quits (H := stableRuntime) emptyScan listEnv main_model.NewMainModel
           ([], Some "lstat /proj/x: permission denied") "lstat /proj/x: permission denied").
  reflexivity.
Defined.

(** An instance: the selected test TestA, found in the project. *)
Lemma discovered_test_run_starts_witness :
  exists config started,
    main_model.Update (H := stableRuntime) emptyScan listEnv listModel
      main_model.triggerRunSelectedTestMsg
    = (started, [main_model.ExecuteTestsCmd config; main_model.SpinnerTick])
    ∧ RunnerProofs.validConfig config
    ∧ (forall proc,
         RunnerProofs.startable proc ->
         is_Some (runner.started (runner.ExecuteTestsCmd config proc)))
    ∧ main_model.state started = main_model.stateRunningTests
    ∧ main_model.accumulatedJSONOutput started = ""
    ∧ main_model.testOutputChan started = None.
Proof.
  apply (discovered_test_run_starts (H := stableRuntime) emptyScan listEnv listModel
           main_model.triggerRunSelectedTestMsg sampleTest sampleParse sampleJoin sampleQuote
           "." "/proj" "proj" sampleEntries).
  - right. right. reflexivity.
  - discriminate.
  - reflexivity.
  - vm_compute. left.
Defined.

(** An instance: the key b in the report view. *)
Lemma report_view_back_witness :
  main_model.Update (H := stableRuntime) emptyScan listEnv reportShown (main_model.KeyMsg "b")
    = (reportShown, [main_model.Send main_model.backToListMsg])
  ∧ exists list,
      main_model.Update (H := stableRuntime) emptyScan listEnv reportShown
        main_model.backToListMsg = (list, [])
      ∧ main_model.state list = main_model.stateTestList
      ∧ main_model.reportModel list = main_model.Reset
      ∧ main_model.accumulatedJSONOutput list = main_model.accumulatedJSONOutput reportShown.
Proof.
  apply (report_view_back (H := stableRuntime) emptyScan listEnv reportShown "b").
  - reflexivity.
  - right. right. reflexivity.
Defined.
